(** * Change-Cover: the test merger ([approach/utils/merge_tests.py])

    A shallow embedding of the merger ([Merger], [merge_tests]) and of the
    callable identity ([ExtractedFunction], [approach/utils/test_extractor.py]),
    with the properties of the specification stated over it.

    Conventions of the embedding.
    - A Python [str] is a [string]; its characters are the code points
      below 256.  Character classes ([str.isspace], the line boundaries of
      [str.splitlines]) are the ones Python has on that range.
    - The Python parser ([ast.parse]) and the builtin [hash] belong to the
      interpreter, not to the repository: they are parameters of the
      development ([Variable]s of the sections [Identity] and [Merge]).
      [ast.parse] gives a tree or raises [SyntaxError]; every node of a tree
      has its [lineno] and [end_lineno], so the branches of the source for
      a missing line number are not in the model.
    - A call that may raise is a computation in the monad [M]: it threads the
      [World] (the merger object and the log) and ends in [Returned] or
      [Raised]; the world reached when an exception is raised is kept, so
      that what was mutated before the raise can be stated.
    - [LOG.warning] and [LOG.error] records are kept in the world;
      [LOG.debug] records are not modelled.
    - The world also keeps a history of the splices done on the buffer
      (which operation, where, what): a ghost field, written by [splice]
      and read by no operation, over which the order of the insertions is
      stated. *)

From Stdlib Require Import String Ascii List ZArith Lia Bool.
From Stdlib Require Import DecimalString.
From stdpp Require Import base option list gmap strings.
Import ListNotations.

Local Open Scope string_scope.
Local Open Scope list_scope.
Local Open Scope Z_scope.

(* ------------------------------------------------------------------------- *)
(** ** Python strings *)

Module PyStr.

Definition chr (n : nat) : ascii := ascii_of_nat n.

Definition LF : ascii := chr 10.
Definition CR : ascii := chr 13.
Definition TAB : ascii := chr 9.
Definition SPACE : ascii := chr 32.

Definition nl : string := String LF "".

(** [str.isspace] on one character. *)
Definition is_space (c : ascii) : bool :=
  let n := nat_of_ascii c in
  ((9 <=? n) && (n <=? 13) || (28 <=? n) && (n <=? 32)
   || (n =? 133) || (n =? 160))%nat.

(** The line boundaries of [str.splitlines]. *)
Definition is_linebreak (c : ascii) : bool :=
  let n := nat_of_ascii c in
  ((10 <=? n) && (n <=? 13) || (28 <=? n) && (n <=? 30) || (n =? 133))%nat.

Definition is_crlf (c : ascii) : bool :=
  Ascii.eqb c CR || Ascii.eqb c LF.

(** Truth value of a string: non-empty. *)
Definition truthy (s : string) : bool :=
  match s with EmptyString => false | String _ _ => true end.

Fixpoint lstrip_chars (p : ascii -> bool) (s : string) : string :=
  match s with
  | EmptyString => EmptyString
  | String c r => if p c then lstrip_chars p r else s
  end.

Fixpoint rstrip_chars (p : ascii -> bool) (s : string) : string :=
  match s with
  | EmptyString => EmptyString
  | String c r =>
      match rstrip_chars p r with
      | EmptyString => if p c then EmptyString else String c EmptyString
      | r' => String c r'
      end
  end.

Definition lstrip : string -> string := lstrip_chars is_space.
Definition rstrip : string -> string := rstrip_chars is_space.
Definition strip (s : string) : string := lstrip (rstrip s).

(** [s.rstrip('\r\n')] *)
Definition rstrip_crlf : string -> string := rstrip_chars is_crlf.

Definition startswith (s pre : string) : bool := String.prefix pre s.

Fixpoint endswith (s suf : string) : bool :=
  String.eqb s suf ||
  match s with
  | EmptyString => false
  | String _ r => endswith r suf
  end.

(** [c in s] for a one-character string [c]. *)
Fixpoint contains (c : ascii) (s : string) : bool :=
  match s with
  | EmptyString => false
  | String d r => Ascii.eqb c d || contains c r
  end.

Fixpoint take_while (p : ascii -> bool) (s : string) : string :=
  match s with
  | EmptyString => EmptyString
  | String c r => if p c then String c (take_while p r) else EmptyString
  end.

(** ["".join(l)] and [sep.join(l)] *)
Definition concat (l : list string) : string := String.concat "" l.
Definition join (sep : string) (l : list string) : string :=
  String.concat sep l.

(** [s.splitlines(keepends=True)] *)
Fixpoint splitlines_keepends (s : string) : list string :=
  match s with
  | EmptyString => []
  | String c r =>
      if Ascii.eqb c CR then
        match r with
        | String d r' =>
            if Ascii.eqb d LF
            then String c (String d "") :: splitlines_keepends r'
            else String c "" :: splitlines_keepends r
        | EmptyString => [String c ""]
        end
      else if is_linebreak c then String c "" :: splitlines_keepends r
      else
        match splitlines_keepends r with
        | [] => [String c ""]
        | l :: ls => String c l :: ls
        end
  end.

(** One line of [splitlines(keepends=True)] without its terminator. *)
Definition chomp (l : string) : string :=
  if endswith l (String CR (String LF "")) then
    substring 0 (String.length l - 2) l
  else
    match get (String.length l - 1) l with
    | Some c => if is_linebreak c then substring 0 (String.length l - 1) l
                else l
    | None => l
    end.

(** [s.splitlines()] *)
Definition splitlines (s : string) : list string :=
  map chomp (splitlines_keepends s).

(** [s.split("\n")]: the lines a multi-line regular expression sees. *)
Fixpoint split_nl (s : string) : list string :=
  match s with
  | EmptyString => [EmptyString]
  | String c r =>
      if Ascii.eqb c LF then EmptyString :: split_nl r
      else
        match split_nl r with
        | [] => [String c ""]
        | l :: ls => String c l :: ls
        end
  end.

(** [s.split(".", 1)]: [None] when there is no dot (a one-element list),
    the two parts otherwise. *)
Fixpoint split_dot_once (s : string) : option (string * string) :=
  match s with
  | EmptyString => None
  | String c r =>
      if Ascii.eqb c "." then Some (EmptyString, r)
      else
        match split_dot_once r with
        | Some (a, b) => Some (String c a, b)
        | None => None
        end
  end.

(** [s.upper()] on the ASCII letters; other characters are left as they
    are (the three mode names are ASCII).  On a text of ASCII characters
    this is [str.upper]; a text with another cased character has another
    upper case in Python, which is none of the three mode names either. *)
Definition upper_char (c : ascii) : ascii :=
  let n := nat_of_ascii c in
  if ((97 <=? n) && (n <=? 122))%nat then ascii_of_nat (n - 32) else c.

Fixpoint upper (s : string) : string :=
  match s with
  | EmptyString => EmptyString
  | String c r => String (upper_char c) (upper r)
  end.

(** ["\n" * n] *)
Fixpoint repeat_nl (n : nat) : string :=
  match n with O => EmptyString | S k => String LF (repeat_nl k) end.

(** [str(n)] for an integer. *)
Definition of_Z (z : Z) : string := NilZero.string_of_int (Z.to_int z).

(** [repr] of a list of identifiers, as an f-string prints it:
    ['a', 'b'] in brackets. *)
Definition repr_names (l : list string) : string :=
  "[" +:+ join ", " (map (fun s => "'" +:+ s +:+ "'") l) +:+ "]".

(** An optional name between quotes in an f-string: the name, or [None]. *)
Definition str_opt (o : option string) : string :=
  match o with Some s => s | None => "None" end.

(** *** [get_leading_whitespace]: the leading run of whitespace, which is
    what the regular expression of the source (start of string, then any
    number of whitespace characters) captures. *)
Definition get_leading_whitespace (s : string) : string :=
  take_while is_space s.

(** *** [textwrap.dedent]

    Lines are the segments between ["\n"].  A line of blanks and tabs only
    becomes empty; the margin is the longest common prefix of the leading
    blanks and tabs of the lines that have another character; the margin is
    removed from the lines that start with it. *)

Definition is_blank_tab (c : ascii) : bool :=
  Ascii.eqb c SPACE || Ascii.eqb c TAB.

Definition all_blank_tab (s : string) : bool :=
  match lstrip_chars is_blank_tab s with
  | EmptyString => true
  | _ => false
  end.

Definition normalize_blank (l : string) : string :=
  if all_blank_tab l then EmptyString else l.

Fixpoint common_prefix (a b : string) : string :=
  match a, b with
  | String x a', String y b' =>
      if Ascii.eqb x y then String x (common_prefix a' b') else EmptyString
  | _, _ => EmptyString
  end.

(** The loop over [indents]: the margin so far, [None] before the first. *)
Definition margin_step (margin : option string) (indent : string)
  : option string :=
  match margin with
  | None => Some indent
  | Some m =>
      if startswith indent m then Some m
      else if startswith m indent then Some indent
      else Some (common_prefix m indent)
  end.

Definition remove_margin (margin l : string) : string :=
  if startswith l margin
  then substring (String.length margin)
                 (String.length l - String.length margin) l
  else l.

Definition dedent (text : string) : string :=
  let ls := map normalize_blank (split_nl text) in
  let indents :=
    map (take_while is_blank_tab) (filter (fun l => truthy l) ls) in
  match fold_left margin_step indents None with
  | Some (String c m) =>
      join nl (map (remove_margin (String c m)) ls)
  | _ => join nl ls
  end.

End PyStr.

(* ------------------------------------------------------------------------- *)
(** ** The syntax trees of [ast], as far as the merger reads them *)

Module Ast.

(** [ast.arguments]: the parameter names ([a.arg] of each [ast.arg]). *)
Record arguments : Type := mk_arguments {
  posonlyargs : list string;
  args : list string;
  vararg : option string;
  kwonlyargs : list string;
  kwarg : option string
}.

(** An expression node (a decorator): its class name and its lines. *)
Record expr : Type := mk_expr {
  expr_type : string;
  expr_lineno : Z;
  expr_end_lineno : Z
}.

(** A statement node.  [Import] and [ImportFrom] carry their [ast.dump];
    [Stmt] is any other statement, with the name of its class. *)
#[warnings="-register-all"]
Inductive stmt : Type :=
| Import (dump : string) (lineno end_lineno : Z)
| ImportFrom (dump : string) (lineno end_lineno : Z)
| ClassDef (name : string) (body : list stmt) (decorator_list : list expr)
           (lineno end_lineno : Z)
| FunctionDef (name : string) (a : arguments) (body : list stmt)
              (decorator_list : list expr) (lineno end_lineno col_offset : Z)
| Stmt (type_name : string) (lineno end_lineno : Z).

Definition lineno (n : stmt) : Z :=
  match n with
  | Import _ l _ | ImportFrom _ l _ | ClassDef _ _ _ l _
  | FunctionDef _ _ _ _ l _ _ | Stmt _ l _ => l
  end.

Definition end_lineno (n : stmt) : Z :=
  match n with
  | Import _ _ e | ImportFrom _ _ e | ClassDef _ _ _ _ e
  | FunctionDef _ _ _ _ _ e _ | Stmt _ _ e => e
  end.

Definition body (n : stmt) : list stmt :=
  match n with
  | ClassDef _ b _ _ _ | FunctionDef _ _ b _ _ _ _ => b
  | _ => []
  end.

Definition decorator_list (n : stmt) : list expr :=
  match n with
  | ClassDef _ _ d _ _ | FunctionDef _ _ _ d _ _ _ => d
  | _ => []
  end.

Definition name (n : stmt) : string :=
  match n with
  | ClassDef x _ _ _ _ | FunctionDef x _ _ _ _ _ _ => x
  | _ => ""
  end.

Definition no_arguments : arguments := mk_arguments [] [] None [] None.

Definition arguments_of (n : stmt) : arguments :=
  match n with
  | FunctionDef _ a _ _ _ _ _ => a
  | _ => no_arguments
  end.

Definition col_offset (n : stmt) : Z :=
  match n with
  | FunctionDef _ _ _ _ _ _ c => c
  | _ => 0
  end.

Definition is_import (n : stmt) : bool :=
  match n with Import _ _ _ | ImportFrom _ _ _ => true | _ => false end.

Definition is_ClassDef (n : stmt) : bool :=
  match n with ClassDef _ _ _ _ _ => true | _ => false end.

Definition is_FunctionDef (n : stmt) : bool :=
  match n with FunctionDef _ _ _ _ _ _ _ => true | _ => false end.

(** [ast.dump(n)] of an import. *)
Definition dump_of (n : stmt) : string :=
  match n with Import d _ _ | ImportFrom d _ _ => d | _ => "" end.

(** [type(node).__name__] *)
Definition type_name_of (n : stmt) : string :=
  match n with
  | Import _ _ _ => "Import"
  | ImportFrom _ _ _ => "ImportFrom"
  | ClassDef _ _ _ _ _ => "ClassDef"
  | FunctionDef _ _ _ _ _ _ _ => "FunctionDef"
  | Stmt t _ _ => t
  end.

(** What [ast.parse] gives: the body of the module, or the text of the
    [SyntaxError]. *)
Inductive parse_result : Type :=
| Parsed (module_body : list stmt)
| SyntaxErr (msg : string).

(** A node handed to [_get_node_source_segment_v2]. *)
Inductive node : Type :=
| NStmt (n : stmt)
| NExpr (e : expr).

End Ast.

(* ------------------------------------------------------------------------- *)
(** ** Exceptions, the log, the world and the monad *)

Inductive exn : Type :=
| ValueError (msg : string)
| SyntaxError (msg : string)
| NotImplementedError (msg : string).

Inductive level : Type := WARNING | ERROR.

Record log_record : Type := mk_log { log_level : level; log_msg : string }.

(** The fields of a [Merger] object. *)
Record Merger : Type := mk_Merger {
  lines : list string;
  tree : list Ast.stmt;
  cls_map : gmap string Ast.stmt;
  fn_map : gmap string Ast.stmt
}.

(** The operations of the merger that splice lines into the buffer. *)
Inductive operation : Type :=
| OpAddImports
| OpAddClassOrFunc
| OpAddMethods (class_name : string)
| OpDecorators (target_name : string) (target_cls_name : option string)
| OpBody (target_name : string) (target_cls_name : option string).

(** One call of [_splice] on [self.lines]. *)
Record splice_event : Type := mk_event {
  ev_op : operation;
  ev_pos : Z;
  ev_payload : list string
}.

Record World : Type := mk_World {
  self : Merger;
  LOG : list log_record;
  history : list splice_event
}.

Inductive outcome (A : Type) : Type :=
| Returned (a : A)
| Raised (e : exn).
Arguments Returned {A} a.
Arguments Raised {A} e.

Definition M (A : Type) : Type := World -> outcome A * World.

Definition ret {A} (a : A) : M A := fun w => (Returned a, w).

Definition bind {A B} (c : M A) (k : A -> M B) : M B :=
  fun w =>
    match c w with
    | (Returned a, w') => k a w'
    | (Raised e, w') => (Raised e, w')
    end.

Definition raise {A} (e : exn) : M A := fun w => (Raised e, w).

Notation "'let*' x ':=' c 'in' k" := (bind c (fun x => k))
  (at level 10, x name, c at level 100, k at level 200).
Notation "'let*' ' pat ':=' c 'in' k" :=
  (bind c (fun x => match x with pat => k end))
  (at level 10, pat pattern, c at level 100, k at level 200).
Notation "c ';;' k" := (bind c (fun _ => k))
  (at level 100, k at level 200, right associativity).

Definition get_self : M Merger := fun w => (Returned (self w), w).

Definition set_lines (ls : list string) : M unit :=
  fun w =>
    let m := self w in
    (Returned tt,
     mk_World (mk_Merger ls (tree m) (cls_map m) (fn_map m)) (LOG w)
              (history w)).

Definition set_index (t : list Ast.stmt) (c f : gmap string Ast.stmt)
  : M unit :=
  fun w => (Returned tt,
            mk_World (mk_Merger (lines (self w)) t c f) (LOG w) (history w)).

Definition log (l : level) (m : string) : M unit :=
  fun w => (Returned tt,
            mk_World (self w) (LOG w ++ [mk_log l m]) (history w)).

(** Ghost: one splice written to the history. *)
Definition record (e : splice_event) : M unit :=
  fun w => (Returned tt, mk_World (self w) (LOG w) (history w ++ [e])).

(** A comprehension whose element expression may log. *)
Fixpoint map_M {A B} (f : A -> M B) (l : list A) : M (list B) :=
  match l with
  | [] => ret []
  | x :: r => let* y := f x in let* ys := map_M f r in ret (y :: ys)
  end.

(** A loop that carries an accumulator. *)
Fixpoint fold_M {A S} (f : S -> A -> M S) (l : list A) (s : S) : M S :=
  match l with
  | [] => ret s
  | x :: r => let* s' := f s x in fold_M f r s'
  end.

(* ------------------------------------------------------------------------- *)
(** ** Python lists indexed by integers *)

Module PyList.

(** An index or a bound of a slice, brought into [0 .. len]. *)
Definition clamp (len i : Z) : nat :=
  Z.to_nat (if i <? 0 then Z.max 0 (i + len) else Z.min i len).

(** [l[i:j]] *)
Definition slice {A} (l : list A) (i j : Z) : list A :=
  let len := Z.of_nat (length l) in
  let a := clamp len i in
  let b := clamp len j in
  take (b - a) (drop a l).

(** [0 <= i < len(l)] *)
Definition in_range {A} (l : list A) (i : Z) : bool :=
  (0 <=? i) && (i <? Z.of_nat (length l)).

(** [l[i]] where the source has checked [0 <= i < len(l)]. *)
Definition at_ (l : list string) (i : Z) : string :=
  default "" (l !! Z.to_nat i).

(** [l[i] = v] under the same check. *)
Definition set_at (l : list string) (i : Z) (v : string) : list string :=
  <[Z.to_nat i := v]> l.

(** [l[pos:pos] = payload] for [0 <= pos <= len(l)] *)
Definition insert_at {A} (l : list A) (pos : nat) (payload : list A)
  : list A :=
  take pos l ++ payload ++ drop pos l.

End PyList.

(* ------------------------------------------------------------------------- *)
(** ** [ExtractedFunction] ([approach/utils/test_extractor.py]) *)

(** A value stored in [func_name]: a name, or (as [merge_tests] does for the
    methods it adds to an existing class) a [FunctionDef] node. *)
Inductive pyval : Type :=
| PyStr (s : string)
| PyNode (n : Ast.stmt).

(** [v == s] for a [str] [s]: a node is never equal to a string. *)
Definition py_eq_str (v : pyval) (s : string) : bool :=
  match v with
  | PyStr x => String.eqb x s
  | PyNode _ => false
  end.

Record ExtractedFunction : Type := mk_ExtractedFunction {
  class_name : option string;
  func_name : pyval;
  func_def : option string;
  file_path : option string
}.

Section Identity.

(** The builtin [hash] on the pair [(class_name, func_name)].  A node is
    hashed by identity; within one tree its content (its line) identifies
    it. *)
Variable py_hash : option string * pyval -> Z.

(** [__hash__] *)
Definition ef_hash (f : ExtractedFunction) : Z :=
  py_hash (class_name f, func_name f).

(** [__eq__] between two [ExtractedFunction]s *)
Definition ef_eq (f g : ExtractedFunction) : bool :=
  ef_hash f =? ef_hash g.

(** [set.add]: an element equal to one of the set is not added. *)
Definition set_add (s : list ExtractedFunction) (f : ExtractedFunction)
  : list ExtractedFunction :=
  if existsb (ef_eq f) s then s else s ++ [f].

(** [set.update] *)
Definition set_update (s fs : list ExtractedFunction)
  : list ExtractedFunction :=
  fold_left set_add fs s.

End Identity.

(* ------------------------------------------------------------------------- *)
(** ** Dictionaries that are iterated: insertion order kept *)

Module PyDict.

Fixpoint lookup {V} (k : string) (d : list (string * V)) : option V :=
  match d with
  | [] => None
  | (k', v) :: r => if String.eqb k k' then Some v else lookup k r
  end.

(** [d[k] = v] *)
Fixpoint assign {V} (k : string) (v : V) (d : list (string * V))
  : list (string * V) :=
  match d with
  | [] => [(k, v)]
  | (k', v') :: r =>
      if String.eqb k k' then (k', v) :: r else (k', v') :: assign k v r
  end.

(** [d.setdefault(k, []).extend(vs)] *)
Fixpoint setdefault_extend {V} (k : string) (vs : list V)
         (d : list (string * list V)) : list (string * list V) :=
  match d with
  | [] => [(k, vs)]
  | (k', l) :: r =>
      if String.eqb k k' then (k', l ++ vs) :: r
      else (k', l) :: setdefault_extend k vs r
  end.

End PyDict.

(* ------------------------------------------------------------------------- *)
(** ** Helpers of [merge_tests.py] *)

Import PyStr.

(** [_reindent].  The source first resets an indent that has a character
    other than whitespace, with a warning; every call of the merger passes
    leading whitespace followed by four blanks or a tab
    ([indent_is_whitespace] below), so the record is never written and the
    function is kept pure. *)
Definition _reindent (snippet base_indent_str : string) : string :=
  let base_indent_str :=
    if truthy (strip base_indent_str) then "" else base_indent_str in
  let dedented_lines := splitlines (dedent snippet) in
  if negb (existsb (fun line => truthy (strip line)) dedented_lines)
     && negb (bool_decide (dedented_lines = []))
  then repeat_nl (length dedented_lines)
  else
    let reindented_lines :=
      map (fun line =>
             if truthy (strip line) then base_indent_str +:+ line else line)
          dedented_lines in
    let result := join nl reindented_lines in
    if truthy result && negb (endswith result nl)
    then result +:+ nl else result.

(** [_index]: the dumps of the imports, the classes and the functions by
    name (a later definition of a name replaces an earlier one). *)
Definition _index (tree : list Ast.stmt)
  : list string * gmap string Ast.stmt * gmap string Ast.stmt :=
  (map Ast.dump_of (filter (fun n => Ast.is_import n) tree),
   foldl (fun m n => if Ast.is_ClassDef n then <[Ast.name n := n]> m else m)
         ∅ tree,
   foldl (fun m n => if Ast.is_FunctionDef n then <[Ast.name n := n]> m else m)
         ∅ tree).

(** [_splice], on the list it mutates. *)
Definition _splice (ls : list string) (pos_0based : Z) (payload : list string)
  : list string :=
  let actual_pos := Z.max 0 (Z.min pos_0based (Z.of_nat (length ls))) in
  PyList.insert_at ls (Z.to_nat actual_pos) payload.

(** [_splice(self.lines, pos, payload)] done by the operation [op]; [ls] is
    [self.lines] with the assignments the operation made before the call. *)
Definition splice (op : operation) (ls : list string) (pos_0based : Z)
           (payload : list string) : M unit :=
  set_lines (_splice ls pos_0based payload) ;;
  record (mk_event op pos_0based payload).

(** [_last_import_line] *)
Definition _last_import_line (tree : list Ast.stmt) : Z :=
  fold_left (fun end_ n =>
               if Ast.is_import n then Z.max end_ (Ast.end_lineno n) else end_)
            tree 0.

(** [getattr(node, 'name', "type " + class name)], as printed. *)
Definition node_name (n : Ast.node) : string :=
  match n with
  | Ast.NStmt s =>
      if Ast.is_ClassDef s || Ast.is_FunctionDef s then Ast.name s
      else "type " +:+ Ast.type_name_of s
  | Ast.NExpr e => "type " +:+ Ast.expr_type e
  end.

Definition node_lineno (n : Ast.node) : Z :=
  match n with
  | Ast.NStmt s => Ast.lineno s
  | Ast.NExpr e => Ast.expr_lineno e
  end.

Definition node_end_lineno (n : Ast.node) : Z :=
  match n with
  | Ast.NStmt s => Ast.end_lineno s
  | Ast.NExpr e => Ast.expr_end_lineno e
  end.

(** Lines 158-175 of [_get_node_source_segment_v2]: the lines of the node,
    from its first decorator when it is a decorated class or function. *)
Definition source_segment (src : string) (n : Ast.node) : string :=
  let start_lineno :=
    match n with
    | Ast.NStmt s =>
        match Ast.decorator_list s with
        | d :: _ => Ast.expr_lineno d
        | [] => node_lineno n
        end
    | Ast.NExpr _ => node_lineno n
    end in
  let end_lineno := node_end_lineno n in
  let source_lines := splitlines_keepends src in
  concat (PyList.slice source_lines (start_lineno - 1) end_lineno).

(** [_get_node_source_segment_v2].  Every node of the model has its lines,
    and a slice raises no [IndexError]: of the three error exits of the
    source, the empty segment is the one that can be taken. *)
Definition _get_node_source_segment_v2 (src : string) (n : Ast.node)
  : M string :=
  let segment := source_segment src n in
  if negb (truthy segment) then
    log ERROR ("Could not extract source segment for node '" +:+ node_name n
               +:+ "' at line " +:+ of_Z (node_lineno n)) ;;
    ret ""
  else ret (rstrip segment).

(** The indentation one level below [indent]. *)
Definition one_level (indent : string) : string :=
  indent +:+ (if negb (contains TAB indent) then "    " else String TAB "").

(** A snippet that has code is made to end with a newline. *)
Definition ensure_newline (snippet : string) : string :=
  if truthy (strip snippet) && negb (endswith snippet nl)
  then rstrip_crlf snippet +:+ nl else snippet.

(* ------------------------------------------------------------------------- *)
(** ** The class [Merger] *)

Section Merge.

(** [ast.parse] *)
Variable parse : string -> Ast.parse_result.

(** [Merger._refresh_index] *)
Definition _refresh_index : M unit :=
  let* m := get_self in
  let current_source := concat (lines m) in
  if negb (truthy (strip current_source)) then
    set_index [] ∅ ∅
  else
    let processed_lines :=
      map (fun line_content =>
             if truthy (strip line_content)
                && negb (endswith line_content nl)
             then rstrip_crlf line_content +:+ nl
             else line_content)
          (lines m) in
    let current_source := concat processed_lines in
    let current_source :=
      if negb (endswith current_source nl) && truthy (strip current_source)
      then current_source +:+ nl else current_source in
    match parse current_source with
    | Ast.Parsed t =>
        let '(_, c, f) := _index t in
        set_index t c f ;;
        set_lines (splitlines_keepends current_source)
    | Ast.SyntaxErr e =>
        log ERROR
          ("Syntax error while re-parsing source after modification: "
           +:+ e) ;;
        raise (SyntaxError e)
    end.

(** [Merger.__init__] *)
Definition Merger_init (base_src : string) : M unit :=
  let ls := splitlines_keepends base_src in
  let ls :=
    match last ls with
    | Some l =>
        if truthy l && negb (endswith l nl)
        then PyList.set_at ls (Z.of_nat (length ls) - 1)
                           (rstrip_crlf l +:+ nl)
        else ls
    | None =>
        if truthy (strip base_src) then [rstrip_crlf base_src +:+ nl]
        else []
    end in
  set_lines ls ;;
  _refresh_index.

(** [Merger._signatures_match] *)
Definition _signatures_match (sig1 sig2 : Ast.arguments) : bool * string :=
  let s1_posonly := Ast.posonlyargs sig1 in
  let s2_posonly := Ast.posonlyargs sig2 in
  if negb (bool_decide (s1_posonly = s2_posonly)) then
    (false, "Positional-only arguments differ: " +:+ repr_names s1_posonly
            +:+ " vs " +:+ repr_names s2_posonly)
  else
  let s1_args := Ast.args sig1 in
  let s2_args := Ast.args sig2 in
  if negb (bool_decide (s1_args = s2_args)) then
    (false, "Positional arguments differ: " +:+ repr_names s1_args
            +:+ " vs " +:+ repr_names s2_args)
  else
  let s1_vararg := Ast.vararg sig1 in
  let s2_vararg := Ast.vararg sig2 in
  if negb (bool_decide (s1_vararg = s2_vararg)) then
    (false, "*args differ: '" +:+ str_opt s1_vararg +:+ "' vs '"
            +:+ str_opt s2_vararg +:+ "'")
  else
  let s1_kwonly := Ast.kwonlyargs sig1 in
  let s2_kwonly := Ast.kwonlyargs sig2 in
  if negb (bool_decide (s1_kwonly = s2_kwonly)) then
    (false, "Keyword-only arguments differ: " +:+ repr_names s1_kwonly
            +:+ " vs " +:+ repr_names s2_kwonly)
  else
  let s1_kwarg := Ast.kwarg sig1 in
  let s2_kwarg := Ast.kwarg sig2 in
  if negb (bool_decide (s1_kwarg = s2_kwarg)) then
    (false, "**kwargs differ: '" +:+ str_opt s1_kwarg +:+ "' vs '"
            +:+ str_opt s2_kwarg +:+ "'")
  else (true, "").

(** [Merger.add_imports] *)
Definition add_imports (imports : list string) : M unit :=
  match imports with
  | [] => ret tt
  | _ =>
      let* m := get_self in
      let splice_pos_0based := _last_import_line (tree m) in
      splice OpAddImports (lines m) splice_pos_0based imports ;;
      _refresh_index
  end.

(** [Merger.add_class_or_func] *)
Definition add_class_or_func (snippet : string) : M unit :=
  let clean_snippet := ensure_newline snippet in
  let* m := get_self in
  let ls := lines m in
  let '(prefix, ls) :=
    match last ls with
    | None => ("", ls)
    | Some l =>
        if String.eqb (strip l) "" || endswith l (nl +:+ nl) then ("", ls)
        else if negb (endswith l nl) then
          (nl, PyList.set_at ls (Z.of_nat (length ls) - 1)
                             (rstrip_crlf l +:+ nl))
        else (nl, ls)
    end in
  splice OpAddClassOrFunc ls (Z.of_nat (length ls))
         [prefix +:+ clean_snippet] ;;
  _refresh_index.

(** [Merger.add_methods] *)
Definition add_methods (class_name : string) (methods : list string)
  : M unit :=
  let* m := get_self in
  match cls_map m !! class_name with
  | None =>
      log ERROR ("Class " +:+ class_name
                 +:+ " not found. Cannot add methods.")
  | Some cls_node =>
      let insertion_idx_0based :=
        match last (Ast.body cls_node) with
        | Some last_member => Ast.end_lineno last_member
        | None => Ast.lineno cls_node
        end in
      let class_def_line_idx_0based := Ast.lineno cls_node - 1 in
      let class_indent_str :=
        if PyList.in_range (lines m) class_def_line_idx_0based
        then get_leading_whitespace
               (PyList.at_ (lines m) class_def_line_idx_0based)
        else "" in
      let method_indent_str := one_level class_indent_str in
      let prev_line_idx_0based := insertion_idx_0based - 1 in
      let '(ls, payload) :=
        if PyList.in_range (lines m) prev_line_idx_0based then
          let current_prev_line :=
            PyList.at_ (lines m) prev_line_idx_0based in
          if truthy (strip current_prev_line)
             && negb (endswith current_prev_line nl)
          then (PyList.set_at (lines m) prev_line_idx_0based
                              (rstrip_crlf current_prev_line +:+ nl),
                [nl])
          else if truthy (strip current_prev_line) then (lines m, [nl])
          else (lines m, [])
        else
          match lines m with
          | [] => (lines m, [])
          | _ => (lines m, [nl])
          end in
      let payload :=
        payload ++ map (fun snip => _reindent snip method_indent_str)
                       methods in
      splice (OpAddMethods class_name) ls insertion_idx_0based payload ;;
      _refresh_index
  end.

(** [Merger.result] *)
Definition result : M string :=
  let* m := get_self in ret (concat (lines m)).

(** *** [Merger.append_callable_body], block by block *)

(** The method of a class with a given name:
    [next(m for m in body if isinstance(m, FunctionDef) and m.name == x)] *)
Definition find_method (cls_node : Ast.stmt) (target_name : string)
  : option Ast.stmt :=
  head (filter (fun m => Ast.is_FunctionDef m
                         && String.eqb (Ast.name m) target_name)
               (Ast.body cls_node)).

(** Lines 319-337: the node of the target callable. *)
Definition resolve_target (target_name : string)
           (target_cls_name : option string) : M Ast.stmt :=
  let* m := get_self in
  match target_cls_name with
  | Some cls =>
      match cls_map m !! cls with
      | None => raise (ValueError ("Target class '" +:+ cls
                                   +:+ "' not found."))
      | Some target_cls_node =>
          match find_method target_cls_node target_name with
          | Some n => ret n
          | None =>
              raise (ValueError ("Target method '" +:+ cls +:+ "."
                                 +:+ target_name +:+ "' not found."))
          end
      end
  | None =>
      match fn_map m !! target_name with
      | None => raise (ValueError ("Target function '" +:+ target_name
                                   +:+ "' not found."))
      | Some n => ret n
      end
  end.

(** Lines 339-350: the new snippet, dedented, and its node. *)
Definition parse_new_callable (target_name new_callable_snippet : string)
  : M (string * Ast.stmt) :=
  let dedented_new_snippet_str := dedent new_callable_snippet in
  match parse dedented_new_snippet_str with
  | Ast.SyntaxErr e =>
      raise (ValueError ("Syntax error in new snippet for '"
                         +:+ target_name +:+ "': " +:+ e))
  | Ast.Parsed new_body =>
      match new_body with
      | n :: _ =>
          if Ast.is_FunctionDef n then ret (dedented_new_snippet_str, n)
          else raise (ValueError ("New snippet for '" +:+ target_name
                                  +:+ "' not a function def."))
      | [] => raise (ValueError ("New snippet for '" +:+ target_name
                                 +:+ "' not a function def."))
      end
  end.

(** Lines 352-356: the signature gate. *)
Definition signature_gate (target_name : string)
           (parsed_new_callable_node target_callable_node : Ast.stmt)
  : M unit :=
  let '(signatures_match, reason) :=
    _signatures_match (Ast.arguments_of parsed_new_callable_node)
                      (Ast.arguments_of target_callable_node) in
  if negb signatures_match then
    raise (ValueError ("Signatures differ for '" +:+ target_name +:+ "': "
                       +:+ reason))
  else ret tt.

(** The indentation of a line of the buffer, empty out of range:
    [get_leading_whitespace(self.lines[i]) if 0 <= i < len(self.lines)
     else ""] *)
Definition indent_of_line (ls : list string) (i : Z) : string :=
  if PyList.in_range ls i then get_leading_whitespace (PyList.at_ ls i)
  else "".

(** Lines 389-399: one decorator of the new callable, its lines stripped
    on the left and put at the indentation of the target. *)
Definition reconstruct_decorator (actual_target_indent_str deco_expr_src
                                  : string) : string :=
  let deco_lines := splitlines deco_expr_src in
  let first_deco_line_text :=
    match deco_lines with l :: _ => lstrip l | [] => "" end in
  let reconstructed_deco :=
    (actual_target_indent_str +:+ first_deco_line_text)
    :: map (fun line => actual_target_indent_str +:+ lstrip line)
           (tail deco_lines) in
  join nl reconstructed_deco +:+ nl.

(** Lines 376-399: the decorators to insert. *)
Definition new_decorators (actual_target_indent_str dedented : string)
           (parsed_new_callable_node target_callable_node : Ast.stmt)
  : M (list string) :=
  let* m := get_self in
  let* target_deco_src_stripped :=
    map_M (fun d =>
             let* src :=
               _get_node_source_segment_v2 (concat (lines m)) (Ast.NExpr d)
             in ret (strip src))
          (Ast.decorator_list target_callable_node) in
  fold_M (fun new_decos_payload deco_node =>
            let* deco_expr_src :=
              _get_node_source_segment_v2 dedented (Ast.NExpr deco_node) in
            if negb (truthy deco_expr_src) then ret new_decos_payload
            else if negb (bool_decide
                            (strip deco_expr_src
                             ∈ target_deco_src_stripped))
            then ret (new_decos_payload
                      ++ [reconstruct_decorator actual_target_indent_str
                                                deco_expr_src])
            else ret new_decos_payload)
         (Ast.decorator_list parsed_new_callable_node) [].

(** Lines 404-424: the target looked up again after the decorators. *)
Definition resolve_target_again (target_name : string)
           (target_cls_name : option string) : M Ast.stmt :=
  let* m := get_self in
  match target_cls_name with
  | Some cls =>
      match cls_map m !! cls with
      | None => raise (ValueError ("Target class '" +:+ cls
                                   +:+ "' missing after deco update."))
      | Some target_cls_node =>
          match find_method target_cls_node target_name with
          | Some n => ret n
          | None =>
              raise (ValueError ("Target method '" +:+ target_name
                                 +:+ "' missing after deco update."))
          end
      end
  | None =>
      match fn_map m !! target_name with
      | None => raise (ValueError ("Target function '" +:+ target_name
                                   +:+ "' missing after deco update."))
      | Some n => ret n
      end
  end.

(** Lines 358-424: the decorators of the new callable that the target
    lacks are spliced in at the line of the target; the result is the
    node of the target, looked up again when lines were inserted. *)
Definition merge_decorators (target_name : string)
           (target_cls_name : option string) (dedented : string)
           (parsed_new_callable_node target_callable_node : Ast.stmt)
  : M Ast.stmt :=
  let* m := get_self in
  let decorator_splice_idx_0based := Ast.lineno target_callable_node - 1 in
  if negb (PyList.in_range (lines m) decorator_splice_idx_0based) then
    raise (ValueError
             ("Target '" +:+ target_name +:+ "' lineno "
              +:+ of_Z (Ast.lineno target_callable_node)
              +:+ " out of bounds for file len "
              +:+ of_Z (Z.of_nat (length (lines m))) +:+ "."))
  else
  let line_content_at_splice_idx :=
    PyList.at_ (lines m) decorator_splice_idx_0based in
  let stripped_line_content := lstrip line_content_at_splice_idx in
  if negb (startswith stripped_line_content "def "
           || startswith stripped_line_content "@") then
    log ERROR
      ("AST lineno for target callable '" +:+ target_name
       +:+ "' seems incorrect. Expected 'def' or '@' at line "
       +:+ of_Z (Ast.lineno target_callable_node)
       +:+ " (0-idx " +:+ of_Z decorator_splice_idx_0based
       +:+ "), but found: '" +:+ strip line_content_at_splice_idx
       +:+ "'. Node details: lineno="
       +:+ of_Z (Ast.lineno target_callable_node)
       +:+ ", end_lineno=" +:+ of_Z (Ast.end_lineno target_callable_node)
       +:+ ", col_offset=" +:+ of_Z (Ast.col_offset target_callable_node)
       +:+ ".") ;;
    raise (ValueError
             ("AST lineno for '" +:+ target_name +:+ "' (line "
              +:+ of_Z (Ast.lineno target_callable_node)
              +:+ ") does not point to its definition. "
              +:+ "Cannot reliably insert decorators."))
  else
  let actual_target_indent_str :=
    get_leading_whitespace line_content_at_splice_idx in
  let* new_decos_payload :=
    new_decorators actual_target_indent_str dedented
                   parsed_new_callable_node target_callable_node in
  match new_decos_payload with
  | [] => ret target_callable_node
  | _ =>
      splice (OpDecorators target_name target_cls_name) (lines m)
             decorator_splice_idx_0based new_decos_payload ;;
      _refresh_index ;;
      resolve_target_again target_name target_cls_name
  end.

(** Lines 426-436: the text of the statements of the new callable. *)
Definition body_to_append (dedented : string)
           (parsed_new_callable_node : Ast.stmt) : string :=
  let body_lines_new :=
    match Ast.body parsed_new_callable_node,
          last (Ast.body parsed_new_callable_node) with
    | first_stmt :: _, Some last_stmt =>
        let all_dedented_lines := splitlines_keepends dedented in
        PyList.slice all_dedented_lines (Ast.lineno first_stmt - 1)
                     (Ast.end_lineno last_stmt)
    | _, _ => []
    end in
  concat body_lines_new.

(** Lines 443-476: where the body goes, and its indentation. *)
Definition body_target (ls : list string) (target_callable_node : Ast.stmt)
  : Z * string :=
  let def_indent :=
    indent_of_line ls (Ast.lineno target_callable_node - 1) in
  match Ast.body target_callable_node,
        last (Ast.body target_callable_node) with
  | first_target_stmt :: _, Some last_target_stmt =>
      let body_splice_idx_0based := Ast.end_lineno last_target_stmt in
      let first_target_stmt_line_idx_0based :=
        Ast.lineno first_target_stmt - 1 in
      if PyList.in_range ls first_target_stmt_line_idx_0based then
        let body_indent_str :=
          get_leading_whitespace
            (PyList.at_ ls first_target_stmt_line_idx_0based) in
        if negb (truthy body_indent_str)
           && truthy (strip (PyList.at_ ls first_target_stmt_line_idx_0based))
        then (body_splice_idx_0based, one_level def_indent)
        else (body_splice_idx_0based, body_indent_str)
      else (body_splice_idx_0based, one_level def_indent)
  | _, _ => (Ast.lineno target_callable_node, one_level def_indent)
  end.

(** Lines 480-489: the separator, and the line before the splice made to
    end with a newline. *)
Definition body_separator (ls : list string) (body_splice_idx_0based : Z)
  : string * list string :=
  let prev_body_splice_line_idx_0based := body_splice_idx_0based - 1 in
  if PyList.in_range ls prev_body_splice_line_idx_0based then
    let current_prev_line :=
      PyList.at_ ls prev_body_splice_line_idx_0based in
    if negb (truthy (strip current_prev_line)) then ("", ls)
    else if negb (endswith current_prev_line nl) then
      (nl, PyList.set_at ls prev_body_splice_line_idx_0based
                         (rstrip_crlf current_prev_line +:+ nl))
    else (nl, ls)
  else (nl, ls).

(** Lines 426-493: the body of the new callable appended to the target. *)
Definition append_body (target_name : string)
           (target_cls_name : option string) (dedented : string)
           (parsed_new_callable_node target_callable_node : Ast.stmt)
  : M unit :=
  let body_to_append_str :=
    body_to_append dedented parsed_new_callable_node in
  if negb (truthy (strip body_to_append_str)) then ret tt
  else
    let* m := get_self in
    let '(body_splice_idx_0based, body_indent_str) :=
      body_target (lines m) target_callable_node in
    let reindented_body := _reindent body_to_append_str body_indent_str in
    let '(prefix_for_body, ls) :=
      body_separator (lines m) body_splice_idx_0based in
    splice (OpBody target_name target_cls_name) ls body_splice_idx_0based
           [prefix_for_body +:+ reindented_body] ;;
    _refresh_index.

(** [Merger.append_callable_body] *)
Definition append_callable_body (target_name new_callable_snippet : string)
           (target_cls_name : option string) : M unit :=
  let* target_callable_node := resolve_target target_name target_cls_name in
  let* '(dedented_new_snippet_str, parsed_new_callable_node) :=
    parse_new_callable target_name new_callable_snippet in
  signature_gate target_name parsed_new_callable_node target_callable_node ;;
  let* target_callable_node :=
    merge_decorators target_name target_cls_name dedented_new_snippet_str
                     parsed_new_callable_node target_callable_node in
  append_body target_name target_cls_name dedented_new_snippet_str
              parsed_new_callable_node target_callable_node.

(* ----------------------------------------------------------------------- *)
(** ** The orchestrator [merge_tests] *)

(** The builtin [hash], for the set of merged callables. *)
Variable py_hash : option string * pyval -> Z.

(** The local variables of [merge_tests] that the walk fills. *)
Record Pending : Type := mk_Pending {
  base_imps_dump_initial : list string;
  new_imports_to_add : list string;
  pending_methods_for_add : list (string * list (Ast.stmt * string));
  pending_methods_for_append : list (string * list (Ast.stmt * string));
  pending_functions_for_append : list (string * string);
  merged_test_funcs : list ExtractedFunction
}.

Definition queue_import (p : Pending) (snippet dump : string) : Pending :=
  mk_Pending (base_imps_dump_initial p ++ [dump])
             (new_imports_to_add p ++ [snippet])
             (pending_methods_for_add p) (pending_methods_for_append p)
             (pending_functions_for_append p) (merged_test_funcs p).

Definition queue_methods_for_add (p : Pending) (cls : string)
           (ms : list (Ast.stmt * string)) : Pending :=
  mk_Pending (base_imps_dump_initial p) (new_imports_to_add p)
             (PyDict.setdefault_extend cls ms (pending_methods_for_add p))
             (pending_methods_for_append p)
             (pending_functions_for_append p) (merged_test_funcs p).

Definition queue_methods_for_append (p : Pending) (cls : string)
           (ms : list (Ast.stmt * string)) : Pending :=
  mk_Pending (base_imps_dump_initial p) (new_imports_to_add p)
             (pending_methods_for_add p)
             (PyDict.setdefault_extend cls ms (pending_methods_for_append p))
             (pending_functions_for_append p) (merged_test_funcs p).

Definition queue_function_for_append (p : Pending) (name snippet : string)
  : Pending :=
  mk_Pending (base_imps_dump_initial p) (new_imports_to_add p)
             (pending_methods_for_add p) (pending_methods_for_append p)
             (PyDict.assign name snippet (pending_functions_for_append p))
             (merged_test_funcs p).

Definition record_merged (p : Pending) (fs : list ExtractedFunction)
  : Pending :=
  mk_Pending (base_imps_dump_initial p) (new_imports_to_add p)
             (pending_methods_for_add p) (pending_methods_for_append p)
             (pending_functions_for_append p)
             (set_update py_hash (merged_test_funcs p) fs).

(** Lines 580-590: the methods of a class of the new unit, with their
    source. *)
Definition methods_in_new_class (new_src : string) (node : Ast.stmt)
  : M (list (Ast.stmt * string)) :=
  fold_M (fun acc m_node =>
            if Ast.is_FunctionDef m_node then
              let* method_snippet :=
                _get_node_source_segment_v2 new_src (Ast.NStmt m_node) in
              if truthy method_snippet
              then ret (acc ++ [(m_node, ensure_newline method_snippet)])
              else ret acc
            else ret acc)
         (Ast.body node) [].

(** Lines 562-620: one top-level statement of the new unit. *)
Definition walk_node (new_src mode : string) (p : Pending)
           (node : Ast.stmt) : M Pending :=
  let* node_full_snippet :=
    _get_node_source_segment_v2 new_src (Ast.NStmt node) in
  if negb (truthy node_full_snippet) then ret p
  else
  let node_full_snippet := ensure_newline node_full_snippet in
  if Ast.is_import node then
    if negb (bool_decide (Ast.dump_of node ∈ base_imps_dump_initial p))
    then ret (queue_import p node_full_snippet (Ast.dump_of node))
    else ret p
  else if Ast.is_ClassDef node then
    let* methods := methods_in_new_class new_src node in
    if String.eqb mode "ADD" then
      let* m := get_self in
      match cls_map m !! Ast.name node with
      | None =>
          add_class_or_func node_full_snippet ;;
          ret (record_merged p
                 (map (fun '(m_node, method_snippet) =>
                         mk_ExtractedFunction
                           (Some (Ast.name node))
                           (PyStr (Ast.name m_node))
                           (Some method_snippet) None)
                      (filter (fun '(m_node, _) =>
                                 startswith (Ast.name m_node) "test_")
                              methods)))
      | Some _ => ret (queue_methods_for_add p (Ast.name node) methods)
      end
    else if String.eqb mode "APPEND" then
      ret (queue_methods_for_append p (Ast.name node) methods)
    else ret p
  else if Ast.is_FunctionDef node then
    if String.eqb mode "ADD" then
      let* m := get_self in
      match fn_map m !! Ast.name node with
      | None =>
          add_class_or_func node_full_snippet ;;
          ret (record_merged p
                 [mk_ExtractedFunction None (PyStr (Ast.name node))
                                       (Some node_full_snippet) None])
      | Some _ => ret p
      end
    else if String.eqb mode "APPEND" then
      ret (queue_function_for_append p (Ast.name node) node_full_snippet)
    else ret p
  else ret p.

(** Lines 626-644: the methods queued for the classes that exist.  The
    pairs of [new_methods] hold the node of each method, and it is the
    node that the source looks up in the set of names and stores in
    [func_name]. *)
Definition add_pending_methods (merged : list ExtractedFunction)
           (entry : string * list (Ast.stmt * string))
  : M (list ExtractedFunction) :=
  let '(cls_name, new_methods) := entry in
  let* m := get_self in
  match cls_map m !! cls_name with
  | None => ret merged
  | Some cls_node =>
      let existing_meth_names :=
        map Ast.name (filter (fun m => Ast.is_FunctionDef m)
                             (Ast.body cls_node)) in
      let is_new (name : Ast.stmt) : bool :=
        negb (existsb (py_eq_str (PyNode name)) existing_meth_names) in
      let to_add_snippets :=
        map snd (filter (fun '(name, _) => is_new name) new_methods) in
      match to_add_snippets with
      | [] => ret merged
      | _ =>
          add_methods cls_name to_add_snippets ;;
          ret (set_update py_hash merged
                 (map (fun '(name, method_snippet) =>
                         mk_ExtractedFunction (Some cls_name) (PyNode name)
                                              (Some method_snippet) None)
                      (filter (fun '(name, _) => is_new name) new_methods)))
      end
  end.

(** [try: c except ValueError as e: LOG.error(prefix + str(e)); raise] *)
Definition logging_ValueError {A} (prefix : string) (c : M A) : M A :=
  fun w =>
    match c w with
    | (Raised (ValueError msg), w') =>
        (log ERROR (prefix +:+ msg) ;; raise (ValueError msg)) w'
    | r => r
    end.

(** Lines 650-672: one method of the new unit in APPEND mode. *)
Definition append_method (mapping : gmap string string) (src_cls : string)
           (merged : list ExtractedFunction) (entry : Ast.stmt * string)
  : M (list ExtractedFunction) :=
  let '(src_meth, new_snip) := entry in
  let fq_new := src_cls +:+ "." +:+ Ast.name src_meth in
  match mapping !! fq_new with
  | None =>
      log WARNING ("No map for method '" +:+ fq_new +:+ "'. Skip.") ;;
      ret merged
  | Some target_fq =>
      let bad_format :=
        log WARNING ("Target '" +:+ target_fq +:+ "' for '" +:+ fq_new
                     +:+ "' not 'Cls.meth'. Skip.") ;;
        ret merged in
      match split_dot_once target_fq with
      | None => bad_format
      | Some (tgt_cls, tgt_meth) =>
          if negb (truthy tgt_cls) || negb (truthy tgt_meth)
          then bad_format
          else
            logging_ValueError
              ("Fail append " +:+ fq_new +:+ " to " +:+ target_fq +:+ ": ")
              (append_callable_body tgt_meth new_snip (Some tgt_cls) ;;
               ret (set_add py_hash merged
                      (mk_ExtractedFunction (Some tgt_cls) (PyStr tgt_meth)
                                            None None)))
      end
  end.

(** Lines 674-692: one function of the new unit in APPEND mode. *)
Definition append_function (mapping : gmap string string)
           (merged : list ExtractedFunction) (entry : string * string)
  : M (list ExtractedFunction) :=
  let '(src_func, new_snip) := entry in
  match mapping !! src_func with
  | None =>
      log WARNING ("No map for func '" +:+ src_func +:+ "'. Skip.") ;;
      ret merged
  | Some target_func =>
      if contains "." target_func then
        log WARNING ("Map for func '" +:+ src_func +:+ "' -> '"
                     +:+ target_func +:+ "' (method?). Skip.") ;;
        ret merged
      else
        logging_ValueError
          ("Fail append func '" +:+ src_func +:+ "' to '" +:+ target_func
           +:+ "': ")
          (append_callable_body target_func new_snip None ;;
           ret (set_add py_hash merged
                  (mk_ExtractedFunction None (PyStr target_func)
                                        None None)))
  end.

(** Lines 649-692: the methods, class by class, then the functions. *)
Definition append_methods_loop (mapping : gmap string string)
           (pending : list (string * list (Ast.stmt * string)))
           (merged : list ExtractedFunction) : M (list ExtractedFunction) :=
  fold_M (fun merged '(src_cls, meth_list) =>
            fold_M (append_method mapping src_cls) meth_list merged)
         pending merged.

Definition append_functions_loop (mapping : gmap string string)
           (pending : list (string * string))
           (merged : list ExtractedFunction) : M (list ExtractedFunction) :=
  fold_M (append_function mapping) pending merged.

(** [not mapping]: no dictionary, or an empty one. *)
Definition no_mapping (mapping : option (gmap string string)) : bool :=
  match mapping with
  | None => true
  | Some d => bool_decide (d = ∅)
  end.

(** Lines 554-620: the walk over the top-level statements of the new
    unit. *)
Definition walk (new_src mode : string) (new_tree : list Ast.stmt)
  : M Pending :=
  let* m := get_self in
  let base_imps :=
    map Ast.dump_of (filter (fun n => Ast.is_import n) (tree m)) in
  fold_M (walk_node new_src mode) new_tree
         (mk_Pending base_imps [] [] [] [] []).

(** Lines 622-623 *)
Definition add_queued_imports (p : Pending) : M unit :=
  match new_imports_to_add p with
  | [] => ret tt
  | imports => add_imports imports
  end.

(** Lines 544-623: the merger built, the new unit parsed and walked, the
    queued imports inserted. *)
Definition walk_and_import (new_src base_src mode : string) : M Pending :=
  Merger_init base_src ;;
  match parse new_src with
  | Ast.SyntaxErr e =>
      raise (ValueError ("Invalid syntax in new_src: " +:+ e))
  | Ast.Parsed new_tree =>
      let* p := walk new_src mode new_tree in
      add_queued_imports p ;;
      ret p
  end.

(** [merge_tests] *)
Definition merge_tests (new_src base_src mode : string)
           (mapping : option (gmap string string))
  : M (string * list ExtractedFunction) :=
  let mode := upper mode in
  let* p := walk_and_import new_src base_src mode in
  let* merged :=
    if String.eqb mode "ADD" then
      fold_M add_pending_methods (pending_methods_for_add p)
             (merged_test_funcs p)
    else if String.eqb mode "APPEND" then
      if no_mapping mapping then
        raise (ValueError "--map is required in APPEND mode.")
      else
        let mapping := default ∅ mapping in
        let* merged :=
          append_methods_loop mapping (pending_methods_for_append p)
                              (merged_test_funcs p) in
        append_functions_loop mapping (pending_functions_for_append p)
                              merged
    else if String.eqb mode "FOLD" then
      raise (NotImplementedError "FOLD mode not implemented yet")
    else raise (ValueError ("Unknown test merge mode: " +:+ mode)) in
  let* text := result in
  ret (text, merged).

End Merge.

(** The world before [merge_tests] builds its merger: nothing logged. *)
Definition world0 : World := mk_World (mk_Merger [] [] ∅ ∅) [] [].

(* ------------------------------------------------------------------------- *)
(** ** Recorded parses

    The sources that the examples below run the merger on, each with the
    tree that [ast.parse] gives for it (CPython 3.11: a decorated function
    has the line of its [def] as [lineno]).  [recorded_parse] is [ast.parse]
    on these sources; a source that is not recorded is answered by the
    error [not recorded], which no example relies on. *)

Module Recorded.

(** Lines, each ended by a newline. *)
Definition text (ls : list string) : string :=
  concat (map (fun l => l +:+ nl) ls).

Definition helper_base_src : string :=
  text ["def helper(x):"; "    return x"].
Definition helper_base_ast : list Ast.stmt :=
  [Ast.FunctionDef "helper" (Ast.mk_arguments [] ["x"] None [] None)
     [Ast.Stmt "Return" 2 2]
     [] 1 2 0].

Definition helper_new_src : string :=
  text ["def helper(x):"; "    return x + 1"].
Definition helper_new_ast : list Ast.stmt :=
  [Ast.FunctionDef "helper" (Ast.mk_arguments [] ["x"] None [] None)
     [Ast.Stmt "Return" 2 2]
     [] 1 2 0].

Definition helper_merged_src : string :=
  text ["def helper(x):"; "    return x"; ""; "    return x + 1"].
Definition helper_merged_ast : list Ast.stmt :=
  [Ast.FunctionDef "helper" (Ast.mk_arguments [] ["x"] None [] None)
     [Ast.Stmt "Return" 2 2;
      Ast.Stmt "Return" 4 4]
     [] 1 4 0].

Definition testfoo_src : string :=
  text ["class TestFoo:"; "    def test_a(self):"; "        pass"].
Definition testfoo_ast : list Ast.stmt :=
  [Ast.ClassDef "TestFoo"
     [Ast.FunctionDef "test_a" (Ast.mk_arguments [] ["self"] None [] None)
        [Ast.Stmt "Pass" 3 3]
        [] 2 3 4]
     [] 1 3].

Definition testfoo_once_src : string :=
  text ["class TestFoo:"; "    def test_a(self):"; "        pass"; "";
        "    def test_a(self):"; "        pass"].
Definition testfoo_once_ast : list Ast.stmt :=
  [Ast.ClassDef "TestFoo"
     [Ast.FunctionDef "test_a" (Ast.mk_arguments [] ["self"] None [] None)
        [Ast.Stmt "Pass" 3 3]
        [] 2 3 4;
      Ast.FunctionDef "test_a" (Ast.mk_arguments [] ["self"] None [] None)
       [Ast.Stmt "Pass" 6 6]
       [] 5 6 4]
     [] 1 6].

Definition testfoo_twice_src : string :=
  text ["class TestFoo:"; "    def test_a(self):"; "        pass"; "";
        "    def test_a(self):"; "        pass"; "";
        "    def test_a(self):"; "        pass"].
Definition testfoo_twice_ast : list Ast.stmt :=
  [Ast.ClassDef "TestFoo"
     [Ast.FunctionDef "test_a" (Ast.mk_arguments [] ["self"] None [] None)
        [Ast.Stmt "Pass" 3 3]
        [] 2 3 4;
      Ast.FunctionDef "test_a" (Ast.mk_arguments [] ["self"] None [] None)
       [Ast.Stmt "Pass" 6 6]
       [] 5 6 4;
      Ast.FunctionDef "test_a" (Ast.mk_arguments [] ["self"] None [] None)
       [Ast.Stmt "Pass" 9 9]
       [] 8 9 4]
     [] 1 9].

Definition import_os_src : string :=
  text ["import os"].
Definition import_os_ast : list Ast.stmt :=
  [Ast.Import "Import(names=[alias(name='os')])" 1 1].

Definition deco_base_src : string :=
  text ["@a"; "def f():"; "    pass"].
Definition deco_base_ast : list Ast.stmt :=
  [Ast.FunctionDef "f" (Ast.mk_arguments [] [] None [] None)
     [Ast.Stmt "Pass" 3 3]
     [(Ast.mk_expr "Name" 1 1)] 2 3 0].

Definition deco_new_src : string :=
  text ["@b"; "def f():"; "    pass"].
Definition deco_new_ast : list Ast.stmt :=
  [Ast.FunctionDef "f" (Ast.mk_arguments [] [] None [] None)
     [Ast.Stmt "Pass" 3 3]
     [(Ast.mk_expr "Name" 1 1)] 2 3 0].

Definition deco_mid_src : string :=
  text ["@a"; "@b"; "def f():"; "    pass"].
Definition deco_mid_ast : list Ast.stmt :=
  [Ast.FunctionDef "f" (Ast.mk_arguments [] [] None [] None)
     [Ast.Stmt "Pass" 4 4]
     [(Ast.mk_expr "Name" 1 1); (Ast.mk_expr "Name" 2 2)] 3 4 0].

Definition deco_merged_src : string :=
  text ["@a"; "@b"; "def f():"; "    pass"; ""; "    pass"].
Definition deco_merged_ast : list Ast.stmt :=
  [Ast.FunctionDef "f" (Ast.mk_arguments [] [] None [] None)
     [Ast.Stmt "Pass" 4 4;
      Ast.Stmt "Pass" 6 6]
     [(Ast.mk_expr "Name" 1 1); (Ast.mk_expr "Name" 2 2)] 3 6 0].

Definition unit_f_src : string :=
  text ["import os"; "def f():"; "    pass"].
Definition unit_f_ast : list Ast.stmt :=
  [Ast.Import "Import(names=[alias(name='os')])" 1 1;
   Ast.FunctionDef "f" (Ast.mk_arguments [] [] None [] None)
    [Ast.Stmt "Pass" 3 3]
    [] 2 3 0].

Definition func_f_src : string :=
  text ["def f():"; "    pass"].
Definition func_f_ast : list Ast.stmt :=
  [Ast.FunctionDef "f" (Ast.mk_arguments [] [] None [] None)
     [Ast.Stmt "Pass" 2 2]
     [] 1 2 0].

Definition case_base_src : string :=
  text ["class Test:"; "    def case(self, a):"; "        pass"].
Definition case_base_ast : list Ast.stmt :=
  [Ast.ClassDef "Test"
     [Ast.FunctionDef "case" (Ast.mk_arguments [] ["self"; "a"] None [] None)
        [Ast.Stmt "Pass" 3 3]
        [] 2 3 4]
     [] 1 3].

Definition case_new_src : string :=
  text ["class Test:"; "    def case(self, b):"; "        pass"].
Definition case_new_ast : list Ast.stmt :=
  [Ast.ClassDef "Test"
     [Ast.FunctionDef "case" (Ast.mk_arguments [] ["self"; "b"] None [] None)
        [Ast.Stmt "Pass" 3 3]
        [] 2 3 4]
     [] 1 3].

Definition case_new_method_src : string :=
  text ["def case(self, b):"; "    pass"].
Definition case_new_method_ast : list Ast.stmt :=
  [Ast.FunctionDef "case" (Ast.mk_arguments [] ["self"; "b"] None [] None)
     [Ast.Stmt "Pass" 2 2]
     [] 1 2 0].

Definition oneline_base_src : string :=
  text ["class T:"; "    def m(self): pass"].
Definition oneline_base_ast : list Ast.stmt :=
  [Ast.ClassDef "T"
     [Ast.FunctionDef "m" (Ast.mk_arguments [] ["self"] None [] None)
        [Ast.Stmt "Pass" 2 2]
        [] 2 2 4]
     [] 1 2].

Definition oneline_new_src : string :=
  text ["def m(self):"; "    x = 1"].
Definition oneline_new_ast : list Ast.stmt :=
  [Ast.FunctionDef "m" (Ast.mk_arguments [] ["self"] None [] None)
     [Ast.Stmt "Assign" 2 2]
     [] 1 2 0].

Definition oneline_merged_src : string :=
  text ["class T:"; "    def m(self): pass"; ""; "    x = 1"].
Definition oneline_merged_ast : list Ast.stmt :=
  [Ast.ClassDef "T"
     [Ast.FunctionDef "m" (Ast.mk_arguments [] ["self"] None [] None)
        [Ast.Stmt "Pass" 2 2]
        [] 2 2 4;
      Ast.Stmt "Assign" 4 4]
     [] 1 4].

Definition noted_base_src : string :=
  text ["@a  # note"; "def f():"; "    pass"].
Definition noted_base_ast : list Ast.stmt :=
  [Ast.FunctionDef "f" (Ast.mk_arguments [] [] None [] None)
     [Ast.Stmt "Pass" 3 3]
     [(Ast.mk_expr "Name" 1 1)] 2 3 0].

Definition noted_new_src : string :=
  text ["@a"; "def f():"; "    pass"].
Definition noted_new_ast : list Ast.stmt :=
  [Ast.FunctionDef "f" (Ast.mk_arguments [] [] None [] None)
     [Ast.Stmt "Pass" 3 3]
     [(Ast.mk_expr "Name" 1 1)] 2 3 0].

Definition noted_mid_src : string :=
  text ["@a  # note"; "@a"; "def f():"; "    pass"].
Definition noted_mid_ast : list Ast.stmt :=
  [Ast.FunctionDef "f" (Ast.mk_arguments [] [] None [] None)
     [Ast.Stmt "Pass" 4 4]
     [(Ast.mk_expr "Name" 1 1); (Ast.mk_expr "Name" 2 2)] 3 4 0].

Definition noted_merged_src : string :=
  text ["@a  # note"; "@a"; "def f():"; "    pass"; ""; "    pass"].
Definition noted_merged_ast : list Ast.stmt :=
  [Ast.FunctionDef "f" (Ast.mk_arguments [] [] None [] None)
     [Ast.Stmt "Pass" 4 4;
      Ast.Stmt "Pass" 6 6]
     [(Ast.mk_expr "Name" 1 1); (Ast.mk_expr "Name" 2 2)] 3 6 0].

Definition table : list (string * list Ast.stmt) :=
  [(helper_base_src, helper_base_ast);
   (helper_new_src, helper_new_ast);
   (helper_merged_src, helper_merged_ast);
   (testfoo_src, testfoo_ast);
   (testfoo_once_src, testfoo_once_ast);
   (testfoo_twice_src, testfoo_twice_ast);
   (import_os_src, import_os_ast);
   (deco_base_src, deco_base_ast);
   (deco_new_src, deco_new_ast);
   (deco_mid_src, deco_mid_ast);
   (deco_merged_src, deco_merged_ast);
   (unit_f_src, unit_f_ast);
   (func_f_src, func_f_ast);
   (case_base_src, case_base_ast);
   (case_new_src, case_new_ast);
   (case_new_method_src, case_new_method_ast);
   (oneline_base_src, oneline_base_ast);
   (oneline_new_src, oneline_new_ast);
   (oneline_merged_src, oneline_merged_ast);
   (noted_base_src, noted_base_ast);
   (noted_new_src, noted_new_ast);
   (noted_mid_src, noted_mid_ast);
   (noted_merged_src, noted_merged_ast)].

Definition recorded_parse (src : string) : Ast.parse_result :=
  match PyDict.lookup src table with
  | Some t => Ast.Parsed t
  | None => Ast.SyntaxErr "not recorded"
  end.

(** A hash for the examples: the names of the pair, read as one text; a
    node by its line. *)
Definition names_hash (p : option string * pyval) : Z :=
  let text_of (s : string) : Z :=
    fold_left (fun h c => h * 257 + Z.of_nat (nat_of_ascii c) + 1)
              (list_ascii_of_string s) 0 in
  match p with
  | (None, PyStr f) => 2 * text_of f
  | (Some c, PyStr f) => 2 * text_of (c +:+ "." +:+ f) + 1
  | (None, PyNode n) => - (2 * Ast.lineno n) - 1
  | (Some c, PyNode n) => - (2 * (text_of c * 1000003 + Ast.lineno n)) - 2
  end.

End Recorded.

(* ------------------------------------------------------------------------- *)
(** ** The notions of the specification *)

(** The five components of a signature, in the order of comparison. *)
Inductive component : Type :=
| PositionalOnly
| Positional
| VariadicPositional
| KeywordOnly
| VariadicKeyword.

(** The signature of a callable: the five components. *)
Definition signature (a : Ast.arguments)
  : list string * list string * option string * list string * option string :=
  (Ast.posonlyargs a, Ast.args a, Ast.vararg a, Ast.kwonlyargs a,
   Ast.kwarg a).

Definition differ_at (c : component) (a b : Ast.arguments) : Prop :=
  match c with
  | PositionalOnly => Ast.posonlyargs a <> Ast.posonlyargs b
  | Positional => Ast.args a <> Ast.args b
  | VariadicPositional => Ast.vararg a <> Ast.vararg b
  | KeywordOnly => Ast.kwonlyargs a <> Ast.kwonlyargs b
  | VariadicKeyword => Ast.kwarg a <> Ast.kwarg b
  end.

(** The components compared before a component. *)
Definition earlier (c : component) : list component :=
  match c with
  | PositionalOnly => []
  | Positional => [PositionalOnly]
  | VariadicPositional => [PositionalOnly; Positional]
  | KeywordOnly => [PositionalOnly; Positional; VariadicPositional]
  | VariadicKeyword =>
      [PositionalOnly; Positional; VariadicPositional; KeywordOnly]
  end.

(** [c] is the first component on which the two signatures differ. *)
Definition first_difference (c : component) (a b : Ast.arguments) : Prop :=
  differ_at c a b /\ Forall (fun d => ~ differ_at d a b) (earlier c).

(** The reason that names a component and its two values. *)
Definition difference_text (c : component) (a b : Ast.arguments) : string :=
  match c with
  | PositionalOnly =>
      "Positional-only arguments differ: " +:+ repr_names (Ast.posonlyargs a)
      +:+ " vs " +:+ repr_names (Ast.posonlyargs b)
  | Positional =>
      "Positional arguments differ: " +:+ repr_names (Ast.args a)
      +:+ " vs " +:+ repr_names (Ast.args b)
  | VariadicPositional =>
      "*args differ: '" +:+ str_opt (Ast.vararg a) +:+ "' vs '"
      +:+ str_opt (Ast.vararg b) +:+ "'"
  | KeywordOnly =>
      "Keyword-only arguments differ: " +:+ repr_names (Ast.kwonlyargs a)
      +:+ " vs " +:+ repr_names (Ast.kwonlyargs b)
  | VariadicKeyword =>
      "**kwargs differ: '" +:+ str_opt (Ast.kwarg a) +:+ "' vs '"
      +:+ str_opt (Ast.kwarg b) +:+ "'"
  end.

(** A text of whitespace only. *)
Fixpoint all_space (s : string) : bool :=
  match s with
  | EmptyString => true
  | String c r => is_space c && all_space r
  end.

(** The world [w] with records added to its log. *)
Definition logged (w : World) (l : list log_record) : World :=
  mk_World (self w) (LOG w ++ l) (history w).

(** The examples: worlds and snippets. *)
Module Examples.
Import Recorded.

(** The merger built on a recorded base. *)
Definition merger_on (base_src : string) : World :=
  snd (Merger_init recorded_parse base_src world0).

(** The method of [case_new_src], as [merge_tests] cuts it out. *)
Definition case_method_snippet : string :=
  text ["    def case(self, b):"; "        pass"].

Definition case_target : Ast.stmt :=
  Ast.FunctionDef "case" (Ast.mk_arguments [] ["self"; "a"] None [] None)
                  [Ast.Stmt "Pass" 3 3] [] 2 3 4.

Definition case_new : Ast.stmt :=
  Ast.FunctionDef "case" (Ast.mk_arguments [] ["self"; "b"] None [] None)
                  [Ast.Stmt "Pass" 2 2] [] 1 2 0.

End Examples.

(** The world after [splice op ls pos payload] in [w]. *)
Definition spliced (w : World) (op : operation) (ls : list string)
           (pos : Z) (payload : list string) : World :=
  mk_World (mk_Merger (_splice ls pos payload) (tree (self w))
                      (cls_map (self w)) (fn_map (self w)))
           (LOG w) (history w ++ [mk_event op pos payload]).

(** A computation that returns and writes to the log only. *)
Definition log_only {A} (c : M A) : Prop :=
  forall w, exists a l, c w = (Returned a, logged w l).

(** The error of APPEND mode without a mapping. *)
Definition MissingMapping : exn :=
  ValueError "--map is required in APPEND mode.".

(** The qualified name of a method of the new unit: [Class.method]. *)
Definition qualified (src_cls : string) (src_meth : Ast.stmt) : string :=
  src_cls +:+ "." +:+ Ast.name src_meth.

(** A mapped target of the shape [Class.method]: a dot, with something on
    both sides of the first one. *)
Definition method_target (target_fq : string) : option (string * string) :=
  match split_dot_once target_fq with
  | Some (c, m) => if truthy c && truthy m then Some (c, m) else None
  | None => None
  end.

(** The target callable is missing from the index of the merger. *)
Definition target_missing (target_name : string) (cls : option string)
           (m : Merger) : Prop :=
  match cls with
  | Some c =>
      match cls_map m !! c with
      | None => True
      | Some n => find_method n target_name = None
      end
  | None => fn_map m !! target_name = None
  end.

(** The target resolves, the snippet parses to a function, and the two
    signatures differ. *)
Definition signature_mismatch (parse : string -> Ast.parse_result)
           (target_name snippet : string) (cls : option string) (w : World)
  : Prop :=
  exists t n rest,
    resolve_target target_name cls w = (Returned t, w) /\
    parse (dedent snippet) = Ast.Parsed (n :: rest) /\
    Ast.is_FunctionDef n = true /\
    signature (Ast.arguments_of n) <> signature (Ast.arguments_of t).

(** The two fatal cases of a resolvable entry. *)
Definition found_but_incompatible (parse : string -> Ast.parse_result)
           (target_name snippet : string) (cls : option string) (w : World)
  : Prop :=
  target_missing target_name cls (self w)
  \/ signature_mismatch parse target_name snippet cls w.

Module MappingExamples.
Import Recorded.

(** The method of [case_new_src], as the walk queues it. *)
Definition case_new_method : Ast.stmt :=
  Ast.FunctionDef "case" (Ast.mk_arguments [] ["self"; "b"] None [] None)
                  [Ast.Stmt "Pass" 3 3] [] 2 3 4.

(** A mapping for it, and one that has no entry for it. *)
Definition case_mapping : gmap string string :=
  {["Test.case" := "Test.case"]}.

Definition other_mapping : gmap string string :=
  {["Test.other" := "Test.case"]}.

(** The methods that the walk of [case_new_src] queues for APPEND. *)
Definition case_pending : list (string * list (Ast.stmt * string)) :=
  [("Test", [(case_new_method, text ["    def case(self, b):";
                                     "        pass"])])].

(** The merger on [case_base_src]. *)
Definition case_world : World :=
  snd (Merger_init recorded_parse case_base_src world0).

End MappingExamples.

(** *** The order of the insertions *)

(** What [_get_node_source_segment_v2] returns. *)
Definition segment_text (src : string) (n : Ast.node) : string :=
  if negb (truthy (source_segment src n)) then ""
  else rstrip (source_segment src n).

(** The text of a class or function of the new unit, as ADD mode appends
    it to the file. *)
Definition node_snippet (new_src : string) (n : Ast.stmt) : string :=
  ensure_newline (ensure_newline (segment_text new_src (Ast.NStmt n))).

(** The splice that appends the whole class or function [n]. *)
Definition whole_insertion (new_src : string) (n : Ast.stmt)
           (e : splice_event) : Prop :=
  (Ast.is_ClassDef n = true \/ Ast.is_FunctionDef n = true) /\
  ev_op e = OpAddClassOrFunc /\
  exists prefix, ev_payload e = [prefix +:+ node_snippet new_src n].

Definition is_imports (e : splice_event) : Prop :=
  ev_op e = OpAddImports.

Definition is_added_methods (e : splice_event) : Prop :=
  exists c, ev_op e = OpAddMethods c.

(** A splice of [append_callable_body] on the target [name] of [cls]. *)
Definition is_append_on (name : string) (cls : option string)
           (e : splice_event) : Prop :=
  ev_op e = OpDecorators name cls \/ ev_op e = OpBody name cls.

Definition is_method_append (e : splice_event) : Prop :=
  exists name c, is_append_on name (Some c) e.

Definition is_function_append (e : splice_event) : Prop :=
  exists name, is_append_on name None e.

(** The splices of the walk: whole classes and functions of the new unit,
    in the order of the new unit; none outside ADD mode. *)
Definition walk_events (mode new_src : string) (new_tree : list Ast.stmt)
           (hs : list splice_event) : Prop :=
  (exists ns, sublist ns new_tree /\ Forall2 (whole_insertion new_src) ns hs)
  /\ (mode <> "ADD" -> hs = []).

(** The splices after the imports, by mode. *)
Definition late_events (mode : string) (hs : list splice_event) : Prop :=
  (mode = "ADD" -> Forall is_added_methods hs)
  /\ (mode = "APPEND" ->
      exists hm hf, hs = hm ++ hf /\ Forall is_method_append hm
                    /\ Forall is_function_append hf)
  /\ (mode <> "ADD" -> mode <> "APPEND" -> hs = []).

(** The splices of one merge, in the order in which they are done. *)
Definition merge_order (mode new_src : string) (new_tree : list Ast.stmt)
           (hs : list splice_event) : Prop :=
  exists h_walk h_imports h_late,
    hs = h_walk ++ h_imports ++ h_late /\
    walk_events mode new_src new_tree h_walk /\
    (length h_imports <= 1)%nat /\ Forall is_imports h_imports /\
    late_events mode h_late.

(** A class or function of the new unit that has a text and that the
    merger lacks: no class, or no function, of the file has its name. *)
Definition lacked_by (m : Merger) (new_src : string) (n : Ast.stmt) : bool :=
  truthy (segment_text new_src (Ast.NStmt n))
  && ((Ast.is_ClassDef n && bool_decide (cls_map m !! Ast.name n = None))
      || (Ast.is_FunctionDef n
          && bool_decide (fn_map m !! Ast.name n = None))).

(** The splices of one statement of the walk, met when the merger is [m]:
    in ADD mode a class or function that the merger lacks is appended,
    whole, at the end of the file; nothing else is spliced. *)
Definition walk_step (mode new_src : string) (m : Merger) (n : Ast.stmt)
           (hs : list splice_event) : Prop :=
  if String.eqb mode "ADD" && lacked_by m new_src n
  then exists e, hs = [e] /\ whole_insertion new_src n e
                 /\ ev_pos e = Z.of_nat (length (lines m))
  else hs = [].

(** The splices of the queued imports: all of them in one splice, none
    when nothing is queued. *)
Definition imports_step (queued : list string) (hs : list splice_event)
  : Prop :=
  match queued with
  | [] => hs = []
  | _ => exists e, hs = [e] /\ ev_op e = OpAddImports
                   /\ ev_payload e = queued
  end.

(** A computation whose splices satisfy [P], however it ends. *)
Definition emits_list {A} (P : list splice_event -> Prop) (c : M A) : Prop :=
  forall w, exists hs, history (snd (c w)) = history w ++ hs /\ P hs.

(** A computation all of whose splices satisfy [R]. *)
Definition emits {A} (R : splice_event -> Prop) (c : M A) : Prop :=
  emits_list (Forall R) c.

(** A computation that splices nothing. *)
Definition silent {A} (c : M A) : Prop :=
  emits_list (fun hs => hs = []) c.

(** *** The decorators *)








(** In a history, every splice of imports comes before every splice of a
    whole class or function. *)
Definition imports_first (hs : list splice_event) : Prop :=
  forall i j ei ej,
    hs !! i = Some ei -> hs !! j = Some ej ->
    ev_op ei = OpAddImports -> ev_op ej = OpAddClassOrFunc ->
    (i < j)%nat.

Module DecoratorExample.
Import Recorded.



Definition before : World :=
  snd (Merger_init recorded_parse deco_base_src world0).

Definition after : World :=
  snd (append_callable_body recorded_parse "f" deco_new_src None before).

(** The same target with a comment after its decorator [a], and a new
    callable decorated by [a]. *)
Definition noted_before : World :=
  snd (Merger_init recorded_parse noted_base_src world0).

Definition noted_after : World :=
  snd (append_callable_body recorded_parse "f" noted_new_src None
                            noted_before).

End DecoratorExample.

(** *** The appended body *)

(** A text that is empty or ends with a newline. *)
Definition nl_terminated (s : string) : Prop :=
  s = "" \/ endswith s nl = true.

(** The index at which [_splice] inserts, for a position [k]. *)
Definition splice_index (ls : list string) (k : Z) : nat :=
  Z.to_nat (Z.max 0 (Z.min k (Z.of_nat (length ls)))).

(** The separator before an appended body: an empty line, or nothing when
    the line before the insertion point is blank. *)
Definition separator (ls : list string) (k : Z) : string :=
  if PyList.in_range ls (k - 1) then
    if negb (truthy (strip (PyList.at_ ls (k - 1)))) then "" else nl
  else nl.

(** The text of the body of a callable in a buffer: the lines from its first
    statement to the end of its last statement. *)
Definition body_text (ls : list string) (t : Ast.stmt) : string :=
  match Ast.body t, last (Ast.body t) with
  | first_stmt :: _, Some last_stmt =>
      concat (PyList.slice ls (Ast.lineno first_stmt - 1)
                           (Ast.end_lineno last_stmt))
  | _, _ => ""
  end.

(** The lines of the body of a callable: the line of its first statement
    and the end line of its last. *)
Definition body_span (t : Ast.stmt) : option (Z * Z) :=
  match Ast.body t, last (Ast.body t) with
  | first_stmt :: _, Some last_stmt =>
      Some (Ast.lineno first_stmt, Ast.end_lineno last_stmt)
  | _, _ => None
  end.

(** A line as the buffer holds it: one line of text, ended by a newline
    (alone or after a carriage return). *)
Definition is_line (l : string) : Prop :=
  splitlines_keepends l = [l] /\ endswith l nl = true.

(** What the specification says of an append: the body of the target after
    the merge is its body before the merge followed by the statements of
    the new callable, dedented and put at the indentation of the target's
    body. *)
Definition body_extended_by (before after : list string)
           (t_before t_after : Ast.stmt) (statements indent : string)
  : Prop :=
  body_text after t_after
  = body_text before t_before +:+ _reindent statements indent.

Module BodyExample.
Import Recorded.

(** Scenario 3 of the specification: [helper] appended to [helper]. *)
Definition helper_before : World :=
  snd (Merger_init recorded_parse helper_base_src world0).

Definition helper_after : World :=
  snd (append_callable_body recorded_parse "helper" helper_new_src None
                            helper_before).

Definition helper_target : Ast.stmt :=
  Ast.FunctionDef "helper" (Ast.mk_arguments [] ["x"] None [] None)
                  [Ast.Stmt "Return" 2 2] [] 1 2 0.

Definition helper_new : Ast.stmt :=
  Ast.FunctionDef "helper" (Ast.mk_arguments [] ["x"] None [] None)
                  [Ast.Stmt "Return" 2 2] [] 1 2 0.

Definition helper_merged : Ast.stmt :=
  Ast.FunctionDef "helper" (Ast.mk_arguments [] ["x"] None [] None)
                  [Ast.Stmt "Return" 2 2; Ast.Stmt "Return" 4 4] [] 1 4 0.

(** A method whose body is on the line of its [def]. *)
Definition oneline_before : World :=
  snd (Merger_init recorded_parse oneline_base_src world0).

Definition oneline_after : World :=
  snd (append_callable_body recorded_parse "m" oneline_new_src (Some "T")
                            oneline_before).

Definition oneline_method : Ast.stmt :=
  Ast.FunctionDef "m" (Ast.mk_arguments [] ["self"] None [] None)
                  [Ast.Stmt "Pass" 2 2] [] 2 2 4.

Definition oneline_class_after : Ast.stmt :=
  Ast.ClassDef "T" [oneline_method; Ast.Stmt "Assign" 4 4] [] 1 4.

End BodyExample.

(** The text that a call of [merge_tests] returns. *)
Definition merged_text {A} (r : outcome (string * A) * World)
  : option string :=
  match fst r with
  | Returned (text, _) => Some text
  | Raised _ => None
  end.

(* ------------------------------------------------------------------------- *)
(** ** Further notions: the operations of the merger on the text *)

(** The text of the buffer: what [Merger.result] returns. *)
Definition text_of (w : World) : string := concat (lines (self w)).

(** The separator of [add_class_or_func]: an empty line, or nothing at the
    start of the file and after a blank line. *)
Definition end_separator (ls : list string) : string :=
  match last ls with
  | None => ""
  | Some l =>
      if String.eqb (strip l) "" || endswith l (nl +:+ nl) then "" else nl
  end.

(** Where [add_methods] inserts: after the last member of the class, or
    after its header when it has no member. *)
Definition methods_index (cls_node : Ast.stmt) : Z :=
  match last (Ast.body cls_node) with
  | Some last_member => Ast.end_lineno last_member
  | None => Ast.lineno cls_node
  end.

(** The separator of [add_methods]. *)
Definition methods_separator (ls : list string) (idx : Z) : list string :=
  if PyList.in_range ls (idx - 1) then
    if truthy (strip (PyList.at_ ls (idx - 1))) then [nl] else []
  else
    match ls with
    | [] => []
    | _ => [nl]
    end.

(** The indentation of the methods that [add_methods] inserts. *)
Definition methods_indent (ls : list string) (cls_node : Ast.stmt) : string :=
  one_level (indent_of_line ls (Ast.lineno cls_node - 1)).

(** The index of a merger is that of its text: the text is blank and the
    index is empty, or the tree is the parse of the text and the two maps
    are the ones that [_index] builds from the tree. *)
Definition indexed (parse : string -> Ast.parse_result) (m : Merger) : Prop :=
  (truthy (strip (concat (lines m))) = false
   /\ tree m = [] /\ cls_map m = ∅ /\ fn_map m = ∅)
  \/ (parse (concat (lines m)) = Ast.Parsed (tree m)
      /\ cls_map m = snd (fst (_index (tree m)))
      /\ fn_map m = snd (_index (tree m))).

(** A text that is blank or ends with a newline. *)
Definition newline_ended (m : Merger) : Prop :=
  truthy (strip (concat (lines m))) = false
  \/ endswith (concat (lines m)) nl = true.

Definition consistent (parse : string -> Ast.parse_result) (m : Merger)
  : Prop :=
  indexed parse m /\ newline_ended m.

(** A computation that returns only in a merger that has [P], when it
    started in one ([keeps]) or wherever it started ([establishes]). *)
Definition keeps {A} (P : Merger -> Prop) (c : M A) : Prop :=
  forall w a w', P (self w) -> c w = (Returned a, w') -> P (self w').

Definition establishes {A} (P : Merger -> Prop) (c : M A) : Prop :=
  forall w a w', c w = (Returned a, w') -> P (self w').

(** The record of a re-parse that failed. *)
Definition reparse_error (e : string) : log_record :=
  mk_log ERROR
         ("Syntax error while re-parsing source after modification: " +:+ e).

(** More recorded parses (CPython 3.11), and two sources that the parser
    refuses, with the text of its error. *)
Module MoreRecorded.
Import Recorded.

Definition os_then_f_src : string :=
  text ["import os"; ""; "def f():"; "    pass"].
Definition os_then_f_ast : list Ast.stmt :=
  [Ast.Import "Import(names=[alias(name='os')])" 1 1;
   Ast.FunctionDef "f" (Ast.mk_arguments [] [] None [] None)
    [Ast.Stmt "Pass" 4 4]
    [] 3 4 0].

Definition unit_f_sys_src : string :=
  text ["import os"; "import sys"; "def f():"; "    pass"].
Definition unit_f_sys_ast : list Ast.stmt :=
  [Ast.Import "Import(names=[alias(name='os')])" 1 1;
   Ast.Import "Import(names=[alias(name='sys')])" 2 2;
   Ast.FunctionDef "f" (Ast.mk_arguments [] [] None [] None)
    [Ast.Stmt "Pass" 4 4]
    [] 3 4 0].

Definition bad_def_src : string := text ["def f(:"].
Definition os_then_bad_def_src : string :=
  text ["import os"; ""; "def f(:"].

Definition parsed : list (string * list Ast.stmt) :=
  [(os_then_f_src, os_then_f_ast);
   (unit_f_sys_src, unit_f_sys_ast)].

Definition refused : list (string * string) :=
  [(bad_def_src, "invalid syntax (<unknown>, line 1)");
   (os_then_bad_def_src, "invalid syntax (<unknown>, line 3)")].

Definition more_parse (src : string) : Ast.parse_result :=
  match PyDict.lookup src parsed, PyDict.lookup src refused with
  | Some t, _ => Ast.Parsed t
  | None, Some e => Ast.SyntaxErr e
  | None, None => recorded_parse src
  end.

(** The merger built on a base. *)
Definition merger_on (base_src : string) : World :=
  snd (Merger_init more_parse base_src world0).

End MoreRecorded.

(** A top-level statement of the new unit that brings nothing to the
    merger [m] in ADD mode: an import that [m] has (by its dump), a
    function whose name [m] has, or a statement that is no import, class or
    function. *)
Definition already_there (m : Merger) (node : Ast.stmt) : Prop :=
  if Ast.is_import node then
    Ast.dump_of node ∈ map Ast.dump_of
                          (filter (fun n => Ast.is_import n) (tree m))
  else
    Ast.is_ClassDef node = false
    /\ (Ast.is_FunctionDef node = true ->
        is_Some (fn_map m !! Ast.name node)).

(** A text of ASCII characters: on such a text [upper] is [str.upper]. *)
Fixpoint ascii_only (s : string) : bool :=
  match s with
  | EmptyString => true
  | String c r => (nat_of_ascii c <? 128)%nat && ascii_only r
  end.

(** The error of a mode that is neither ADD nor APPEND; [mode] is the mode
    in upper case. *)
Definition mode_error (mode : string) : exn :=
  if String.eqb mode "FOLD"
  then NotImplementedError "FOLD mode not implemented yet"
  else ValueError ("Unknown test merge mode: " +:+ mode).

(* ------------------------------------------------------------------------- *)
(** ** [extract_names] ([approach/utils/test_extractor.py])

    [NameExtractor] is an [ast.NodeVisitor] with a method for [ClassDef]
    and one for [FunctionDef]; every other node ([Module], the other
    statements, [AsyncFunctionDef], the expressions) goes to
    [generic_visit], which visits the child nodes in the order of
    [ast.iter_child_nodes].  A node of the tree is therefore a class, a
    function, or another node, with its child nodes in that order.  The
    nodes that [ast.parse] builds have [end_lineno], so the branch of the
    two methods that computes it is not taken. *)

Module Extractor.

#[warnings="-register-all"]
Inductive node : Type :=
| ClassDef (name : string) (lineno end_lineno : Z) (children : list node)
| FunctionDef (name : string) (lineno end_lineno : Z) (children : list node)
| Other (children : list node).

(** [ast.parse(file_content)] *)
Inductive parse_result : Type :=
| Parsed (tree : node)
| SyntaxErr (msg : string).

(** The three [nonlocal] variables of the visitor. *)
Record locals : Type := mk_locals {
  class_name : option string;
  method_name : option string;
  function_definition : option string
}.

(** [NameExtractor.visit], with [visit_ClassDef], [visit_FunctionDef] and
    [generic_visit]. *)
Fixpoint visit (line : Z) (file_lines : list string) (n : node)
         (st : locals) : locals :=
  match n with
  | ClassDef name lineno end_lineno children =>
      if (lineno <=? line) && (line <=? end_lineno) then
        fold_left (fun st child => visit line file_lines child st) children
                  (mk_locals (Some name) (method_name st)
                             (function_definition st))
      else st
  | FunctionDef name lineno end_lineno children =>
      if (lineno <=? line) && (line <=? end_lineno) then
        let start_idx := lineno - 1 in
        let end_idx := end_lineno in
        let function_lines := PyList.slice file_lines start_idx end_idx in
        fold_left (fun st child => visit line file_lines child st) children
                  (mk_locals (class_name st) (Some name)
                             (Some (join nl function_lines)))
      else st
  | Other children =>
      fold_left (fun st child => visit line file_lines child st) children st
  end.

(** [extract_names] *)
Definition extract_names (parse : string -> parse_result) (line : Z)
           (file_content : string) (file_path : option string)
  : outcome ExtractedFunction :=
  match parse file_content with
  | SyntaxErr e => Raised (SyntaxError e)
  | Parsed tree =>
      let file_lines := splitlines file_content in
      let st := visit line file_lines tree (mk_locals None None None) in
      match method_name st with
      | None =>
          Raised (ValueError
                    ("Could not find a method definition at line "
                     +:+ of_Z line +:+ " in the provided file content"))
      | Some m =>
          Returned (mk_ExtractedFunction (class_name st) (PyStr m)
                                         (function_definition st) file_path)
      end
  end.

(** *** Notions for the properties *)

Definition children_of (n : node) : list node :=
  match n with
  | ClassDef _ _ _ ch | FunctionDef _ _ _ ch | Other ch => ch
  end.

Definition is_class (n : node) : bool :=
  match n with ClassDef _ _ _ _ => true | _ => false end.

Definition is_function (n : node) : bool :=
  match n with FunctionDef _ _ _ _ => true | _ => false end.

Definition name_of (n : node) : string :=
  match n with
  | ClassDef name _ _ _ | FunctionDef name _ _ _ => name
  | Other _ => ""
  end.

Definition first_line (n : node) : Z :=
  match n with
  | ClassDef _ lineno _ _ | FunctionDef _ lineno _ _ => lineno
  | Other _ => 0
  end.

Definition last_line (n : node) : Z :=
  match n with
  | ClassDef _ _ end_lineno _ | FunctionDef _ _ end_lineno _ => end_lineno
  | Other _ => 0
  end.

(** A class or a function whose lines include [line]. *)
Definition spans (line : Z) (n : node) : bool :=
  (is_class n || is_function n)
  && (first_line n <=? line) && (line <=? last_line n).

(** [d] is [n] or a node below it. *)
Inductive descendant : node -> node -> Prop :=
| descendant_self n : descendant n n
| descendant_child n c d :
    c ∈ children_of n -> descendant c d -> descendant n d.

(** The lines of a definition in the file, joined by a newline. *)
Definition lines_of (file_content : string) (n : node) : string :=
  join nl (PyList.slice (splitlines file_content)
                        (first_line n - 1) (last_line n)).

(** The classes and functions that the visitor enters, in the order in
    which it enters them: a definition is entered when its lines include
    [line], and only then are the nodes below it visited. *)
Fixpoint entered (line : Z) (n : node) : list node :=
  match n with
  | ClassDef _ lineno end_lineno children
  | FunctionDef _ lineno end_lineno children =>
      if (lineno <=? line) && (line <=? end_lineno)
      then n :: flat_map (entered line) children
      else []
  | Other children => flat_map (entered line) children
  end.

(** The nodes of a tree: the node, then the nodes of its children. *)
Fixpoint nodes_of (n : node) : list node :=
  n :: match n with
       | ClassDef _ _ _ ch | FunctionDef _ _ _ ch | Other ch =>
           flat_map nodes_of ch
       end.

(** The lines of a definition include the lines of the definitions below
    it. *)
Definition well_nested (tree : node) : Prop :=
  Forall (fun d =>
            is_class d || is_function d = true ->
            Forall (fun e =>
                      is_class e || is_function e = true ->
                      first_line d <= first_line e
                      /\ last_line e <= last_line d)
                   (nodes_of d))
         (nodes_of tree).

(** What entering one definition does to the three variables. *)
Definition enter (file_lines : list string) (st : locals) (n : node)
  : locals :=
  match n with
  | ClassDef name _ _ _ =>
      mk_locals (Some name) (method_name st) (function_definition st)
  | FunctionDef name lineno end_lineno _ =>
      mk_locals (class_name st) (Some name)
                (Some (join nl (PyList.slice file_lines (lineno - 1)
                                             end_lineno)))
  | Other _ => st
  end.

(** Two recorded parses (CPython 3.11). *)
Definition scale_src : string :=
  Recorded.text ["X = 1"; "class A:"; "    Y = 2"; "    def m(self):";
                 "        def inner():"; "            return 1";
                 "        return inner"; "def f():"; "    pass"].
Definition scale_tree : node :=
  Other [Other [Other [Other []];
        Other []];
     ClassDef "A" 2 7
       [Other [Other [Other []];
           Other []];
        FunctionDef "m" 4 7
          [Other [Other []];
           FunctionDef "inner" 5 6
             [Other [];
              Other [Other []]];
           Other [Other [Other []]]]];
     FunctionDef "f" 8 9
       [Other [];
        Other []]].

Definition local_class_src : string :=
  Recorded.text ["class A:"; "    def m(self):"; "        class B:";
                 "            z = 0"; "        return B"].
Definition local_class_tree : node :=
  Other [ClassDef "A" 1 5
       [FunctionDef "m" 2 5
          [Other [Other []];
           ClassDef "B" 3 4
             [Other [Other [Other []];
                 Other []]];
           Other [Other [Other []]]]]].

Definition recorded_parse (src : string) : parse_result :=
  if String.eqb src scale_src then Parsed scale_tree
  else if String.eqb src local_class_src then Parsed local_class_tree
  else SyntaxErr "not recorded".

End Extractor.

(** [n] is the last node of [l] that has [p]. *)
Definition last_with (p : Extractor.node -> bool) (l : list Extractor.node)
           (n : Extractor.node) : Prop :=
  exists pre post,
    l = pre ++ n :: post /\ p n = true
    /\ Forall (fun x => p x = false) post.

(** The error of [extract_names] for a line in no function. *)
Definition no_method_at (line : Z) : exn :=
  ValueError ("Could not find a method definition at line "
              +:+ of_Z line +:+ " in the provided file content").

(* ------------------------------------------------------------------------- *)
(** ** [TestExtractor] and [extract_test_context]
    ([approach/utils/test_extractor.py])

    [TestExtractor] is an [ast.NodeVisitor] with methods for [Import],
    [ImportFrom], [ClassDef], [FunctionDef], [Assign], [AnnAssign] and
    [Expr]; none of them visits the nodes below its node.  Every other node
    ([Module], [If], [AsyncFunctionDef], the expressions) goes to
    [generic_visit], which visits its child nodes in order.  A node of the
    tree is therefore one of the seven, or another node with its child
    nodes.  What the visitor does not read of a node (the body of a
    function, the bases of a class, the value of an assignment) is kept as
    one text.  The attributes [imported_names], [in_target_class] and
    [target_method_node] are written and never read: they are left out. *)

Module TestContext.

(** A decorator, as [is_fixture] tells decorators apart. *)
Inductive decorator : Type :=
| CallName (id : string)
| CallAttribute (attr : string)
| CallOther
| Name (id : string)
| OtherDecorator.

#[warnings="-register-all"]
Inductive node : Type :=
| Import (code : string)
| ImportFrom (code : string)
| ClassDef (name : string) (header : string) (body : list node)
| FunctionDef (name : string) (lineno : Z) (decorator_list : list decorator)
              (code : string)
| Assign (code : string)
| AnnAssign (code : string)
| Expr (code : string)
| Other (children : list node).

(** [ast.parse(source)] *)
Inductive parse_result : Type :=
| Parsed (tree : node)
| SyntaxErr (msg : string).

(** The attributes of a [TestExtractor] that change during the visit;
    [target_class] and [target_method] are arguments below. *)
Record TestExtractor : Type := mk_TestExtractor {
  required_nodes : list node;
  current_class : option string;
  found_target : bool;
  fixture_nodes : list (string * node);
  helper_functions : list (string * node)
}.

(** [TestExtractor(target_class, target_method)] *)
Definition init : TestExtractor := mk_TestExtractor [] None false [] [].

(** Truth value of an optional string: not [None] and not empty. *)
Definition truthy_opt (o : option string) : bool :=
  match o with Some s => truthy s | None => false end.

(** [is_test_method] *)
Definition is_test_method (method_name : string) : bool :=
  startswith method_name "test_".

(** [is_fixture] *)
Definition is_fixture (decorators : list decorator) : bool :=
  existsb (fun d =>
             match d with
             | CallName id => String.eqb id "fixture"
             | CallAttribute attr => String.eqb attr "fixture"
             | Name id =>
                 String.eqb id "fixture" || String.eqb id "pytest.fixture"
             | CallOther | OtherDecorator => false
             end)
          decorators.

Definition append_required (st : TestExtractor) (n : node) : TestExtractor :=
  mk_TestExtractor (required_nodes st ++ [n]) (current_class st)
                   (found_target st) (fixture_nodes st)
                   (helper_functions st).

Definition set_current_class (st : TestExtractor) (c : option string)
  : TestExtractor :=
  mk_TestExtractor (required_nodes st) c (found_target st)
                   (fixture_nodes st) (helper_functions st).

Definition set_found_target (st : TestExtractor) (b : bool)
  : TestExtractor :=
  mk_TestExtractor (required_nodes st) (current_class st) b
                   (fixture_nodes st) (helper_functions st).

(** The loop of [visit_ClassDef] over the body of the target class: the
    flag [found_target] and the body of the new class. *)
Definition class_member (target_method : string)
           (acc : bool * list node) (child : node) : bool * list node :=
  let '(found, new_body) := acc in
  match child with
  | FunctionDef child_name _ _ _ =>
      if String.eqb child_name target_method
      then (true, new_body ++ [child])
      else if negb (is_test_method child_name)
           then (found, new_body ++ [child])
           else (found, new_body)
  | Assign _ | AnnAssign _ => (found, new_body ++ [child])
  | _ => (found, new_body)
  end.

(** [visit_ClassDef] *)
Definition visit_ClassDef (target_class : option string)
           (target_method : string) (name header : string)
           (body : list node) (st : TestExtractor) : TestExtractor :=
  let old_class := current_class st in
  let st := set_current_class st (Some name) in
  let st :=
    if truthy_opt target_class
       && bool_decide (Some name = target_class)
    then
      let '(found, new_body) :=
        fold_left (class_member target_method) body (found_target st, []) in
      let st := set_found_target st found in
      if found then append_required st (ClassDef name header new_body)
      else st
    else st in
  set_current_class st old_class.

(** [visit_FunctionDef] *)
Definition visit_FunctionDef (target_class : option string)
           (target_method : string) (n : node) (name : string)
           (decorators : list decorator) (st : TestExtractor)
  : TestExtractor :=
  if bool_decide (target_class = None) && String.eqb name target_method
  then append_required (set_found_target st true) n
  else if negb (truthy_opt (current_class st)) then
    if is_fixture decorators then
      mk_TestExtractor (required_nodes st) (current_class st)
                       (found_target st)
                       (PyDict.assign name n (fixture_nodes st))
                       (helper_functions st)
    else if negb (is_test_method name) then
      mk_TestExtractor (required_nodes st) (current_class st)
                       (found_target st) (fixture_nodes st)
                       (PyDict.assign name n (helper_functions st))
    else st
  else st.

(** [visit_Assign], [visit_AnnAssign], [visit_Expr] *)
Definition visit_statement (n : node) (st : TestExtractor) : TestExtractor :=
  if negb (truthy_opt (current_class st)) then append_required st n else st.

(** [TestExtractor.visit] *)
Fixpoint visit (target_class : option string) (target_method : string)
         (n : node) (st : TestExtractor) : TestExtractor :=
  match n with
  | Import _ | ImportFrom _ => append_required st n
  | ClassDef name header body =>
      visit_ClassDef target_class target_method name header body st
  | FunctionDef name _ decorators _ =>
      visit_FunctionDef target_class target_method n name decorators st
  | Assign _ | AnnAssign _ | Expr _ => visit_statement n st
  | Other children =>
      fold_left (fun st child => visit target_class target_method child st)
                children st
  end.

Definition lineno_of (n : node) : Z :=
  match n with FunctionDef _ lineno _ _ => lineno | _ => 0 end.

(** [all_functions.sort(key=lambda x: x.lineno)]: the sort of a list is
    stable. *)
Fixpoint insert_by_lineno (x : node) (l : list node) : list node :=
  match l with
  | [] => [x]
  | y :: r =>
      if lineno_of x <=? lineno_of y then x :: y :: r
      else y :: insert_by_lineno x r
  end.

Definition sort_by_lineno (l : list node) : list node :=
  fold_right insert_by_lineno [] l.

(** [from pytest import mark, fixture] *)
Definition pytest_import : node :=
  ImportFrom "from pytest import mark, fixture".

(** The error of a target that was not found. *)
Definition not_found (target_class : option string) (target_method : string)
  : exn :=
  match target_class with
  | Some c =>
      if truthy c
      then ValueError ("Target method '" +:+ c +:+ "." +:+ target_method
                       +:+ "' not found in the file")
      else ValueError ("Target function '" +:+ target_method
                       +:+ "' not found in the file")
  | None =>
      ValueError ("Target function '" +:+ target_method
                  +:+ "' not found in the file")
  end.

Section Run.

(** [ast.parse], and [ast.unparse] of a module with a given body (after
    [ast.fix_missing_locations]). *)
Variable parse : string -> parse_result.
Variable unparse : list node -> string.

(** Lines 287-312 of [extract_test_context]: the body of the new module. *)
Definition new_tree_body (source : string) (target_class : option string)
           (target_method : string) : outcome (list node) :=
  match parse source with
  | SyntaxErr e => Raised (SyntaxError e)
  | Parsed tree =>
      let extractor := visit target_class target_method tree init in
      if negb (found_target extractor) then
        Raised (not_found target_class target_method)
      else
        let all_functions :=
          sort_by_lineno (map snd (fixture_nodes extractor)
                          ++ map snd (helper_functions extractor)) in
        Returned (pytest_import
                  :: (required_nodes extractor ++ all_functions))
  end.

(** [extract_test_context] *)
Definition extract_test_context (source : string)
           (target_class : option string) (target_method : string)
  : outcome string :=
  match new_tree_body source target_class target_method with
  | Returned body => Returned (unparse body)
  | Raised e => Raised e
  end.

End Run.

(** *** Notions for the properties *)

(** The nodes that a method of the visitor is called on, in order: the
    nodes of the seven kinds that are reached through other nodes only. *)
Fixpoint visited (n : node) : list node :=
  match n with
  | Other children => flat_map visited children
  | _ => [n]
  end.

(** A function definition with a given name. *)
Definition is_def_of (target_method : string) (n : node) : bool :=
  match n with
  | FunctionDef name _ _ _ => String.eqb name target_method
  | _ => false
  end.

(** A visited node that makes the target found: the function, when no
    class is asked for; a class of the name asked for with a method of the
    name asked for otherwise. *)
Definition is_target (target_class : option string) (target_method : string)
           (n : node) : bool :=
  match target_class, n with
  | None, FunctionDef name _ _ _ => String.eqb name target_method
  | Some c, ClassDef name _ body =>
      truthy c && String.eqb name c
      && existsb (is_def_of target_method) body
  | _, _ => false
  end.

(** The members of the target class that the new class keeps. *)
Definition kept_member (target_method : string) (child : node) : bool :=
  match child with
  | FunctionDef child_name _ _ _ =>
      String.eqb child_name target_method || negb (is_test_method child_name)
  | Assign _ | AnnAssign _ => true
  | _ => false
  end.

(** A test function: a function whose name starts with [test_]. *)
Definition is_test (n : node) : bool :=
  match n with
  | FunctionDef name _ _ _ => is_test_method name
  | _ => false
  end.

Definition is_fixture_node (n : node) : bool :=
  match n with
  | FunctionDef _ _ decorators _ => is_fixture decorators
  | _ => false
  end.

Definition is_plain_statement (n : node) : bool :=
  match n with
  | Import _ | ImportFrom _ | Assign _ | AnnAssign _ | Expr _ => true
  | _ => false
  end.

(** A recorded parse (CPython 3.11): a class with two tests, a fixture, a
    helper, a free test, and a function under an [if]. *)
Definition suite_src : string :=
  Recorded.text ["import pytest"; "LIMIT = 3"; "@pytest.fixture()";
                 "def box():"; "    return []"; "def helper(x):";
                 "    return x"; "class TestBox:"; "    size = 1";
                 "    def setup_method(self):"; "        pass";
                 "    def test_a(self, box):";
                 "        assert helper(box) == []";
                 "    def test_b(self):"; "        pass";
                 "def test_free():"; "    pass"; "if LIMIT:";
                 "    def late():"; "        pass"].
Definition suite_tree : node :=
  Other [Import "import pytest";
         Assign "LIMIT = 3";
         FunctionDef "box" 4 [CallAttribute "fixture"]
           "@pytest.fixture() / def box(): /     return []";
         FunctionDef "helper" 6 [] "def helper(x): /     return x";
         ClassDef "TestBox" "class TestBox:"
           [Assign "size = 1";
            FunctionDef "setup_method" 10 []
              "def setup_method(self): /     pass";
            FunctionDef "test_a" 12 []
              "def test_a(self, box): /     assert helper(box) == []";
            FunctionDef "test_b" 14 [] "def test_b(self): /     pass"];
         FunctionDef "test_free" 16 [] "def test_free(): /     pass";
         Other [Other [Other []];
                FunctionDef "late" 19 [] "def late(): /     pass"]].

Definition recorded_parse (src : string) : parse_result :=
  if String.eqb src suite_src then Parsed suite_tree
  else SyntaxErr "not recorded".

End TestContext.

(** What one method of the visitor does, on a visited node. *)
Definition handle (target_class : option string) (target_method : string)
           (st : TestContext.TestExtractor) (n : TestContext.node)
  : TestContext.TestExtractor :=
  match n with
  | TestContext.Other _ => st
  | _ => TestContext.visit target_class target_method n st
  end.

(** A kept node as it is in the new module: a class has the members that
    [kept_member] keeps, any other node is as it was. *)
Definition trim (target_method : string) (n : TestContext.node)
  : TestContext.node :=
  match n with
  | TestContext.ClassDef name header body =>
      TestContext.ClassDef
        name header
        (List.filter (TestContext.kept_member target_method) body)
  | _ => n
  end.

(** The visited nodes that can be kept: imports, assignments and
    expression statements; the target function when no class is asked for;
    the classes of the name asked for. *)
Definition keepable (target_class : option string) (target_method : string)
           (n : TestContext.node) : bool :=
  TestContext.is_plain_statement n
  || match target_class, n with
     | None, TestContext.FunctionDef name _ _ _ =>
         String.eqb name target_method
     | Some c, TestContext.ClassDef name _ _ => String.eqb name c
     | _, _ => false
     end.

(** The functions that are collected: fixtures, and functions that are no
    tests. *)
Definition collectable (n : TestContext.node) : bool :=
  match n with
  | TestContext.FunctionDef name _ decorators _ =>
      TestContext.is_fixture decorators
      || negb (TestContext.is_test_method name)
  | _ => false
  end.

(** A node of the new module that holds the target: the function, or a
    class of the name asked for with a method of the name asked for. *)
Definition holds_target (target_class : option string)
           (target_method : string) (n : TestContext.node) : bool :=
  match target_class, n with
  | None, TestContext.FunctionDef name _ _ _ =>
      String.eqb name target_method
  | Some c, TestContext.ClassDef name _ body =>
      String.eqb name c
      && existsb (TestContext.is_def_of target_method) body
  | _, _ => false
  end.

(** Line numbers that do not decrease. *)
Fixpoint ascending (l : list Z) : Prop :=
  match l with
  | [] => True
  | x :: r => Forall (fun y => x <= y) r /\ ascending r
  end.

(** A member of a class of the new module: an assignment, or a method that
    is the target when it is a test. *)
Definition member_allowed (target_method : string) (m : TestContext.node)
  : Prop :=
  match m with
  | TestContext.FunctionDef name _ _ _ =>
      TestContext.is_test_method name = true -> name = target_method
  | TestContext.Assign _ | TestContext.AnnAssign _ => True
  | _ => False
  end.

(** A node of the new module: a statement; a function that is the target
    or a fixture when it is a test; a class of the name asked for with
    allowed members. *)
Definition node_allowed (target_class : option string)
           (target_method : string) (n : TestContext.node) : Prop :=
  match n with
  | TestContext.FunctionDef name _ decorators _ =>
      TestContext.is_test_method name = true ->
      TestContext.is_fixture decorators = true
      \/ (target_class = None /\ name = target_method)
  | TestContext.ClassDef name _ members =>
      target_class = Some name /\ Forall (member_allowed target_method) members
  | TestContext.Other _ => False
  | _ => True
  end.

(** The target function, when no class is asked for. *)
Definition is_target_function (target_class : option string)
           (target_method : string) (n : TestContext.node) : bool :=
  bool_decide (target_class = None)
  && TestContext.is_def_of target_method n.

(** A class of the name asked for. *)
Definition is_target_class (target_class : option string)
           (n : TestContext.node) : bool :=
  match n with
  | TestContext.ClassDef name _ _ =>
      TestContext.truthy_opt target_class
      && bool_decide (Some name = target_class)
  | _ => false
  end.

(** What the new module keeps of one visited node, [found] telling whether
    the target was met up to this node: an import, an assignment or an
    expression statement; the target function; a class of the name asked
    for once the target was met, cut down to the members that are kept. *)
Definition kept_one (target_class : option string) (target_method : string)
           (found : bool) (n : TestContext.node) : list TestContext.node :=
  if TestContext.is_plain_statement n
     || is_target_function target_class target_method n
     || (is_target_class target_class n && found)
  then [trim target_method n] else [].

(** What the new module keeps of the visited nodes, in their order;
    [found] tells whether the target was met before them. *)
Fixpoint kept_nodes (target_class : option string) (target_method : string)
         (found : bool) (ns : list TestContext.node)
  : list TestContext.node :=
  match ns with
  | [] => []
  | n :: r =>
      let found :=
        found || TestContext.is_target target_class target_method n in
      kept_one target_class target_method found n
      ++ kept_nodes target_class target_method found r
  end.

Definition function_name (n : TestContext.node) : string :=
  match n with
  | TestContext.FunctionDef name _ _ _ => name
  | _ => ""
  end.

(** Functions stored by name one after the other: of the functions of one
    name the last one is held, at the place of the first. *)
Definition by_name (fs : list TestContext.node) : list TestContext.node :=
  map snd (fold_left (fun d f => PyDict.assign (function_name f) f d) fs []).

(** The fixtures that are collected: the functions with a fixture
    decorator, but for the target function. *)
Definition is_collected_fixture (target_class : option string)
           (target_method : string) (n : TestContext.node) : bool :=
  negb (is_target_function target_class target_method n)
  && TestContext.is_fixture_node n.

(** The helpers that are collected: the functions that are neither
    fixtures nor tests, but for the target function. *)
Definition is_collected_helper (target_class : option string)
           (target_method : string) (n : TestContext.node) : bool :=
  match n with
  | TestContext.FunctionDef name _ decorators _ =>
      negb (is_target_function target_class target_method n)
      && negb (TestContext.is_fixture decorators)
      && negb (TestContext.is_test_method name)
  | _ => false
  end.

(** The functions of the new module, before they are sorted: the fixtures
    by name, then the helpers by name. *)
Definition collected_functions (target_class : option string)
           (target_method : string) (ns : list TestContext.node)
  : list TestContext.node :=
  by_name (List.filter (is_collected_fixture target_class target_method) ns)
  ++ by_name (List.filter (is_collected_helper target_class target_method)
                          ns).

(* ------------------------------------------------------------------------- *)
(** * Properties *)

(** ** The monad *)

Lemma bind_Returned {A B} (c : M A) (k : A -> M B) w a w' :
  c w = (Returned a, w') -> bind c k w = k a w'.
Proof. intros H. unfold bind. now rewrite H. Qed.

Lemma bind_Raised {A B} (c : M A) (k : A -> M B) w e w' :
  c w = (Raised e, w') -> bind c k w = (Raised e, w').
Proof. intros H. unfold bind. now rewrite H. Qed.

Lemma bind_inv_Returned {A B} (c : M A) (k : A -> M B) w b w' :
  bind c k w = (Returned b, w') ->
  exists a w1, c w = (Returned a, w1) /\ k a w1 = (Returned b, w').
Proof.
  unfold bind. destruct (c w) as [[a|e] w1]; intros H.
  - eauto.
  - discriminate.
Qed.

Lemma logged_nil w : logged w [] = w.
Proof. destruct w. unfold logged. simpl. now rewrite app_nil_r. Qed.

Lemma logged_logged w l1 l2 : logged (logged w l1) l2 = logged w (l1 ++ l2).
Proof. unfold logged. simpl. now rewrite app_assoc. Qed.

(** ** Appending strings *)

Lemma str_app_cons c (r s : string) : String c r +:+ s = String c (r +:+ s).
Proof. reflexivity. Qed.

Lemma str_app_nil_r (s : string) : s +:+ "" = s.
Proof.
  induction s as [|c r IH]; [reflexivity|].
  now rewrite str_app_cons, IH.
Qed.

Lemma str_app_assoc (a b c : string) : (a +:+ b) +:+ c = a +:+ (b +:+ c).
Proof.
  induction a as [|x r IH]; [reflexivity|].
  now rewrite !str_app_cons, IH.
Qed.

(** ** The indentation passed to [_reindent] *)

Lemma rstrip_all_space s : all_space s = true -> rstrip s = "".
Proof.
  induction s as [|c r IH]; [reflexivity|].
  cbn [all_space]. intros H. apply andb_true_iff in H as [Hc Hr].
  unfold rstrip in *. cbn [rstrip_chars]. now rewrite (IH Hr), Hc.
Qed.

Lemma strip_all_space s : all_space s = true -> strip s = "".
Proof. intros H. unfold strip. now rewrite rstrip_all_space. Qed.

Lemma all_space_app a b :
  all_space a = true -> all_space b = true -> all_space (a +:+ b) = true.
Proof.
  intros Ha Hb. induction a as [|c r IH]; [exact Hb|].
  cbn [all_space] in Ha. apply andb_true_iff in Ha as [Hc Hr].
  rewrite str_app_cons. cbn [all_space]. now rewrite Hc, IH.
Qed.

Lemma all_space_leading_whitespace s :
  all_space (get_leading_whitespace s) = true.
Proof.
  unfold get_leading_whitespace.
  induction s as [|c r IH]; [reflexivity|].
  cbn [take_while]. destruct (is_space c) eqn:Ec; [|reflexivity].
  cbn [all_space]. now rewrite Ec, IH.
Qed.

Lemma all_space_one_level indent :
  all_space indent = true -> all_space (one_level indent) = true.
Proof.
  intros H. unfold one_level. apply all_space_app; [exact H|].
  destruct (negb (contains TAB indent)); reflexivity.
Qed.

Lemma all_space_indent_of_line ls i : all_space (indent_of_line ls i) = true.
Proof.
  unfold indent_of_line.
  destruct (PyList.in_range ls i); [|reflexivity].
  apply all_space_leading_whitespace.
Qed.

(** Every indentation that the merger passes to [_reindent] is whitespace:
    the reset of [_reindent], and its warning, are never reached. *)
Lemma indent_is_whitespace :
  (forall ls i, strip (one_level (indent_of_line ls i)) = "")
  /\ (forall ls t, strip (snd (body_target ls t)) = "").
Proof.
  split.
  - intros ls i. apply strip_all_space, all_space_one_level,
      all_space_indent_of_line.
  - intros ls t. apply strip_all_space. unfold body_target.
    pose proof (all_space_one_level _
                  (all_space_indent_of_line ls (Ast.lineno t - 1))) as Hd.
    destruct (Ast.body t) as [|f r]; [exact Hd|].
    destruct (last (f :: r)); [|exact Hd].
    destruct (PyList.in_range ls (Ast.lineno f - 1)); [|exact Hd].
    destruct (negb _ && _); [exact Hd|].
    apply all_space_leading_whitespace.
Qed.

(** ** Identity of callables *)

(** C9: equality and hashing of [ExtractedFunction] read the pair
    (class name, callable name) only: two identities with the same pair are
    equal and have the same hash, whatever their [func_def] and
    [file_path]. *)
Theorem ExtractedFunction_identity_is_nominal :
  forall (py_hash : option string * pyval -> Z) (f g : ExtractedFunction),
    class_name f = class_name g ->
    func_name f = func_name g ->
    ef_eq py_hash f g = true /\ ef_hash py_hash f = ef_hash py_hash g.
Proof.
  intros h f g Hc Hn.
  assert (E : ef_hash h f = ef_hash h g).
  { unfold ef_hash. now rewrite Hc, Hn. }
  split; [|exact E].
  unfold ef_eq. rewrite E. apply Z.eqb_refl.
Qed.

Lemma ExtractedFunction_identity_is_nominal_witness :
  let f := mk_ExtractedFunction (Some "TestFoo") (PyStr "test_a")
                                (Some "def test_a(self): pass")
                                (Some "tests/test_foo.py") in
  let g := mk_ExtractedFunction (Some "TestFoo") (PyStr "test_a")
                                (Some "def test_a(self): return 1") None in
  f <> g /\
  ef_eq Recorded.names_hash f g = true /\
  ef_hash Recorded.names_hash f = ef_hash Recorded.names_hash g.
Proof.
  split.
  - discriminate.
  - apply ExtractedFunction_identity_is_nominal; reflexivity.
Defined.

(** ** The signature gate *)

Lemma resolve_target_keeps_world target_name cls w r w' :
  resolve_target target_name cls w = (r, w') -> w' = w.
Proof.
  unfold resolve_target, bind, get_self, ret, raise.
  destruct cls as [c|].
  - destruct (cls_map (self w) !! c) as [n|]; [|now inversion 1].
    destruct (find_method n target_name); now inversion 1.
  - destruct (fn_map (self w) !! target_name); now inversion 1.
Qed.

Lemma signatures_differ_first a b :
  signature a <> signature b ->
  exists c, first_difference c a b /\
            _signatures_match a b = (false, difference_text c a b).
Proof.
  intros Hne. unfold _signatures_match.
  destruct (decide (Ast.posonlyargs a = Ast.posonlyargs b)) as [E1|N1].
  2:{ exists PositionalOnly. rewrite bool_decide_eq_false_2 by exact N1.
      split; [split; [exact N1|constructor]|reflexivity]. }
  rewrite (bool_decide_eq_true_2 _ E1). simpl.
  destruct (decide (Ast.args a = Ast.args b)) as [E2|N2].
  2:{ exists Positional. rewrite bool_decide_eq_false_2 by exact N2.
      split; [split; [exact N2|]|reflexivity].
      repeat constructor. simpl. tauto. }
  rewrite (bool_decide_eq_true_2 _ E2). simpl.
  destruct (decide (Ast.vararg a = Ast.vararg b)) as [E3|N3].
  2:{ exists VariadicPositional. rewrite bool_decide_eq_false_2 by exact N3.
      split; [split; [exact N3|]|reflexivity].
      repeat constructor; simpl; tauto. }
  rewrite (bool_decide_eq_true_2 _ E3). simpl.
  destruct (decide (Ast.kwonlyargs a = Ast.kwonlyargs b)) as [E4|N4].
  2:{ exists KeywordOnly. rewrite bool_decide_eq_false_2 by exact N4.
      split; [split; [exact N4|]|reflexivity].
      repeat constructor; simpl; tauto. }
  rewrite (bool_decide_eq_true_2 _ E4). simpl.
  destruct (decide (Ast.kwarg a = Ast.kwarg b)) as [E5|N5].
  2:{ exists VariadicKeyword. rewrite bool_decide_eq_false_2 by exact N5.
      split; [split; [exact N5|]|reflexivity].
      repeat constructor; simpl; tauto. }
  exfalso. apply Hne. unfold signature. congruence.
Qed.

Lemma parse_new_callable_function parse target_name snippet n rest w :
  parse (dedent snippet) = Ast.Parsed (n :: rest) ->
  Ast.is_FunctionDef n = true ->
  parse_new_callable parse target_name snippet w
  = (Returned (dedent snippet, n), w).
Proof.
  intros Hp Hf. unfold parse_new_callable. rewrite Hp, Hf. reflexivity.
Qed.

(** What [append_callable_body] does when the target resolves, the snippet
    parses to a function and the signatures differ. *)
Lemma append_callable_body_signatures_differ
      parse target_name snippet cls w t n rest :
  resolve_target target_name cls w = (Returned t, w) ->
  parse (dedent snippet) = Ast.Parsed (n :: rest) ->
  Ast.is_FunctionDef n = true ->
  signature (Ast.arguments_of n) <> signature (Ast.arguments_of t) ->
  exists c,
    first_difference c (Ast.arguments_of n) (Ast.arguments_of t) /\
    append_callable_body parse target_name snippet cls w
    = (Raised (ValueError
                 ("Signatures differ for '" +:+ target_name +:+ "': "
                  +:+ difference_text c (Ast.arguments_of n)
                                      (Ast.arguments_of t))), w).
Proof.
  intros Hr Hp Hf Hs.
  destruct (signatures_differ_first _ _ Hs) as (c & Hc & Hm).
  exists c. split; [exact Hc|].
  unfold append_callable_body.
  rewrite (bind_Returned _ _ _ _ _ Hr).
  rewrite (bind_Returned _ _ _ _ _
             (parse_new_callable_function parse target_name _ _ _ w Hp Hf)).
  unfold signature_gate. rewrite Hm. reflexivity.
Qed.

(** C1: when the target resolves and the new snippet parses to a function
    definition whose signature differs from the target's, then
    [append_callable_body] raises the signature error, whose text names the
    first differing component (in the order positional-only, positional,
    variadic positional, keyword-only, variadic keyword) with both values,
    and the world (line buffer, index, log, history) is the one before the
    call. *)
Theorem append_callable_body_signature_gate :
  forall parse target_name snippet cls w t n,
    resolve_target target_name cls w = (Returned t, w) ->
    parse (dedent snippet) = Ast.Parsed [n] ->
    Ast.is_FunctionDef n = true ->
    signature (Ast.arguments_of n) <> signature (Ast.arguments_of t) ->
    exists c,
      first_difference c (Ast.arguments_of n) (Ast.arguments_of t) /\
      append_callable_body parse target_name snippet cls w
      = (Raised (ValueError
                   ("Signatures differ for '" +:+ target_name +:+ "': "
                    +:+ difference_text c (Ast.arguments_of n)
                                        (Ast.arguments_of t))), w).
Proof.
  intros parse target_name snippet cls w t n Hr Hp Hf Hs.
  destruct (signatures_differ_first _ _ Hs) as (c & Hc & Hm).
  exists c. split; [exact Hc|].
  unfold append_callable_body.
  rewrite (bind_Returned _ _ _ _ _ Hr).
  rewrite (bind_Returned _ _ _ _ _
             (parse_new_callable_function parse target_name _ _ _ w Hp Hf)).
  unfold signature_gate. rewrite Hm. reflexivity.
Qed.

Lemma append_callable_body_signature_gate_witness :
  let w := Examples.merger_on Recorded.case_base_src in
  exists c,
    first_difference c (Ast.arguments_of Examples.case_new)
                     (Ast.arguments_of Examples.case_target) /\
    append_callable_body Recorded.recorded_parse "case"
                         Examples.case_method_snippet (Some "Test") w
    = (Raised (ValueError
                 ("Signatures differ for 'case': "
                  +:+ difference_text c
                        (Ast.arguments_of Examples.case_new)
                        (Ast.arguments_of Examples.case_target))), w).
Proof.
  apply (append_callable_body_signature_gate
           Recorded.recorded_parse "case" Examples.case_method_snippet
           (Some "Test") (Examples.merger_on Recorded.case_base_src)
           Examples.case_target Examples.case_new).
  - vm_compute. reflexivity.
  - vm_compute. reflexivity.
  - reflexivity.
  - vm_compute. intros H. discriminate H.
Defined.

(** ** [add_methods] on a class that the index does not have *)

Lemma add_methods_unknown_class parse class_name methods w :
  cls_map (self w) !! class_name = None ->
  add_methods parse class_name methods w
  = (Returned tt,
     logged w [mk_log ERROR ("Class " +:+ class_name
                             +:+ " not found. Cannot add methods.")]).
Proof.
  intros H. unfold add_methods, bind, get_self. rewrite H. reflexivity.
Qed.

(** C4, as the code has it: for a class name that the index does not have,
    [add_methods] writes the error record "Class ... not found. Cannot add
    methods." to the log and returns; it raises nothing, and the line
    buffer, the index and the history of splices are unchanged. *)
Theorem add_methods_unknown_class_logs_and_returns :
  forall parse class_name methods w,
    cls_map (self w) !! class_name = None ->
    exists w',
      add_methods parse class_name methods w = (Returned tt, w') /\
      self w' = self w /\
      history w' = history w /\
      LOG w' = LOG w ++ [mk_log ERROR ("Class " +:+ class_name
                                       +:+ " not found. Cannot add methods.")].
Proof.
  intros parse c ms w H.
  eexists. split; [apply add_methods_unknown_class; exact H|].
  now repeat split.
Qed.

Lemma add_methods_unknown_class_logs_and_returns_witness :
  exists w',
    add_methods Recorded.recorded_parse "TestBar"
                [Examples.case_method_snippet]
                (Examples.merger_on Recorded.testfoo_src)
    = (Returned tt, w') /\
    self w' = self (Examples.merger_on Recorded.testfoo_src) /\
    history w' = history (Examples.merger_on Recorded.testfoo_src) /\
    LOG w' = LOG (Examples.merger_on Recorded.testfoo_src)
             ++ [mk_log ERROR "Class TestBar not found. Cannot add methods."].
Proof.
  apply (add_methods_unknown_class_logs_and_returns
           Recorded.recorded_parse "TestBar" [Examples.case_method_snippet]
           (Examples.merger_on Recorded.testfoo_src)).
  vm_compute. reflexivity.
Defined.

(** C4 as stated fails: on the merger of a file that has the class
    [TestFoo] only, [add_methods] for [TestBar] returns instead of
    raising. *)
Lemma add_methods_unknown_class_does_not_raise :
  cls_map (self (Examples.merger_on Recorded.testfoo_src)) !! "TestBar"
  = None /\
  ~ (exists e w',
        add_methods Recorded.recorded_parse "TestBar"
                    [Examples.case_method_snippet]
                    (Examples.merger_on Recorded.testfoo_src)
        = (Raised e, w')).
Proof.
  split.
  - vm_compute. reflexivity.
  - intros (e & w' & H).
    rewrite add_methods_unknown_class in H by (vm_compute; reflexivity).
    discriminate H.
Qed.

(** ** Computations that only log *)

Lemma log_only_ret {A} (a : A) : log_only (ret a).
Proof. intros w. exists a, []. now rewrite logged_nil. Qed.

Lemma log_only_log l m : log_only (log l m).
Proof. intros w. exists tt, [mk_log l m]. reflexivity. Qed.

Lemma log_only_bind {A B} (c : M A) (k : A -> M B) :
  log_only c -> (forall a, log_only (k a)) -> log_only (bind c k).
Proof.
  intros Hc Hk w.
  destruct (Hc w) as (a & l & E).
  destruct (Hk a (logged w l)) as (b & l' & E').
  exists b, (l ++ l'). unfold bind. rewrite E, E'.
  now rewrite logged_logged.
Qed.

Lemma log_only_fold_M {A S} (f : S -> A -> M S) (l : list A) :
  (forall s x, log_only (f s x)) -> forall s, log_only (fold_M f l s).
Proof.
  intros Hf. induction l as [|x r IH]; intros s; simpl.
  - apply log_only_ret.
  - apply log_only_bind; [apply Hf|exact IH].
Qed.

Lemma log_only_map_M {A B} (f : A -> M B) (l : list A) :
  (forall x, log_only (f x)) -> log_only (map_M f l).
Proof.
  intros Hf. induction l as [|x r IH]; simpl.
  - apply log_only_ret.
  - apply log_only_bind; [apply Hf|]. intros y.
    apply log_only_bind; [exact IH|]. intros ys. apply log_only_ret.
Qed.

Lemma log_only_get_self {A} (k : Merger -> M A) :
  (forall m, log_only (k m)) -> log_only (bind get_self k).
Proof. intros Hk w. unfold bind, get_self. apply Hk. Qed.

Lemma log_only_segment src n : log_only (_get_node_source_segment_v2 src n).
Proof.
  unfold _get_node_source_segment_v2.
  destruct (negb (truthy (source_segment src n))).
  - apply log_only_bind; [apply log_only_log|]. intros _. apply log_only_ret.
  - apply log_only_ret.
Qed.

Lemma log_only_methods_in_new_class new_src node :
  log_only (methods_in_new_class new_src node).
Proof.
  unfold methods_in_new_class. apply log_only_fold_M. intros acc m.
  destruct (Ast.is_FunctionDef m); [|apply log_only_ret].
  apply log_only_bind; [apply log_only_segment|]. intros s.
  destruct (truthy s); apply log_only_ret.
Qed.

(** In APPEND mode the walk queues and inserts nothing. *)
Lemma log_only_walk_node_append parse py_hash new_src p node :
  log_only (walk_node parse py_hash new_src "APPEND" p node).
Proof.
  unfold walk_node.
  apply log_only_bind; [apply log_only_segment|]. intros s.
  destruct (negb (truthy s)); [apply log_only_ret|].
  destruct (Ast.is_import node).
  { destruct (negb _); apply log_only_ret. }
  destruct (Ast.is_ClassDef node).
  { apply log_only_bind; [apply log_only_methods_in_new_class|].
    intros ms. simpl. apply log_only_ret. }
  destruct (Ast.is_FunctionDef node); simpl; apply log_only_ret.
Qed.

Lemma log_only_walk_append parse py_hash new_src new_tree :
  log_only (walk parse py_hash new_src "APPEND" new_tree).
Proof.
  unfold walk. apply log_only_get_self. intros m.
  apply log_only_fold_M. intros. apply log_only_walk_node_append.
Qed.

(** ** APPEND mode without a mapping *)

Lemma splice_spliced op ls pos payload w :
  splice op ls pos payload w = (Returned tt, spliced w op ls pos payload).
Proof. reflexivity. Qed.

(** In APPEND mode without a mapping, [merge_tests] ends where
    [walk_and_import] ends: with its error, or with [MissingMapping]. *)
Lemma merge_tests_append_no_mapping
      parse py_hash new_src base_src mode mapping w :
  upper mode = "APPEND" ->
  no_mapping mapping = true ->
  merge_tests parse py_hash new_src base_src mode mapping w
  = match walk_and_import parse py_hash new_src base_src "APPEND" w with
    | (Returned _, w1) => (Raised MissingMapping, w1)
    | (Raised e, w1) => (Raised e, w1)
    end.
Proof.
  intros Hm Hn. unfold merge_tests. rewrite Hm. unfold bind at 1.
  destruct (walk_and_import _ _ _ _ _ w) as [[p|e] w1]; [|reflexivity].
  simpl. unfold bind at 1. rewrite Hn. reflexivity.
Qed.

(** C10: in APPEND mode a mapping that is an empty dictionary is treated as
    an absent one: the two calls end alike, neither returns a merged text,
    and when the walk and the insertion of the imports complete the error is
    "--map is required in APPEND mode.". *)
Theorem empty_mapping_is_missing_mapping :
  forall parse py_hash new_src base_src mode w,
    upper mode = "APPEND" ->
    merge_tests parse py_hash new_src base_src mode (Some ∅) w
    = merge_tests parse py_hash new_src base_src mode None w
    /\ (forall r w',
           merge_tests parse py_hash new_src base_src mode (Some ∅) w
           <> (Returned r, w'))
    /\ (forall p w1,
           walk_and_import parse py_hash new_src base_src "APPEND" w
           = (Returned p, w1) ->
           merge_tests parse py_hash new_src base_src mode (Some ∅) w
           = (Raised (ValueError "--map is required in APPEND mode."), w1)).
Proof.
  intros parse h new_src base_src mode w Hm.
  assert (He : no_mapping (Some (∅ : gmap string string)) = true)
    by reflexivity.
  rewrite (merge_tests_append_no_mapping parse h new_src base_src mode
             (Some ∅) w Hm He).
  rewrite (merge_tests_append_no_mapping parse h new_src base_src mode
             None w Hm eq_refl).
  split; [reflexivity|]. split.
  - intros r w'.
    destruct (walk_and_import _ _ _ _ _ w) as [[p|e] w1]; discriminate.
  - intros p w1 E. rewrite E. reflexivity.
Qed.

Lemma empty_mapping_is_missing_mapping_witness :
  upper "append" = "APPEND" /\
  merge_tests Recorded.recorded_parse Recorded.names_hash
              Recorded.helper_new_src Recorded.helper_base_src "append"
              (Some ∅) world0
  = (Raised (ValueError "--map is required in APPEND mode."),
     Examples.merger_on Recorded.helper_base_src).
Proof.
  split; [reflexivity|].
  refine (proj2 (proj2 (empty_mapping_is_missing_mapping
                          Recorded.recorded_parse Recorded.names_hash
                          Recorded.helper_new_src Recorded.helper_base_src
                          "append" world0 eq_refl))
                (mk_Pending [] [] [] []
                            [("helper", Recorded.helper_new_src)] []) _ _).
  vm_compute. reflexivity.
Defined.

Lemma add_queued_imports_cases parse p w :
  add_queued_imports parse p w
  = match new_imports_to_add p with
    | [] => (Returned tt, w)
    | imports =>
        _refresh_index parse
          (spliced w OpAddImports (lines (self w))
                   (_last_import_line (tree (self w))) imports)
    end.
Proof.
  unfold add_queued_imports. destruct (new_imports_to_add p); reflexivity.
Qed.

(** C5, as the code has it: in APPEND mode without a mapping (absent or
    empty), on a target that the merger accepts and a new unit that parses,
    the walk inserts nothing and only logs; when the new unit brings no new
    import, [MissingMapping] is raised in the world of the target; when it
    brings some, they are first spliced into the line buffer after the last
    import line and the buffer is indexed again, and [MissingMapping] is
    raised in that world -- or, when the buffer with the imports does not
    parse, the error of the index is raised instead. *)
Theorem missing_mapping_raised_after_imports :
  forall parse py_hash new_src base_src mode mapping w wi new_tree,
    upper mode = "APPEND" ->
    no_mapping mapping = true ->
    Merger_init parse base_src w = (Returned tt, wi) ->
    parse new_src = Ast.Parsed new_tree ->
    exists p l,
      walk parse py_hash new_src "APPEND" new_tree wi
      = (Returned p, logged wi l) /\
      match new_imports_to_add p with
      | [] =>
          merge_tests parse py_hash new_src base_src mode mapping w
          = (Raised MissingMapping, logged wi l)
      | imports =>
          match _refresh_index parse
                  (spliced (logged wi l) OpAddImports (lines (self wi))
                           (_last_import_line (tree (self wi))) imports)
          with
          | (Returned _, w1) =>
              merge_tests parse py_hash new_src base_src mode mapping w
              = (Raised MissingMapping, w1)
          | (Raised e, w1) =>
              merge_tests parse py_hash new_src base_src mode mapping w
              = (Raised e, w1)
          end
      end.
Proof.
  intros parse h new_src base_src mode mapping w wi new_tree Hm Hn Hi Hp.
  destruct (log_only_walk_append parse h new_src new_tree wi) as (p & l & Hw).
  exists p, l. split; [exact Hw|].
  rewrite (merge_tests_append_no_mapping _ _ _ _ _ _ _ Hm Hn).
  unfold walk_and_import.
  rewrite (bind_Returned _ _ _ _ _ Hi). rewrite Hp.
  rewrite (bind_Returned _ _ _ _ _ Hw).
  unfold bind, ret. rewrite add_queued_imports_cases.
  destruct (new_imports_to_add p) as [|i is_]; [reflexivity|].
  change (self (logged wi l)) with (self wi).
  destruct (_refresh_index parse _) as [[[]|e] w1]; reflexivity.
Qed.

Lemma missing_mapping_raised_after_imports_witness :
  exists p l,
    walk Recorded.recorded_parse Recorded.names_hash Recorded.unit_f_src
         "APPEND" Recorded.unit_f_ast (Examples.merger_on Recorded.func_f_src)
    = (Returned p, logged (Examples.merger_on Recorded.func_f_src) l) /\
    match new_imports_to_add p with
    | [] =>
        merge_tests Recorded.recorded_parse Recorded.names_hash
                    Recorded.unit_f_src Recorded.func_f_src "Append" None
                    world0
        = (Raised MissingMapping,
           logged (Examples.merger_on Recorded.func_f_src) l)
    | imports =>
        match _refresh_index Recorded.recorded_parse
                (spliced (logged (Examples.merger_on Recorded.func_f_src) l)
                   OpAddImports
                   (lines (self (Examples.merger_on Recorded.func_f_src)))
                   (_last_import_line
                      (tree (self (Examples.merger_on Recorded.func_f_src))))
                   imports)
        with
        | (Returned _, w1) =>
            merge_tests Recorded.recorded_parse Recorded.names_hash
                        Recorded.unit_f_src Recorded.func_f_src "Append" None
                        world0
            = (Raised MissingMapping, w1)
        | (Raised e, w1) =>
            merge_tests Recorded.recorded_parse Recorded.names_hash
                        Recorded.unit_f_src Recorded.func_f_src "Append" None
                        world0
            = (Raised e, w1)
        end
    end.
Proof.
  apply (missing_mapping_raised_after_imports
           Recorded.recorded_parse Recorded.names_hash
           Recorded.unit_f_src Recorded.func_f_src "Append" None world0
           (Examples.merger_on Recorded.func_f_src) Recorded.unit_f_ast).
  - reflexivity.
  - reflexivity.
  - vm_compute. reflexivity.
  - vm_compute. reflexivity.
Defined.

(** C5 as stated fails: the new unit [import os; def f] merged in APPEND
    mode without a mapping into a target that defines [f] raises
    [MissingMapping] with the import already spliced into the line
    buffer. *)
Lemma missing_mapping_raised_with_imports_inserted :
  let before := Examples.merger_on Recorded.func_f_src in
  let after :=
    merge_tests Recorded.recorded_parse Recorded.names_hash
                Recorded.unit_f_src Recorded.func_f_src "APPEND" None
                world0 in
  fst after = Raised MissingMapping /\
  lines (self before) = ["def f():" +:+ nl; "    pass" +:+ nl] /\
  lines (self (snd after))
  = ["import os" +:+ nl; "def f():" +:+ nl; "    pass" +:+ nl] /\
  lines (self (snd after)) <> lines (self before) /\
  history (snd after) = [mk_event OpAddImports 0 ["import os" +:+ nl]].
Proof.
  vm_compute. repeat split; try reflexivity. intros H. discriminate H.
Qed.

(** ** The entries of the mapping in APPEND mode *)

Lemma resolve_target_missing target_name cls w :
  target_missing target_name cls (self w) ->
  exists msg,
    resolve_target target_name cls w = (Raised (ValueError msg), w).
Proof.
  unfold target_missing, resolve_target, bind, get_self, raise.
  destruct cls as [c|].
  - destruct (cls_map (self w) !! c) as [n|].
    + intros ->. eauto.
    + intros _. eauto.
  - intros ->. eauto.
Qed.

Lemma append_callable_body_fatal parse target_name snippet cls w :
  found_but_incompatible parse target_name snippet cls w ->
  exists msg,
    append_callable_body parse target_name snippet cls w
    = (Raised (ValueError msg), w).
Proof.
  intros [Hm | (t & n & rest & Hr & Hp & Hf & Hs)].
  - destruct (resolve_target_missing _ _ _ Hm) as (msg & E).
    exists msg. unfold append_callable_body.
    now rewrite (bind_Raised _ _ _ _ _ E).
  - destruct (append_callable_body_signatures_differ
                parse target_name snippet cls w t n rest Hr Hp Hf Hs)
      as (c & _ & E).
    eauto.
Qed.

Lemma logging_ValueError_raised {A} prefix (c : M A) w msg w' :
  c w = (Raised (ValueError msg), w') ->
  logging_ValueError prefix c w
  = (Raised (ValueError msg), logged w' [mk_log ERROR (prefix +:+ msg)]).
Proof. intros E. unfold logging_ValueError. rewrite E. reflexivity. Qed.

Lemma append_method_no_entry parse h mapping src_cls merged src_meth snip w :
  mapping !! qualified src_cls src_meth = None ->
  append_method parse h mapping src_cls merged (src_meth, snip) w
  = (Returned merged,
     logged w [mk_log WARNING
                 ("No map for method '" +:+ qualified src_cls src_meth
                  +:+ "'. Skip.")]).
Proof.
  intros E. unfold append_method, qualified in *. rewrite E. reflexivity.
Qed.

Lemma append_method_bad_target
      parse h mapping src_cls merged src_meth snip w t :
  mapping !! qualified src_cls src_meth = Some t ->
  method_target t = None ->
  append_method parse h mapping src_cls merged (src_meth, snip) w
  = (Returned merged,
     logged w [mk_log WARNING
                 ("Target '" +:+ t +:+ "' for '"
                  +:+ qualified src_cls src_meth
                  +:+ "' not 'Cls.meth'. Skip.")]).
Proof.
  intros E Ht. unfold append_method, qualified in *. rewrite E.
  unfold method_target in Ht.
  destruct (split_dot_once t) as [[c m]|]; [|reflexivity].
  destruct (truthy c), (truthy m); try discriminate; reflexivity.
Qed.

Lemma append_method_fatal
      parse h mapping src_cls merged src_meth snip w t c m :
  mapping !! qualified src_cls src_meth = Some t ->
  method_target t = Some (c, m) ->
  found_but_incompatible parse m snip (Some c) w ->
  exists msg,
    append_method parse h mapping src_cls merged (src_meth, snip) w
    = (Raised (ValueError msg),
       logged w [mk_log ERROR
                   (("Fail append " +:+ qualified src_cls src_meth
                     +:+ " to " +:+ t +:+ ": ") +:+ msg)]).
Proof.
  intros E Ht Hf. unfold append_method, qualified in *. rewrite E.
  unfold method_target in Ht.
  destruct (split_dot_once t) as [[c' m']|]; [|discriminate].
  destruct (truthy c') eqn:Ec, (truthy m') eqn:Em; try discriminate.
  simpl in Ht. injection Ht as -> ->. simpl.
  destruct (append_callable_body_fatal _ _ _ _ _ Hf) as (msg & Ea).
  exists msg. apply logging_ValueError_raised.
  now rewrite (bind_Raised _ _ _ _ _ Ea).
Qed.

Lemma append_function_no_entry parse h mapping merged src_func snip w :
  mapping !! src_func = None ->
  append_function parse h mapping merged (src_func, snip) w
  = (Returned merged,
     logged w [mk_log WARNING
                 ("No map for func '" +:+ src_func +:+ "'. Skip.")]).
Proof. intros E. unfold append_function. rewrite E. reflexivity. Qed.

Lemma append_function_bad_target parse h mapping merged src_func snip w t :
  mapping !! src_func = Some t ->
  contains "." t = true ->
  append_function parse h mapping merged (src_func, snip) w
  = (Returned merged,
     logged w [mk_log WARNING
                 ("Map for func '" +:+ src_func +:+ "' -> '" +:+ t
                  +:+ "' (method?). Skip.")]).
Proof. intros E Ht. unfold append_function. rewrite E, Ht. reflexivity. Qed.

Lemma append_function_fatal parse h mapping merged src_func snip w t :
  mapping !! src_func = Some t ->
  contains "." t = false ->
  found_but_incompatible parse t snip None w ->
  exists msg,
    append_function parse h mapping merged (src_func, snip) w
    = (Raised (ValueError msg),
       logged w [mk_log ERROR
                   (("Fail append func '" +:+ src_func +:+ "' to '" +:+ t
                     +:+ "': ") +:+ msg)]).
Proof.
  intros E Ht Hf. unfold append_function. rewrite E, Ht.
  destruct (append_callable_body_fatal _ _ _ _ _ Hf) as (msg & Ea).
  exists msg. apply logging_ValueError_raised.
  now rewrite (bind_Raised _ _ _ _ _ Ea).
Qed.

Lemma append_methods_loop_cons parse h mapping src_cls entry rest more
      merged w :
  append_methods_loop parse h mapping ((src_cls, entry :: rest) :: more)
                      merged w
  = match append_method parse h mapping src_cls merged entry w with
    | (Returned merged', w') =>
        append_methods_loop parse h mapping ((src_cls, rest) :: more)
                            merged' w'
    | (Raised e, w') => (Raised e, w')
    end.
Proof.
  unfold append_methods_loop. simpl. unfold bind.
  destruct (append_method _ _ _ _ _ _ w) as [[m'|e] w']; reflexivity.
Qed.

Lemma append_functions_loop_cons parse h mapping entry rest merged w :
  append_functions_loop parse h mapping (entry :: rest) merged w
  = match append_function parse h mapping merged entry w with
    | (Returned merged', w') =>
        append_functions_loop parse h mapping rest merged' w'
    | (Raised e, w') => (Raised e, w')
    end.
Proof. reflexivity. Qed.

(** In APPEND mode with a mapping, an error of one of the two loops is the
    error of [merge_tests]. *)
Lemma merge_tests_append_propagates
      parse h new_src base_src mode mapping w p w1 :
  upper mode = "APPEND" ->
  no_mapping mapping = false ->
  walk_and_import parse h new_src base_src "APPEND" w = (Returned p, w1) ->
  merge_tests parse h new_src base_src mode mapping w
  = match append_methods_loop parse h (default ∅ mapping)
            (pending_methods_for_append p) (merged_test_funcs p) w1 with
    | (Raised e, w2) => (Raised e, w2)
    | (Returned merged, w2) =>
        match append_functions_loop parse h (default ∅ mapping)
                (pending_functions_for_append p) merged w2 with
        | (Raised e, w3) => (Raised e, w3)
        | (Returned merged', w3) =>
            (Returned (concat (lines (self w3)), merged'), w3)
        end
    end.
Proof.
  intros Hm Hn Hw. unfold merge_tests. rewrite Hm.
  rewrite (bind_Returned _ _ _ _ _ Hw). simpl. rewrite Hn.
  unfold bind.
  destruct (append_methods_loop _ _ _ _ _ w1) as [[m|e] w2]; [|reflexivity].
  destruct (append_functions_loop _ _ _ _ _ w2) as [[m'|e] w3];
    reflexivity.
Qed.

(** C6: in APPEND mode, a method or function of the new unit whose
    qualified name has no entry in the mapping, or whose mapped target has
    not the expected shape ([Class.method] for a method, a name without a
    dot for a function), is skipped: a warning is logged, nothing else
    changes, and the loop goes on with the remaining entries.  An entry
    that resolves but whose target is missing from the target source, or
    whose signature differs, raises a [ValueError] that ends the loop,
    whatever entries remain, and that [merge_tests] raises in turn. *)
Theorem append_mode_skips_unresolved_and_aborts_on_incompatible :
  forall parse h (mapping : gmap string string) merged w,
    (* methods *)
    (forall src_cls src_meth snip rest more,
        (mapping !! qualified src_cls src_meth = None ->
         append_methods_loop parse h mapping
           ((src_cls, (src_meth, snip) :: rest) :: more) merged w
         = append_methods_loop parse h mapping
             ((src_cls, rest) :: more) merged
             (logged w [mk_log WARNING
                          ("No map for method '"
                           +:+ qualified src_cls src_meth +:+ "'. Skip.")]))
        /\ (forall t,
               mapping !! qualified src_cls src_meth = Some t ->
               method_target t = None ->
               append_methods_loop parse h mapping
                 ((src_cls, (src_meth, snip) :: rest) :: more) merged w
               = append_methods_loop parse h mapping
                   ((src_cls, rest) :: more) merged
                   (logged w [mk_log WARNING
                                ("Target '" +:+ t +:+ "' for '"
                                 +:+ qualified src_cls src_meth
                                 +:+ "' not 'Cls.meth'. Skip.")]))
        /\ (forall t c m,
               mapping !! qualified src_cls src_meth = Some t ->
               method_target t = Some (c, m) ->
               found_but_incompatible parse m snip (Some c) w ->
               exists msg,
                 append_methods_loop parse h mapping
                   ((src_cls, (src_meth, snip) :: rest) :: more) merged w
                 = (Raised (ValueError msg),
                    logged w [mk_log ERROR
                                (("Fail append "
                                  +:+ qualified src_cls src_meth
                                  +:+ " to " +:+ t +:+ ": ") +:+ msg)])))
    (* functions *)
    /\ (forall src_func snip rest,
           (mapping !! src_func = None ->
            append_functions_loop parse h mapping
              ((src_func, snip) :: rest) merged w
            = append_functions_loop parse h mapping rest merged
                (logged w [mk_log WARNING
                             ("No map for func '" +:+ src_func
                              +:+ "'. Skip.")]))
           /\ (forall t,
                  mapping !! src_func = Some t ->
                  contains "." t = true ->
                  append_functions_loop parse h mapping
                    ((src_func, snip) :: rest) merged w
                  = append_functions_loop parse h mapping rest merged
                      (logged w [mk_log WARNING
                                   ("Map for func '" +:+ src_func
                                    +:+ "' -> '" +:+ t
                                    +:+ "' (method?). Skip.")]))
           /\ (forall t,
                  mapping !! src_func = Some t ->
                  contains "." t = false ->
                  found_but_incompatible parse t snip None w ->
                  exists msg,
                    append_functions_loop parse h mapping
                      ((src_func, snip) :: rest) merged w
                    = (Raised (ValueError msg),
                       logged w [mk_log ERROR
                                   (("Fail append func '" +:+ src_func
                                     +:+ "' to '" +:+ t +:+ "': ")
                                    +:+ msg)])))
    (* the error of a loop is the error of the merge *)
    /\ (forall new_src base_src mode w0 p,
           upper mode = "APPEND" ->
           mapping <> ∅ ->
           walk_and_import parse h new_src base_src "APPEND" w0
           = (Returned p, w) ->
           merged = merged_test_funcs p ->
           (forall e w2,
               append_methods_loop parse h mapping
                 (pending_methods_for_append p) merged w = (Raised e, w2) ->
               merge_tests parse h new_src base_src mode (Some mapping) w0
               = (Raised e, w2))
           /\ (forall merged' w2 e w3,
                  append_methods_loop parse h mapping
                    (pending_methods_for_append p) merged w
                  = (Returned merged', w2) ->
                  append_functions_loop parse h mapping
                    (pending_functions_for_append p) merged' w2
                  = (Raised e, w3) ->
                  merge_tests parse h new_src base_src mode (Some mapping) w0
                  = (Raised e, w3))).
Proof.
  intros parse h mapping merged w. split; [|split].
  - intros src_cls src_meth snip rest more. split; [|split].
    + intros E. rewrite append_methods_loop_cons.
      now rewrite (append_method_no_entry parse h _ _ _ _ snip w E).
    + intros t E Ht. rewrite append_methods_loop_cons.
      now rewrite (append_method_bad_target parse h _ _ _ _ snip w t E Ht).
    + intros t c m E Ht Hf.
      destruct (append_method_fatal parse h _ _ merged _ _ _ _ _ _ E Ht Hf)
        as (msg & Ea).
      exists msg. rewrite append_methods_loop_cons. now rewrite Ea.
  - intros src_func snip rest. split; [|split].
    + intros E. rewrite append_functions_loop_cons.
      now rewrite (append_function_no_entry parse h _ _ _ snip w E).
    + intros t E Ht. rewrite append_functions_loop_cons.
      now rewrite (append_function_bad_target parse h _ _ _ snip w t E Ht).
    + intros t E Ht Hf.
      destruct (append_function_fatal parse h _ merged _ _ _ _ E Ht Hf)
        as (msg & Ea).
      exists msg. rewrite append_functions_loop_cons. now rewrite Ea.
  - intros new_src base_src mode w0 p Hm Hne Hw ->.
    assert (Hn : no_mapping (Some mapping) = false).
    { simpl. now apply bool_decide_eq_false_2. }
    pose proof (merge_tests_append_propagates
                  parse h new_src base_src mode (Some mapping) w0 p w
                  Hm Hn Hw) as E.
    simpl in E. split.
    + intros e w2 El. now rewrite El in E.
    + intros merged' w2 e w3 El Ef. now rewrite El, Ef in E.
Qed.

Lemma append_mode_skips_unresolved_and_aborts_on_incompatible_witness :
  (* no entry for [Test.case]: skipped, the loop goes on (and ends) *)
  append_methods_loop Recorded.recorded_parse Recorded.names_hash
    MappingExamples.other_mapping MappingExamples.case_pending []
    MappingExamples.case_world
  = (Returned [],
     logged MappingExamples.case_world
            [mk_log WARNING "No map for method 'Test.case'. Skip."])
  (* [Test.case] mapped to a method with another signature: fatal *)
  /\ exists msg,
      append_methods_loop Recorded.recorded_parse Recorded.names_hash
        MappingExamples.case_mapping MappingExamples.case_pending []
        MappingExamples.case_world
      = (Raised (ValueError msg),
         logged MappingExamples.case_world
                [mk_log ERROR
                   ("Fail append Test.case to Test.case: " +:+ msg)]).
Proof.
  split.
  - destruct (append_mode_skips_unresolved_and_aborts_on_incompatible
                Recorded.recorded_parse Recorded.names_hash
                MappingExamples.other_mapping [] MappingExamples.case_world)
      as (Hm & _ & _).
    destruct (Hm "Test" MappingExamples.case_new_method
                 Examples.case_method_snippet [] []) as (Hskip & _ & _).
    assert (E : MappingExamples.other_mapping
                !! qualified "Test" MappingExamples.case_new_method = None)
      by (vm_compute; reflexivity).
    exact (Hskip E).
  - destruct (append_mode_skips_unresolved_and_aborts_on_incompatible
                Recorded.recorded_parse Recorded.names_hash
                MappingExamples.case_mapping [] MappingExamples.case_world)
      as (Hm & _ & _).
    destruct (Hm "Test" MappingExamples.case_new_method
                 Examples.case_method_snippet [] []) as (_ & _ & Hfatal).
    apply (Hfatal "Test.case" "Test" "case").
    + vm_compute. reflexivity.
    + reflexivity.
    + right. exists Examples.case_target, Examples.case_new, [].
      split; [vm_compute; reflexivity|].
      split; [vm_compute; reflexivity|].
      split; [reflexivity|].
      vm_compute. intros H. discriminate H.
Defined.

(** ** The history of splices *)

Lemma emits_list_mono {A} (P Q : list splice_event -> Prop) (c : M A) :
  (forall hs, P hs -> Q hs) -> emits_list P c -> emits_list Q c.
Proof.
  intros HPQ Hc w. destruct (Hc w) as (hs & E & HP). eauto.
Qed.

Lemma silent_emits {A} R (c : M A) : silent c -> emits R c.
Proof.
  apply emits_list_mono. intros hs ->. constructor.
Qed.

Lemma emits_list_bind {A B} P Q (c : M A) (k : A -> M B) :
  emits_list P c -> (forall a, emits_list Q (k a)) -> Q [] ->
  emits_list (fun hs => exists h1 h2, hs = h1 ++ h2 /\ P h1 /\ Q h2)
             (bind c k).
Proof.
  intros Hc Hk Hnil w. unfold bind.
  destruct (Hc w) as (h1 & E1 & HP).
  destruct (c w) as [[a|e] w1]; simpl in E1.
  - destruct (Hk a w1) as (h2 & E2 & HQ).
    exists (h1 ++ h2). split.
    + rewrite E2, E1. now rewrite app_assoc.
    + eauto.
  - exists h1. simpl. split; [exact E1|].
    exists h1, []. rewrite app_nil_r. eauto.
Qed.

Lemma emits_bind {A B} R (c : M A) (k : A -> M B) :
  emits R c -> (forall a, emits R (k a)) -> emits R (bind c k).
Proof.
  intros Hc Hk.
  eapply emits_list_mono;
    [|apply (emits_list_bind _ _ c k Hc Hk); constructor].
  intros hs (h1 & h2 & -> & H1 & H2). apply Forall_app. now split.
Qed.

Lemma silent_bind {A B} (c : M A) (k : A -> M B) :
  silent c -> (forall a, silent (k a)) -> silent (bind c k).
Proof.
  intros Hc Hk.
  eapply emits_list_mono;
    [|apply (emits_list_bind _ _ c k Hc Hk); reflexivity].
  now intros hs (h1 & h2 & -> & -> & ->).
Qed.

Lemma silent_same_history {A} (c : M A) :
  (forall w, history (snd (c w)) = history w) -> silent c.
Proof. intros H w. exists []. rewrite app_nil_r. eauto. Qed.

Lemma silent_ret {A} (a : A) : silent (ret a).
Proof. now apply silent_same_history. Qed.

Lemma silent_raise {A} e : silent (@raise A e).
Proof. now apply silent_same_history. Qed.

Lemma silent_log l m : silent (log l m).
Proof. now apply silent_same_history. Qed.

Lemma silent_set_lines ls : silent (set_lines ls).
Proof. now apply silent_same_history. Qed.

Lemma silent_set_index t c f : silent (set_index t c f).
Proof. now apply silent_same_history. Qed.

Lemma silent_get_self {A} (k : Merger -> M A) :
  (forall m, silent (k m)) -> silent (bind get_self k).
Proof. intros Hk w. unfold bind, get_self. apply Hk. Qed.

Lemma emits_get_self {A} R (k : Merger -> M A) :
  (forall m, emits R (k m)) -> emits R (bind get_self k).
Proof. intros Hk w. unfold bind, get_self. apply Hk. Qed.

Lemma silent_log_only {A} (c : M A) : log_only c -> silent c.
Proof.
  intros H. apply silent_same_history. intros w.
  destruct (H w) as (a & l & E). now rewrite E.
Qed.

(** A record written to the log, then a return or a raise: no splice. *)
Ltac logs_only :=
  apply silent_emits, silent_bind; [apply silent_log|];
  intros _; first [apply silent_ret | apply silent_raise].

Lemma emits_fold_M {A S} R (f : S -> A -> M S) (l : list A) :
  (forall s x, emits R (f s x)) -> forall s, emits R (fold_M f l s).
Proof.
  intros Hf. induction l as [|x r IH]; intros s; simpl.
  - apply silent_emits, silent_ret.
  - apply emits_bind; [apply Hf|exact IH].
Qed.

Lemma emits_splice op ls pos payload (R : splice_event -> Prop) :
  R (mk_event op pos payload) -> emits R (splice op ls pos payload).
Proof.
  intros HR w. exists [mk_event op pos payload]. split; [reflexivity|].
  now repeat constructor.
Qed.

Lemma silent_refresh_index parse : silent (_refresh_index parse).
Proof.
  unfold _refresh_index. apply silent_get_self. intros m.
  destruct (negb (truthy (strip (concat (lines m))))).
  - apply silent_set_index.
  - match goal with |- silent (match parse ?s with _ => _ end) =>
      destruct (parse s) as [t|e]
    end.
    + destruct (_index t) as [[i c] f].
      apply silent_bind; [apply silent_set_index|].
      intros _. apply silent_set_lines.
    + apply silent_bind; [apply silent_log|]. intros _. apply silent_raise.
Qed.

Lemma silent_Merger_init parse base_src : silent (Merger_init parse base_src).
Proof.
  unfold Merger_init.
  apply silent_bind; [apply silent_set_lines|].
  intros _. apply silent_refresh_index.
Qed.

Lemma emits_splice_refresh parse op ls pos payload R :
  R (mk_event op pos payload) ->
  emits R (splice op ls pos payload ;; _refresh_index parse).
Proof.
  intros HR. apply emits_bind; [now apply emits_splice|].
  intros _. apply silent_emits, silent_refresh_index.
Qed.

Lemma history_splice_refresh parse op ls pos payload w :
  history (snd ((splice op ls pos payload ;; _refresh_index parse) w))
  = history w ++ [mk_event op pos payload].
Proof.
  unfold bind. rewrite splice_spliced.
  destruct (silent_refresh_index parse (spliced w op ls pos payload))
    as (hs & E & ->).
  rewrite E. simpl. now rewrite app_nil_r.
Qed.

Lemma emits_add_class_or_func parse snippet :
  emits_list (fun hs => exists pos prefix,
                  hs = [mk_event OpAddClassOrFunc pos
                                 [prefix +:+ ensure_newline snippet]])
             (add_class_or_func parse snippet).
Proof.
  intros w. unfold add_class_or_func. unfold bind at 1, get_self.
  match goal with
  | |- context [let '(p, l) := ?x in _] => destruct x as [prefix ls]
  end.
  eexists. split; [apply history_splice_refresh|]. eauto.
Qed.

Lemma emits_add_queued_imports parse p :
  emits_list (fun hs => (length hs <= 1)%nat /\ Forall is_imports hs)
             (add_queued_imports parse p).
Proof.
  intros w. rewrite add_queued_imports_cases.
  destruct (new_imports_to_add p) as [|i is_].
  - exists []. simpl. rewrite app_nil_r. repeat split; [lia|constructor].
  - destruct (silent_refresh_index parse
                (spliced w OpAddImports (lines (self w))
                         (_last_import_line (tree (self w))) (i :: is_)))
      as (hs & E & ->).
    eexists. split; [rewrite E; simpl; now rewrite app_nil_r|].
    simpl. split; [lia|]. repeat constructor.
Qed.

Lemma emits_add_methods parse class_name methods :
  emits (fun e => ev_op e = OpAddMethods class_name)
        (add_methods parse class_name methods).
Proof.
  unfold add_methods. apply emits_get_self. intros m.
  destruct (cls_map m !! class_name) as [cls_node|].
  - match goal with
    | |- context [let '(l, p) := ?x in _] => destruct x as [ls payload]
    end.
    now apply emits_splice_refresh.
  - apply silent_emits, silent_log.
Qed.

Lemma silent_resolve_target target_name cls :
  silent (resolve_target target_name cls).
Proof.
  apply silent_same_history. intros w.
  destruct (resolve_target target_name cls w) as [r w'] eqn:E.
  now rewrite (resolve_target_keeps_world _ _ _ _ _ E).
Qed.

Lemma silent_resolve_target_again target_name cls :
  silent (resolve_target_again target_name cls).
Proof.
  unfold resolve_target_again. apply silent_get_self. intros m.
  destruct cls as [c|].
  - destruct (cls_map m !! c) as [n|]; [|apply silent_raise].
    destruct (find_method n target_name);
      [apply silent_ret|apply silent_raise].
  - destruct (fn_map m !! target_name);
      [apply silent_ret|apply silent_raise].
Qed.

Lemma silent_parse_new_callable parse target_name snippet :
  silent (parse_new_callable parse target_name snippet).
Proof.
  unfold parse_new_callable.
  destruct (parse (dedent snippet)) as [[|n r]|e]; try apply silent_raise.
  destruct (Ast.is_FunctionDef n); [apply silent_ret|apply silent_raise].
Qed.

Lemma silent_signature_gate target_name n t :
  silent (signature_gate target_name n t).
Proof.
  unfold signature_gate.
  destruct (_signatures_match _ _) as [[|] reason]; simpl;
    [apply silent_ret|apply silent_raise].
Qed.

Lemma log_only_new_decorators indent dedented n t :
  log_only (new_decorators indent dedented n t).
Proof.
  unfold new_decorators. apply log_only_get_self. intros m.
  apply log_only_bind.
  - apply log_only_map_M. intros d.
    apply log_only_bind; [apply log_only_segment|].
    intros s. apply log_only_ret.
  - intros ts. apply log_only_fold_M. intros acc d.
    apply log_only_bind; [apply log_only_segment|]. intros s.
    destruct (negb (truthy s)); [apply log_only_ret|].
    destruct (negb _); apply log_only_ret.
Qed.

Lemma emits_merge_decorators parse target_name cls dedented n t :
  emits (fun e => ev_op e = OpDecorators target_name cls)
        (merge_decorators parse target_name cls dedented n t).
Proof.
  unfold merge_decorators. apply emits_get_self. intros m.
  destruct (negb (PyList.in_range _ _)).
  { apply silent_emits, silent_raise. }
  destruct (negb (_ || _)).
  { logs_only. }
  apply emits_bind.
  { apply silent_emits, silent_log_only, log_only_new_decorators. }
  intros [|d ds].
  - apply silent_emits, silent_ret.
  - apply emits_bind; [now apply emits_splice|]. intros _.
    apply silent_emits, silent_bind; [apply silent_refresh_index|].
    intros _. apply silent_resolve_target_again.
Qed.

Lemma emits_append_body parse target_name cls dedented n t :
  emits (fun e => ev_op e = OpBody target_name cls)
        (append_body parse target_name cls dedented n t).
Proof.
  unfold append_body.
  destruct (negb (truthy (strip (body_to_append dedented n)))).
  { apply silent_emits, silent_ret. }
  apply emits_get_self. intros m.
  destruct (body_target (lines m) t) as [idx indent].
  destruct (body_separator (lines m) idx) as [prefix ls].
  now apply emits_splice_refresh.
Qed.

Lemma emits_append_callable_body parse target_name snippet cls :
  emits (is_append_on target_name cls)
        (append_callable_body parse target_name snippet cls).
Proof.
  unfold append_callable_body.
  apply emits_bind; [apply silent_emits, silent_resolve_target|].
  intros t.
  apply emits_bind; [apply silent_emits, silent_parse_new_callable|].
  intros [dedented n].
  apply emits_bind; [apply silent_emits, silent_signature_gate|].
  intros _.
  apply emits_bind.
  - eapply emits_list_mono; [|apply emits_merge_decorators].
    intros hs H. eapply Forall_impl; [exact H|]. intros e He. now left.
  - intros t'. eapply emits_list_mono; [|apply emits_append_body].
    intros hs H. eapply Forall_impl; [exact H|]. intros e He. now right.
Qed.

Lemma emits_logging_ValueError {A} R prefix (c : M A) :
  emits R c -> emits R (logging_ValueError prefix c).
Proof.
  intros Hc w. destruct (Hc w) as (hs & E & HR).
  exists hs. split; [|exact HR].
  unfold logging_ValueError.
  destruct (c w) as [[a|[msg|msg|msg]] w']; exact E.
Qed.

Lemma segment_returns src n w :
  exists l,
    _get_node_source_segment_v2 src n w
    = (Returned (segment_text src n), logged w l).
Proof.
  unfold _get_node_source_segment_v2, segment_text.
  destruct (negb (truthy (source_segment src n))).
  - eexists. reflexivity.
  - exists []. now rewrite logged_nil.
Qed.

Lemma emits_list_after_value {A B} P (c : M A) (k : A -> M B) v :
  (forall w, exists l, c w = (Returned v, logged w l)) ->
  emits_list P (k v) -> emits_list P (bind c k).
Proof.
  intros Hc Hk w. destruct (Hc w) as (l & E).
  unfold bind. rewrite E. apply (Hk (logged w l)).
Qed.

Lemma emits_list_after_log_only {A B} P (c : M A) (k : A -> M B) :
  log_only c -> (forall a, emits_list P (k a)) -> emits_list P (bind c k).
Proof.
  intros Hc Hk w. destruct (Hc w) as (a & l & E).
  unfold bind. rewrite E. apply (Hk a (logged w l)).
Qed.

Lemma emits_list_ret {A} (P : list splice_event -> Prop) (a : A) :
  P [] -> emits_list P (ret a).
Proof. intros H w. exists []. simpl. rewrite app_nil_r. eauto. Qed.

Lemma emits_list_then_ret {A B} P (c : M A) (b : B) :
  emits_list P c -> emits_list P (c ;; ret b).
Proof.
  intros Hc w. destruct (Hc w) as (hs & E & HP). exists hs.
  split; [|exact HP]. unfold bind. now destruct (c w) as [[a|e] w'].
Qed.

(** One statement of the new unit splices nothing, or, in ADD mode, appends
    the statement itself, a class or a function, to the file. *)
Lemma emits_walk_node parse h new_src mode p node :
  emits_list (fun hs => hs = []
                        \/ (mode = "ADD" /\
                            exists e, hs = [e]
                                      /\ whole_insertion new_src node e))
             (walk_node parse h new_src mode p node).
Proof.
  unfold walk_node.
  eapply emits_list_after_value; [apply segment_returns|].
  destruct (negb (truthy (segment_text new_src (Ast.NStmt node)))).
  { apply emits_list_ret. now left. }
  destruct (Ast.is_import node).
  { destruct (negb _); apply emits_list_ret; now left. }
  destruct (Ast.is_ClassDef node) eqn:Ec.
  { apply emits_list_after_log_only;
      [apply log_only_methods_in_new_class|].
    intros ms.
    destruct (String.eqb mode "ADD") eqn:Em.
    - apply String.eqb_eq in Em.
      intros w. unfold bind at 1, get_self.
      destruct (cls_map (self w) !! Ast.name node).
      + apply emits_list_ret. now left.
      + apply emits_list_then_ret.
        eapply emits_list_mono; [|apply emits_add_class_or_func].
        intros hs (pos & prefix & ->). right. split; [exact Em|].
        eexists. split; [reflexivity|].
        split; [now left|]. split; [reflexivity|]. now exists prefix.
    - destruct (String.eqb mode "APPEND"); apply emits_list_ret; now left. }
  destruct (Ast.is_FunctionDef node) eqn:Ef.
  { destruct (String.eqb mode "ADD") eqn:Em.
    - apply String.eqb_eq in Em.
      intros w. unfold bind at 1, get_self.
      destruct (fn_map (self w) !! Ast.name node).
      + apply emits_list_ret. now left.
      + apply emits_list_then_ret.
        eapply emits_list_mono; [|apply emits_add_class_or_func].
        intros hs (pos & prefix & ->). right. split; [exact Em|].
        eexists. split; [reflexivity|].
        split; [now right|]. split; [reflexivity|]. now exists prefix.
    - destruct (String.eqb mode "APPEND"); apply emits_list_ret; now left. }
  apply emits_list_ret. now left.
Qed.

Lemma emits_walk_fold parse h new_src mode new_tree :
  forall p,
    emits_list (walk_events mode new_src new_tree)
               (fold_M (walk_node parse h new_src mode) new_tree p).
Proof.
  induction new_tree as [|node rest IH]; intros p; simpl.
  - apply emits_list_ret. split; [|reflexivity].
    exists []. split; constructor.
  - eapply emits_list_mono;
      [|apply (emits_list_bind _ _ _ _
                 (emits_walk_node parse h new_src mode p node) IH)].
    + intros hs (h1 & h2 & -> & H1 & ((ns & Hs & HF) & Hm)).
      destruct H1 as [->|(Em & e & -> & He)].
      * simpl. split; [|exact Hm].
        exists ns. split; [now apply sublist_cons|exact HF].
      * split.
        -- exists (node :: ns). split; [now apply sublist_skip|].
           simpl. now constructor.
        -- intros Hne. now destruct Hne.
    + split; [|reflexivity]. exists []. split; [|constructor].
      apply sublist_nil_l.
Qed.

Lemma emits_walk parse h new_src mode new_tree :
  emits_list (walk_events mode new_src new_tree)
             (walk parse h new_src mode new_tree).
Proof.
  unfold walk. intros w. unfold bind, get_self. apply emits_walk_fold.
Qed.

Lemma emits_add_pending_methods parse h merged entry :
  emits is_added_methods (add_pending_methods parse h merged entry).
Proof.
  unfold add_pending_methods. destruct entry as [cls_name new_methods].
  apply emits_get_self. intros m.
  destruct (cls_map m !! cls_name) as [cls_node|];
    [|apply silent_emits, silent_ret].
  match goal with
  | |- emits _ (match ?l with [] => _ | _ :: _ => _ end) => destruct l
  end; [apply silent_emits, silent_ret|].
  apply emits_bind; [|intros _; apply silent_emits, silent_ret].
  eapply emits_list_mono; [|apply emits_add_methods].
  intros hs H. eapply Forall_impl; [exact H|]. intros e He. now exists cls_name.
Qed.

Lemma emits_append_method parse h mapping src_cls merged entry :
  emits is_method_append (append_method parse h mapping src_cls merged entry).
Proof.
  unfold append_method. destruct entry as [src_meth new_snip].
  destruct (mapping !! _) as [target_fq|].
  2:{ logs_only. }
  assert (Hbad : forall (warning : string),
             emits is_method_append (log WARNING warning ;; ret merged)).
  { intros warning. logs_only. }
  destruct (split_dot_once target_fq) as [[tgt_cls tgt_meth]|];
    [|apply Hbad].
  destruct (negb (truthy tgt_cls) || negb (truthy tgt_meth));
    [apply Hbad|].
  apply emits_logging_ValueError.
  apply emits_bind; [|intros _; apply silent_emits, silent_ret].
  eapply emits_list_mono; [|apply emits_append_callable_body].
  intros hs H. eapply Forall_impl; [exact H|].
  intros e He. now exists tgt_meth, tgt_cls.
Qed.

Lemma emits_append_function parse h mapping merged entry :
  emits is_function_append (append_function parse h mapping merged entry).
Proof.
  unfold append_function. destruct entry as [src_func new_snip].
  destruct (mapping !! src_func) as [target_func|].
  2:{ logs_only. }
  destruct (contains "." target_func).
  { logs_only. }
  apply emits_logging_ValueError.
  apply emits_bind; [|intros _; apply silent_emits, silent_ret].
  eapply emits_list_mono; [|apply emits_append_callable_body].
  intros hs H. eapply Forall_impl; [exact H|].
  intros e He. now exists target_func.
Qed.

Lemma emits_append_methods_loop parse h mapping pending merged :
  emits is_method_append
        (append_methods_loop parse h mapping pending merged).
Proof.
  unfold append_methods_loop. apply emits_fold_M.
  intros s [src_cls meth_list]. apply emits_fold_M.
  intros s' entry. apply emits_append_method.
Qed.

Lemma emits_append_functions_loop parse h mapping pending merged :
  emits is_function_append
        (append_functions_loop parse h mapping pending merged).
Proof.
  unfold append_functions_loop. apply emits_fold_M.
  intros s entry. apply emits_append_function.
Qed.

Lemma late_events_nil mode : late_events mode [].
Proof.
  split; [|split].
  - constructor.
  - intros _. exists [], []. repeat split; constructor.
  - reflexivity.
Qed.

(** The splices of [walk_and_import]: those of the walk, then at most one
    for the imports. *)
Lemma emits_walk_and_import parse h new_src base_src mode :
  emits_list
    (fun hs =>
       exists h_walk h_imports,
         hs = h_walk ++ h_imports /\
         match parse new_src with
         | Ast.Parsed new_tree => walk_events mode new_src new_tree h_walk
         | Ast.SyntaxErr _ => h_walk = []
         end /\
         (length h_imports <= 1)%nat /\ Forall is_imports h_imports)
    (walk_and_import parse h new_src base_src mode).
Proof.
  unfold walk_and_import.
  match goal with |- emits_list ?P _ => set (T := P) end.
  apply (emits_list_mono
           (fun hs => exists h1 h2, hs = h1 ++ h2 /\ h1 = [] /\ T h2)).
  { intros hs (h1 & h2 & -> & -> & H). exact H. }
  apply emits_list_bind; [apply silent_Merger_init| |]; subst T; simpl.
  - intros _. destruct (parse new_src) as [new_tree|msg].
    + eapply emits_list_mono;
        [|apply (emits_list_bind _ _ _ _
                   (emits_walk parse h new_src mode new_tree)
                   (fun p => emits_list_then_ret _ _ p
                               (emits_add_queued_imports parse p)))].
      * intros hs (h1 & h2 & -> & H1 & H2 & H3). exists h1, h2. eauto.
      * simpl. split; [lia|constructor].
    + eapply emits_list_mono; [|apply silent_raise].
      intros hs ->. exists [], []. repeat split; simpl; [lia|constructor].
  - destruct (parse new_src) as [new_tree|msg].
    + exists [], []. repeat split; simpl; try lia; try constructor.
      exists []. split; [apply sublist_nil_l|constructor].
    + exists [], []. repeat split; simpl; [lia|constructor].
Qed.

(** The splices after the imports. *)
Lemma emits_late parse h mode mapping p :
  emits_list (late_events mode)
    (if String.eqb mode "ADD" then
       fold_M (add_pending_methods parse h) (pending_methods_for_add p)
              (merged_test_funcs p)
     else if String.eqb mode "APPEND" then
       if no_mapping mapping then raise MissingMapping
       else
         let* merged :=
           append_methods_loop parse h (default ∅ mapping)
             (pending_methods_for_append p) (merged_test_funcs p) in
         append_functions_loop parse h (default ∅ mapping)
           (pending_functions_for_append p) merged
     else if String.eqb mode "FOLD" then
       raise (NotImplementedError "FOLD mode not implemented yet")
     else raise (ValueError ("Unknown test merge mode: " +:+ mode))).
Proof.
  destruct (String.eqb mode "ADD") eqn:Ea.
  { apply String.eqb_eq in Ea. subst mode.
    eapply emits_list_mono;
      [|apply emits_fold_M; intros; apply emits_add_pending_methods].
    intros hs H. split; [|split]; [now intros _|discriminate|congruence]. }
  apply String.eqb_neq in Ea.
  destruct (String.eqb mode "APPEND") eqn:Ep.
  { apply String.eqb_eq in Ep. subst mode.
    destruct (no_mapping mapping).
    - eapply emits_list_mono; [|apply silent_raise].
      intros hs ->. apply late_events_nil.
    - eapply emits_list_mono;
        [|apply (emits_list_bind _ _ _ _
                   (emits_append_methods_loop parse h _ _ _)
                   (fun merged =>
                      emits_append_functions_loop parse h _ _ merged));
          constructor].
      intros hs (hm & hf & -> & Hm & Hf).
      split; [|split]; [congruence| |congruence].
      intros _. now exists hm, hf. }
  apply String.eqb_neq in Ep.
  assert (Hnone : forall hs, hs = [] -> late_events mode hs).
  { intros hs ->. apply late_events_nil. }
  destruct (String.eqb mode "FOLD");
    (eapply emits_list_mono; [exact Hnone|apply silent_raise]).
Qed.

Lemma emits_list_then_silent {A B} P (c : M A) (k : A -> M B) :
  emits_list P c -> (forall a, silent (k a)) -> emits_list P (bind c k).
Proof.
  intros Hc Hk w. destruct (Hc w) as (hs & E & HP).
  unfold bind. destruct (c w) as [[a|e] w1]; simpl in E.
  - destruct (Hk a w1) as (h2 & E2 & ->).
    exists hs. rewrite E2, E. now rewrite app_nil_r.
  - exists hs. eauto.
Qed.

Lemma silent_result : silent result.
Proof.
  unfold result. apply silent_get_self. intros m. apply silent_ret.
Qed.

(** The splices of one call of [merge_tests], in their order: those of the
    walk, at most one for the imports, those of the mode. *)
Lemma merge_splices_in_order :
  forall parse h new_src base_src mode mapping new_tree w,
    parse new_src = Ast.Parsed new_tree ->
    exists hs,
      history (snd (merge_tests parse h new_src base_src mode mapping w))
      = history w ++ hs /\
      merge_order (upper mode) new_src new_tree hs.
Proof.
  intros parse h new_src base_src mode mapping new_tree w Hp.
  unfold merge_tests.
  pose proof (emits_walk_and_import parse h new_src base_src (upper mode))
    as Hw.
  rewrite Hp in Hw.
  pose proof
    (emits_list_bind _ _ _
       (fun p =>
          let* merged :=
            if String.eqb (upper mode) "ADD" then
              fold_M (add_pending_methods parse h)
                     (pending_methods_for_add p) (merged_test_funcs p)
            else if String.eqb (upper mode) "APPEND" then
              if no_mapping mapping then
                raise (ValueError "--map is required in APPEND mode.")
              else
                let* merged :=
                  append_methods_loop parse h (default ∅ mapping)
                    (pending_methods_for_append p) (merged_test_funcs p) in
                append_functions_loop parse h (default ∅ mapping)
                  (pending_functions_for_append p) merged
            else if String.eqb (upper mode) "FOLD" then
              raise (NotImplementedError "FOLD mode not implemented yet")
            else raise (ValueError ("Unknown test merge mode: "
                                    +:+ upper mode)) in
          let* text := result in ret (text, merged))
       Hw
       (fun p =>
          emits_list_then_silent _ _ _
            (emits_late parse h (upper mode) mapping p)
            (fun merged =>
               silent_bind _ _ silent_result
                           (fun text => silent_ret (text, merged))))
       (late_events_nil (upper mode)) w) as (hs & E & H).
  exists hs. split; [exact E|].
  destruct H as (h1 & h_late & -> & (h_walk & h_imp & -> & Hwalk & Hlen & Himp)
                 & Hlate).
  exists h_walk, h_imp, h_late. rewrite <- app_assoc. eauto 10.
Qed.

(** C8 as stated fails: merging the unit [import os; def f] into an empty
    file in ADD mode splices the function first and the import after it. *)
Lemma function_inserted_before_import :
  history (snd (merge_tests Recorded.recorded_parse Recorded.names_hash
                            Recorded.unit_f_src "" "ADD" None world0))
  = [mk_event OpAddClassOrFunc 0 [Recorded.func_f_src];
     mk_event OpAddImports 0 [Recorded.import_os_src]]
  /\ ~ imports_first
        (history (snd (merge_tests Recorded.recorded_parse
                                   Recorded.names_hash Recorded.unit_f_src
                                   "" "ADD" None world0))).
Proof.
  assert (E : history (snd (merge_tests Recorded.recorded_parse
                                        Recorded.names_hash
                                        Recorded.unit_f_src
                                        "" "ADD" None world0))
              = [mk_event OpAddClassOrFunc 0 [Recorded.func_f_src];
                 mk_event OpAddImports 0 [Recorded.import_os_src]])
    by (vm_compute; reflexivity).
  split; [exact E|].
  rewrite E. intros H.
  specialize (H 1%nat 0%nat _ _ eq_refl eq_refl eq_refl eq_refl). lia.
Qed.

(** ** The decorators of an append *)





Lemma signatures_equal_match a b :
  signature a = signature b -> _signatures_match a b = (true, "").
Proof.
  unfold signature. intros H. injection H as E1 E2 E3 E4 E5.
  unfold _signatures_match.
  rewrite !bool_decide_eq_true_2 by assumption. reflexivity.
Qed.









(** A decorator that shares its line with a comment does not stand alone:
    the text of its line is not the text of the decorator [a] of the new
    callable, and [a] is inserted although the target has it. *)
Lemma decorator_beside_a_comment_is_inserted_again :
  take 3 (lines (self DecoratorExample.noted_before))
  = ["@a  # note" +:+ nl; "def f():" +:+ nl; "    pass" +:+ nl] /\
  take 3 (lines (self DecoratorExample.noted_after))
  = ["@a  # note" +:+ nl; "@a" +:+ nl; "def f():" +:+ nl].
Proof. vm_compute. split; reflexivity. Qed.

(** ** Strings and lines *)

Lemma concat_cons (x : string) (xs : list string) :
  concat (x :: xs) = x +:+ concat xs.
Proof.
  unfold concat. destruct xs as [|y ys]; simpl.
  - now rewrite str_app_nil_r.
  - reflexivity.
Qed.

Lemma concat_app (xs ys : list string) :
  concat (xs ++ ys) = concat xs +:+ concat ys.
Proof.
  induction xs as [|x r IH].
  - reflexivity.
  - rewrite <- app_comm_cons, !concat_cons, IH. now rewrite str_app_assoc.
Qed.

Lemma concat_splitlines_keepends_le n :
  forall s, (String.length s <= n)%nat ->
            concat (splitlines_keepends s) = s.
Proof.
  induction n as [|n IH]; intros [|c r] Hlen; simpl in *; try reflexivity;
    try lia.
  destruct (Ascii.eqb c CR).
  - destruct r as [|d r'].
    + reflexivity.
    + destruct (Ascii.eqb d LF) eqn:Ed.
      * apply Ascii.eqb_eq in Ed. subst d.
        rewrite concat_cons, IH by (simpl in Hlen; lia). reflexivity.
      * rewrite concat_cons, IH by lia. reflexivity.
  - destruct (is_linebreak c).
    + rewrite concat_cons, IH by lia. reflexivity.
    + pose proof (IH r ltac:(lia)) as Hr.
      destruct (splitlines_keepends r) as [|l ls].
      * simpl in Hr. now subst r.
      * rewrite concat_cons in *. now rewrite str_app_cons, Hr.
Qed.

Lemma concat_splitlines_keepends s : concat (splitlines_keepends s) = s.
Proof. now apply (concat_splitlines_keepends_le (String.length s)). Qed.

Lemma endswith_app_r p x suf :
  endswith x suf = true -> endswith (p +:+ x) suf = true.
Proof.
  intros H. induction p as [|c r IH]; [exact H|].
  rewrite str_app_cons. cbn [endswith]. rewrite IH. apply orb_true_r.
Qed.

Lemma nl_terminated_app a b :
  nl_terminated a -> nl_terminated b -> nl_terminated (a +:+ b).
Proof.
  intros Ha [->|Hb].
  - now rewrite str_app_nil_r.
  - right. now apply endswith_app_r.
Qed.

Lemma nl_terminated_concat ls :
  Forall nl_terminated ls -> nl_terminated (concat ls).
Proof.
  induction 1 as [|l ls Hl _ IH]; [now left|].
  rewrite concat_cons. now apply nl_terminated_app.
Qed.

Lemma nl_terminated_repeat_nl n : nl_terminated (repeat_nl n).
Proof.
  induction n as [|n IH]; [now left|]. right.
  change (repeat_nl (S n)) with (nl +:+ repeat_nl n).
  destruct IH as [->|IH]; [reflexivity|now apply endswith_app_r].
Qed.

Lemma nl_terminated_reindent snippet indent :
  nl_terminated (_reindent snippet indent).
Proof.
  unfold _reindent.
  destruct (negb (existsb _ _) && negb _).
  - apply nl_terminated_repeat_nl.
  - match goal with
    | |- nl_terminated (if truthy ?r && negb (endswith ?r nl) then _ else _)
      => destruct (truthy r) eqn:Et, (endswith r nl) eqn:Ee; simpl
    end.
    + now right.
    + right. apply endswith_app_r. reflexivity.
    + now right.
    + left. match goal with |- ?r = "" => destruct r; [reflexivity|] end.
      discriminate Et.
Qed.

(** A line that is empty or ends with a newline is left as it is by the
    loop of [_refresh_index] over the lines. *)
Lemma refresh_keeps_line l :
  nl_terminated l ->
  (if truthy (strip l) && negb (endswith l nl)
   then rstrip_crlf l +:+ nl else l) = l.
Proof.
  intros [->|H].
  - reflexivity.
  - rewrite H. now rewrite andb_false_r.
Qed.

Lemma refresh_keeps_lines ls :
  Forall nl_terminated ls ->
  map (fun l => if truthy (strip l) && negb (endswith l nl)
                then rstrip_crlf l +:+ nl else l) ls = ls.
Proof.
  induction 1 as [|l ls Hl _ IH]; [reflexivity|].
  simpl. now rewrite (refresh_keeps_line _ Hl), IH.
Qed.

(** ** The body of an append *)

Lemma refresh_index_returned parse w w' :
  Forall nl_terminated (lines (self w)) ->
  _refresh_index parse w = (Returned tt, w') ->
  lines (self w') = lines (self w)
  \/ lines (self w') = splitlines_keepends (concat (lines (self w))).
Proof.
  intros Hls. unfold _refresh_index. unfold bind at 1, get_self.
  destruct (negb (truthy (strip (concat (lines (self w)))))) eqn:Eb.
  { intros E. injection E as <-. now left. }
  rewrite (refresh_keeps_lines _ Hls).
  assert (Ec : (if negb (endswith (concat (lines (self w))) nl)
                   && truthy (strip (concat (lines (self w))))
                then concat (lines (self w)) +:+ nl
                else concat (lines (self w)))
               = concat (lines (self w))).
  { destruct (nl_terminated_concat _ Hls) as [E0|E1].
    - rewrite E0 in Eb. discriminate Eb.
    - now rewrite E1. }
  rewrite Ec.
  destruct (parse (concat (lines (self w)))) as [t|msg].
  - destruct (_index t) as [[i c] f]. intros E. injection E as <-.
    now right.
  - discriminate.
Qed.

Lemma parse_new_callable_returned parse target_name snippet w d n w' :
  parse_new_callable parse target_name snippet w = (Returned (d, n), w') ->
  w' = w /\ d = dedent snippet /\ Ast.is_FunctionDef n = true.
Proof.
  unfold parse_new_callable.
  destruct (parse (dedent snippet)) as [[|m r]|e]; try discriminate.
  destruct (Ast.is_FunctionDef m) eqn:Ef; [|discriminate].
  unfold ret. intros E. injection E as <- <- <-. auto.
Qed.

Lemma signature_gate_returned target_name n t w w' :
  signature_gate target_name n t w = (Returned tt, w') -> w' = w.
Proof.
  unfold signature_gate.
  destruct (_signatures_match _ _) as [[|] reason]; simpl.
  - unfold ret. now intros E; injection E as <-.
  - discriminate.
Qed.

Lemma body_target_after_last ls t last_stmt :
  last (Ast.body t) = Some last_stmt ->
  fst (body_target ls t) = Ast.end_lineno last_stmt.
Proof.
  unfold body_target. intros E. rewrite E.
  destruct (Ast.body t) as [|f r]; [discriminate|].
  destruct (PyList.in_range ls (Ast.lineno f - 1)); [|reflexivity].
  destruct (negb _ && _); reflexivity.
Qed.

(** ** ADD mode merged twice *)

(** The test of lines 632 and 643 looks a node up in a set of names: it
    never finds it. *)
Lemma node_never_among_names (n : Ast.stmt) (names : list string) :
  existsb (py_eq_str (PyNode n)) names = false.
Proof. induction names as [|x r IH]; [reflexivity|exact IH]. Qed.

(** C3 fails on the code: the class [TestFoo] with the one method [test_a],
    merged in ADD mode into a file that is this very class, gives a file
    with the method twice; merged again into that result, it gives a file
    with the method three times, which is not the result of the first
    merge. *)
Theorem add_mode_is_not_idempotent :
  merged_text (merge_tests Recorded.recorded_parse Recorded.names_hash
                           Recorded.testfoo_src Recorded.testfoo_src
                           "ADD" None world0)
  = Some Recorded.testfoo_once_src
  /\ merged_text (merge_tests Recorded.recorded_parse Recorded.names_hash
                              Recorded.testfoo_src Recorded.testfoo_once_src
                              "ADD" None world0)
     = Some Recorded.testfoo_twice_src
  /\ Recorded.testfoo_twice_src <> Recorded.testfoo_once_src.
Proof.
  split; [vm_compute; reflexivity|].
  split; [vm_compute; reflexivity|].
  vm_compute. intros H. discriminate H.
Qed.

(* ------------------------------------------------------------------------- *)
(** * Further properties of the helpers *)

(** X1: [_signatures_match] accepts two signatures exactly when their five
    components are equal, and then its reason is empty. *)
Theorem signatures_match_iff_equal :
  forall a b,
    (fst (_signatures_match a b) = true <-> signature a = signature b)
    /\ (signature a = signature b -> snd (_signatures_match a b) = "").
Proof.
  intros a b. split; [split|].
  - intros H. destruct (decide (signature a = signature b)) as [E|N];
      [exact E|].
    destruct (signatures_differ_first a b N) as (c & _ & Hm).
    rewrite Hm in H. discriminate H.
  - intros E. now rewrite (signatures_equal_match a b E).
  - intros E. now rewrite (signatures_equal_match a b E).
Qed.

Lemma signatures_match_iff_equal_witness :
  let a := Ast.mk_arguments [] ["self"; "x"] None [] None in
  signature a = signature a /\ snd (_signatures_match a a) = "".
Proof.
  split; [reflexivity|].
  refine (proj2 (signatures_match_iff_equal _ _) _). reflexivity.
Defined.

(** X2: [_splice] brings a position out of range to the nearest end of the
    list: a negative position inserts at the start, a position past the end
    appends; in range it inserts before the line of that index.  The lines
    of the list are kept, in order, around the payload. *)
Theorem splice_clamps_position :
  forall (ls payload : list string) (pos : Z),
    (pos <= 0 -> _splice ls pos payload = payload ++ ls)
    /\ (Z.of_nat (length ls) <= pos -> _splice ls pos payload = ls ++ payload)
    /\ (0 <= pos <= Z.of_nat (length ls) ->
        _splice ls pos payload
        = take (Z.to_nat pos) ls ++ payload ++ drop (Z.to_nat pos) ls)
    /\ length (_splice ls pos payload) = (length ls + length payload)%nat.
Proof.
  intros ls payload pos. unfold _splice, PyList.insert_at.
  split; [|split; [|split]].
  - intros H. replace (Z.max 0 (Z.min pos (Z.of_nat (length ls)))) with 0
      by lia. reflexivity.
  - intros H.
    replace (Z.max 0 (Z.min pos (Z.of_nat (length ls))))
      with (Z.of_nat (length ls)) by lia.
    rewrite Nat2Z.id, take_ge, drop_ge by lia. now rewrite app_nil_r.
  - intros H.
    now replace (Z.max 0 (Z.min pos (Z.of_nat (length ls)))) with pos by lia.
  - rewrite !length_app, length_take, length_drop. lia.
Qed.

Lemma splice_clamps_position_witness :
  -1 <= 0 /\ _splice ["a"; "b"] (-1) ["x"] = ["x"] ++ ["a"; "b"].
Proof.
  split; [lia|].
  refine (proj1 (splice_clamps_position ["a"; "b"] ["x"] (-1)) _). lia.
Defined.

(** X3: the text that [_reindent] returns is empty or ends with a newline,
    whatever the snippet and the indentation. *)
Theorem reindent_ends_with_newline :
  forall snippet indent,
    _reindent snippet indent = ""
    \/ endswith (_reindent snippet indent) nl = true.
Proof. intros. apply nl_terminated_reindent. Qed.

(** X4: [get_leading_whitespace] cuts a string into its leading whitespace
    and the rest: the result has whitespace only, and the string is the
    result followed by the string stripped on the left. *)
Theorem leading_whitespace_splits :
  forall s,
    s = get_leading_whitespace s +:+ lstrip s
    /\ strip (get_leading_whitespace s) = "".
Proof.
  intros s. split.
  - unfold get_leading_whitespace, lstrip.
    induction s as [|c r IH]; [reflexivity|].
    cbn [take_while lstrip_chars].
    destruct (is_space c); [|reflexivity].
    rewrite str_app_cons. now rewrite <- IH.
  - apply strip_all_space, all_space_leading_whitespace.
Qed.

Lemma last_import_line_fold tree :
  forall acc,
    let r := fold_left
               (fun end_ n =>
                  if Ast.is_import n then Z.max end_ (Ast.end_lineno n)
                  else end_) tree acc in
    acc <= r
    /\ (forall n, n ∈ tree -> Ast.is_import n = true -> Ast.end_lineno n <= r)
    /\ (r = acc
        \/ exists n, n ∈ tree /\ Ast.is_import n = true
                     /\ Ast.end_lineno n = r).
Proof.
  induction tree as [|x rest IH]; intros acc; simpl.
  - split; [lia|]. split; [|now left].
    intros n Hn. now apply elem_of_nil in Hn.
  - destruct (Ast.is_import x) eqn:Ex.
    + destruct (IH (Z.max acc (Ast.end_lineno x))) as (H1 & H2 & H3).
      split; [lia|]. split.
      * intros n Hn Hi. apply elem_of_cons in Hn as [->|Hn];
          [lia|now apply H2].
      * destruct H3 as [H3|(n & Hn & Hi & Hr)].
        -- destruct (Z.max_spec acc (Ast.end_lineno x)) as [[_ E]|[_ E]].
           ++ right. exists x. split; [apply list_elem_of_here|].
              split; [exact Ex|]. lia.
           ++ left. lia.
        -- right. exists n. split; [now apply list_elem_of_further|].
           now split.
    + destruct (IH acc) as (H1 & H2 & H3).
      split; [exact H1|]. split.
      * intros n Hn Hi. apply elem_of_cons in Hn as [->|Hn];
          [congruence|now apply H2].
      * destruct H3 as [H3|(n & Hn & Hi & Hr)]; [now left|].
        right. exists n. split; [now apply list_elem_of_further|].
        now split.
Qed.

(** X5: [_last_import_line] is 0 when the module has no top-level import;
    otherwise it is the greatest end line of its top-level imports (when
    one of them ends after line 0). *)
Theorem last_import_line_is_greatest :
  forall tree,
    0 <= _last_import_line tree
    /\ (forall n, n ∈ tree -> Ast.is_import n = true ->
                  Ast.end_lineno n <= _last_import_line tree)
    /\ (_last_import_line tree = 0
        \/ exists n, n ∈ tree /\ Ast.is_import n = true
                     /\ Ast.end_lineno n = _last_import_line tree)
    /\ ((forall n, n ∈ tree -> Ast.is_import n = false) ->
        _last_import_line tree = 0).
Proof.
  intros tree. unfold _last_import_line.
  destruct (last_import_line_fold tree 0) as (H1 & H2 & H3).
  repeat split; try assumption.
  intros Hno. destruct H3 as [E|(n & Hn & Hi & _)]; [exact E|].
  rewrite (Hno n Hn) in Hi. discriminate Hi.
Qed.

Lemma last_import_line_is_greatest_witness :
  Recorded.import_os_ast !! 0%nat
  = Some (Ast.Import "Import(names=[alias(name='os')])" 1 1)
  /\ 1 <= _last_import_line Recorded.unit_f_ast.
Proof.
  split; [reflexivity|].
  refine (proj1 (proj2 (last_import_line_is_greatest Recorded.unit_f_ast))
                (Ast.Import "Import(names=[alias(name='os')])" 1 1) _ _).
  - apply list_elem_of_here.
  - reflexivity.
Defined.

Lemma index_fold_lookup (is_k : Ast.stmt -> bool) tree :
  forall (m0 : gmap string Ast.stmt) key n,
    foldl (fun m x => if is_k x then <[Ast.name x := x]> m else m) m0 tree
    !! key = Some n ->
    m0 !! key = Some n
    \/ (n ∈ tree /\ is_k n = true /\ Ast.name n = key).
Proof.
  induction tree as [|x rest IH]; intros m0 key n H; simpl in H.
  - now left.
  - apply IH in H as [H|(Hn & Hk & He)].
    + destruct (is_k x) eqn:Ex; [|now left].
      destruct (decide (Ast.name x = key)) as [E|N].
      * subst key. rewrite lookup_insert_eq in H. injection H as <-.
        right. split; [apply list_elem_of_here|now split].
      * rewrite lookup_insert_ne in H by exact N. now left.
    + right. split; [now apply list_elem_of_further|now split].
Qed.

Lemma index_fold_keeps (is_k : Ast.stmt -> bool) tree :
  forall (m0 : gmap string Ast.stmt) key n,
    m0 !! key = Some n ->
    (forall x, x ∈ tree -> is_k x = true -> Ast.name x <> key) ->
    foldl (fun m x => if is_k x then <[Ast.name x := x]> m else m) m0 tree
    !! key = Some n.
Proof.
  induction tree as [|x rest IH]; intros m0 key n H Hno; simpl.
  - exact H.
  - apply IH.
    + destruct (is_k x) eqn:Ex; [|exact H].
      rewrite lookup_insert_ne; [exact H|].
      apply Hno; [apply list_elem_of_here|exact Ex].
    + intros y Hy. apply Hno. now apply list_elem_of_further.
Qed.

Lemma index_fold_last (is_k : Ast.stmt -> bool) pre n post :
  forall (m0 : gmap string Ast.stmt),
    is_k n = true ->
    (forall x, x ∈ post -> is_k x = true -> Ast.name x <> Ast.name n) ->
    foldl (fun m x => if is_k x then <[Ast.name x := x]> m else m) m0
          (pre ++ n :: post)
    !! Ast.name n = Some n.
Proof.
  intros m0 Hk Hno. rewrite foldl_app. simpl. rewrite Hk.
  apply index_fold_keeps; [|exact Hno].
  apply lookup_insert_eq.
Qed.

(** X6: the two maps of [_index] name the top-level classes and functions
    of the module: an entry is a class (a function) of the module with the
    name of its key, and of several definitions of one name the map holds
    the last. *)
Theorem index_names_top_level_definitions :
  forall tree,
    let cls := snd (fst (_index tree)) in
    let fns := snd (_index tree) in
    (forall key n, cls !! key = Some n ->
                   n ∈ tree /\ Ast.is_ClassDef n = true /\ Ast.name n = key)
    /\ (forall key n, fns !! key = Some n ->
                      n ∈ tree /\ Ast.is_FunctionDef n = true
                      /\ Ast.name n = key)
    /\ (forall pre n post,
           tree = pre ++ n :: post ->
           Ast.is_ClassDef n = true ->
           (forall x, x ∈ post -> Ast.is_ClassDef x = true ->
                      Ast.name x <> Ast.name n) ->
           cls !! Ast.name n = Some n)
    /\ (forall pre n post,
           tree = pre ++ n :: post ->
           Ast.is_FunctionDef n = true ->
           (forall x, x ∈ post -> Ast.is_FunctionDef x = true ->
                      Ast.name x <> Ast.name n) ->
           fns !! Ast.name n = Some n).
Proof.
  intros tree. simpl. split; [|split; [|split]].
  - intros key n H. apply index_fold_lookup in H as [H|H]; [|exact H].
    rewrite lookup_empty in H. discriminate H.
  - intros key n H. apply index_fold_lookup in H as [H|H]; [|exact H].
    rewrite lookup_empty in H. discriminate H.
  - intros pre n post -> Hk Hno.
    now apply (index_fold_last Ast.is_ClassDef).
  - intros pre n post -> Hk Hno.
    now apply (index_fold_last Ast.is_FunctionDef).
Qed.

Lemma index_names_top_level_definitions_witness :
  snd (_index Recorded.unit_f_ast) !! "f"
  = Some (Ast.FunctionDef "f" (Ast.mk_arguments [] [] None [] None)
                          [Ast.Stmt "Pass" 3 3] [] 2 3 0).
Proof.
  refine (proj2 (proj2 (proj2 (index_names_top_level_definitions
                                 Recorded.unit_f_ast)))
                [Ast.Import "Import(names=[alias(name='os')])" 1 1]
                (Ast.FunctionDef "f" (Ast.mk_arguments [] [] None [] None)
                                 [Ast.Stmt "Pass" 3 3] [] 2 3 0)
                [] _ _ _).
  - reflexivity.
  - reflexivity.
  - intros x Hx. now apply elem_of_nil in Hx.
Defined.

(* ------------------------------------------------------------------------- *)
(** * The operations of the merger on the text *)

Lemma refresh_index_text parse w w' :
  Forall nl_terminated (lines (self w)) ->
  _refresh_index parse w = (Returned tt, w') ->
  text_of w' = text_of w.
Proof.
  intros Hls Hr. unfold text_of.
  destruct (refresh_index_returned parse w w' Hls Hr) as [E|E]; rewrite E.
  - reflexivity.
  - apply concat_splitlines_keepends.
Qed.

(** A splice followed by the index, on lines and a payload that end with a
    newline: the text is the old one with the payload put in. *)
Lemma splice_refresh_text parse op ls pos payload w w' :
  Forall nl_terminated ls ->
  Forall nl_terminated payload ->
  (splice op ls pos payload ;; _refresh_index parse) w = (Returned tt, w') ->
  text_of w'
  = concat (take (splice_index ls pos) ls) +:+ concat payload
    +:+ concat (drop (splice_index ls pos) ls).
Proof.
  intros Hls Hp H. unfold bind in H. rewrite splice_spliced in H.
  assert (Hsp : lines (self (spliced w op ls pos payload))
                = take (splice_index ls pos) ls ++ payload
                  ++ drop (splice_index ls pos) ls) by reflexivity.
  assert (Hnl : Forall nl_terminated
                       (lines (self (spliced w op ls pos payload)))).
  { rewrite Hsp. apply Forall_app. split; [now apply Forall_take|].
    apply Forall_app. split; [exact Hp|now apply Forall_drop]. }
  rewrite (refresh_index_text parse _ _ Hnl H).
  unfold text_of. rewrite Hsp. now rewrite !concat_app.
Qed.

Lemma nl_terminated_ensure_newline snippet :
  truthy (strip snippet) = true -> nl_terminated (ensure_newline snippet).
Proof.
  intros H. unfold ensure_newline. rewrite H.
  destruct (endswith snippet nl) eqn:E; simpl.
  - now right.
  - right. apply endswith_app_r. reflexivity.
Qed.

Lemma nonblank_nl_terminated l :
  nl_terminated l -> truthy (strip l) = true -> endswith l nl = true.
Proof. intros [->|H] Ht; [discriminate Ht|exact H]. Qed.

Lemma splice_index_length (ls : list string) :
  splice_index ls (Z.of_nat (length ls)) = length ls.
Proof. unfold splice_index. lia. Qed.

(** X7: [add_class_or_func] appends: on a buffer whose lines end with a
    newline and for a snippet that has code, when the index accepts the
    result, the new text is the old text, then the separator (an empty line,
    or nothing at the start of the file and after a blank line), then the
    snippet ended by a newline.  Nothing of the old text is changed. *)
Theorem add_class_or_func_appends_to_text :
  forall parse snippet w w',
    Forall nl_terminated (lines (self w)) ->
    truthy (strip snippet) = true ->
    add_class_or_func parse snippet w = (Returned tt, w') ->
    text_of w'
    = text_of w +:+ end_separator (lines (self w))
      +:+ ensure_newline snippet.
Proof.
  intros parse snippet w w' Hls Hs H.
  unfold add_class_or_func in H. unfold bind at 1, get_self in H.
  assert (E : match last (lines (self w)) with
              | None => ("", lines (self w))
              | Some l =>
                  if String.eqb (strip l) "" || endswith l (nl +:+ nl)
                  then ("", lines (self w))
                  else if negb (endswith l nl)
                       then (nl, PyList.set_at (lines (self w))
                                   (Z.of_nat (length (lines (self w))) - 1)
                                   (rstrip_crlf l +:+ nl))
                       else (nl, lines (self w))
              end = (end_separator (lines (self w)), lines (self w))).
  { unfold end_separator.
    destruct (last (lines (self w))) as [l|] eqn:El; [|reflexivity].
    destruct (String.eqb (strip l) "") eqn:Eb; [reflexivity|].
    destruct (endswith l (nl +:+ nl)); [reflexivity|]. simpl.
    rewrite (nonblank_nl_terminated l); [reflexivity| |].
    - exact (proj1 (Forall_forall _ _) Hls l (last_Some_elem_of _ _ El)).
    - apply String.eqb_neq in Eb. now destruct (strip l). }
  rewrite E in H.
  assert (Hp : Forall nl_terminated
                 [end_separator (lines (self w)) +:+ ensure_newline snippet]).
  { constructor; [|constructor]. apply nl_terminated_app.
    - unfold end_separator. destruct (last _); [|now left].
      destruct (_ || _); [now left|now right].
    - now apply nl_terminated_ensure_newline. }
  rewrite (splice_refresh_text _ _ _ _ _ _ _ Hls Hp H).
  rewrite splice_index_length, take_ge, drop_ge by lia.
  unfold text_of. rewrite concat_cons.
  change (concat []) with "". now rewrite !str_app_nil_r.
Qed.

Lemma add_class_or_func_appends_to_text_witness :
  let w := MoreRecorded.merger_on Recorded.import_os_src in
  let w' := snd (add_class_or_func MoreRecorded.more_parse
                                   Recorded.func_f_src w) in
  text_of w = Recorded.import_os_src
  /\ text_of w'
     = Recorded.import_os_src +:+ nl +:+ Recorded.func_f_src.
Proof.
  split; [vm_compute; reflexivity|].
  refine (add_class_or_func_appends_to_text
            MoreRecorded.more_parse Recorded.func_f_src
            (MoreRecorded.merger_on Recorded.import_os_src) _ _ _ _).
  - vm_compute. repeat (constructor; [right; reflexivity|]). constructor.
  - vm_compute. reflexivity.
  - vm_compute. reflexivity.
Defined.

Lemma at_in_range (ls : list string) i :
  PyList.in_range ls i = true -> PyList.at_ ls i ∈ ls.
Proof.
  unfold PyList.in_range, PyList.at_. intros H.
  apply andb_true_iff in H as [H0 H1].
  apply Z.leb_le in H0. apply Z.ltb_lt in H1.
  destruct (lookup_lt_is_Some_2 ls (Z.to_nat i)) as [x Hx]; [lia|].
  rewrite Hx. simpl. now apply list_elem_of_lookup_2 in Hx.
Qed.

Lemma nl_terminated_at (ls : list string) i :
  Forall nl_terminated ls -> PyList.in_range ls i = true ->
  nl_terminated (PyList.at_ ls i).
Proof.
  intros Hls Hi. apply (proj1 (Forall_forall _ _) Hls).
  now apply at_in_range.
Qed.

(** X8: [add_methods], for a class of the index and on a buffer whose lines
    end with a newline, puts the methods after the last member of the class
    (after the class line when the class has no member): the new text is
    the old text with, at that line, an empty line (unless the line before
    is blank) and each method re-indented one level below the class line.
    The old text is kept on both sides. *)
Theorem add_methods_inserts_after_last_member :
  forall parse class_name methods cls_node w w',
    Forall nl_terminated (lines (self w)) ->
    cls_map (self w) !! class_name = Some cls_node ->
    add_methods parse class_name methods w = (Returned tt, w') ->
    let ls := lines (self w) in
    let idx := methods_index cls_node in
    text_of w'
    = concat (take (splice_index ls idx) ls)
      +:+ (concat (methods_separator ls idx)
           +:+ concat (map (fun s => _reindent s (methods_indent ls cls_node))
                           methods))
      +:+ concat (drop (splice_index ls idx) ls).
Proof.
  intros parse class_name methods cls_node w w' Hls Hc H ls idx.
  unfold add_methods in H. unfold bind at 1, get_self in H.
  rewrite Hc in H. fold (methods_index cls_node) in H. fold idx in H.
  fold ls in H.
  assert (E : (if PyList.in_range ls (idx - 1)
               then
                 if truthy (strip (PyList.at_ ls (idx - 1)))
                    && negb (endswith (PyList.at_ ls (idx - 1)) nl)
                 then (PyList.set_at ls (idx - 1)
                         (rstrip_crlf (PyList.at_ ls (idx - 1)) +:+ nl),
                       [nl])
                 else if truthy (strip (PyList.at_ ls (idx - 1)))
                      then (ls, [nl]) else (ls, [])
               else match ls with
                    | [] => (ls, [])
                    | _ :: _ => (ls, [nl])
                    end)
              = (ls, methods_separator ls idx)).
  { unfold methods_separator.
    destruct (PyList.in_range ls (idx - 1)) eqn:Ei.
    - destruct (truthy (strip (PyList.at_ ls (idx - 1)))) eqn:Et;
        [|reflexivity].
      rewrite (nonblank_nl_terminated _ (nl_terminated_at ls (idx - 1) Hls Ei) Et).
      reflexivity.
    - now destruct ls. }
  rewrite E in H.
  assert (Hp : Forall nl_terminated
                 (methods_separator ls idx
                  ++ map (fun s => _reindent s (methods_indent ls cls_node))
                         methods)).
  { apply Forall_app. split.
    - unfold methods_separator.
      destruct (PyList.in_range ls (idx - 1)).
      + destruct (truthy _); [|constructor].
        constructor; [now right|constructor].
      + destruct ls; [constructor|].
        constructor; [now right|constructor].
    - apply Forall_map. apply Forall_forall. intros s _.
      apply nl_terminated_reindent. }
  rewrite (splice_refresh_text _ _ _ _ _ _ _ Hls Hp H).
  now rewrite concat_app.
Qed.

Lemma add_methods_inserts_after_last_member_witness :
  let w := Examples.merger_on Recorded.testfoo_src in
  let w' := snd (add_methods Recorded.recorded_parse "TestFoo"
                   [Recorded.text ["def test_a(self):"; "    pass"]] w) in
  text_of w'
  = Recorded.text ["class TestFoo:"; "    def test_a(self):";
                   "        pass"; "";
                   "    def test_a(self):"; "        pass"].
Proof.
  refine (eq_trans
            (add_methods_inserts_after_last_member
               Recorded.recorded_parse "TestFoo"
               [Recorded.text ["def test_a(self):"; "    pass"]]
               (Ast.ClassDef "TestFoo"
                  [Ast.FunctionDef "test_a"
                     (Ast.mk_arguments [] ["self"] None [] None)
                     [Ast.Stmt "Pass" 3 3] [] 2 3 4] [] 1 3)
               (Examples.merger_on Recorded.testfoo_src) _ _ _ _) _).
  - vm_compute. repeat (constructor; [right; reflexivity|]). constructor.
  - vm_compute. reflexivity.
  - vm_compute. reflexivity.
  - vm_compute. reflexivity.
Defined.

(** X9: [add_imports], on a buffer whose lines end with a newline and for
    import lines that do, inserts the imports after the last top-level
    import of the index (at the start of the file when there is none) and
    keeps the old text on both sides. *)
Theorem add_imports_inserts_after_last_import :
  forall parse imports w w',
    Forall nl_terminated (lines (self w)) ->
    Forall nl_terminated imports ->
    add_imports parse imports w = (Returned tt, w') ->
    let ls := lines (self w) in
    let k := splice_index ls (_last_import_line (tree (self w))) in
    text_of w'
    = concat (take k ls) +:+ concat imports +:+ concat (drop k ls).
Proof.
  intros parse imports w w' Hls Hi H ls k.
  destruct imports as [|i rest].
  - injection H as <-. change (concat []) with "".
    change ("" +:+ concat (drop k ls)) with (concat (drop k ls)).
    rewrite <- concat_app, take_drop. reflexivity.
  - unfold add_imports in H. unfold bind at 1, get_self in H.
    exact (splice_refresh_text _ _ _ _ _ _ _ Hls Hi H).
Qed.

Lemma add_imports_inserts_after_last_import_witness :
  let w := MoreRecorded.merger_on Recorded.unit_f_src in
  let w' := snd (add_imports MoreRecorded.more_parse
                             [Recorded.text ["import sys"]] w) in
  text_of w'
  = Recorded.text ["import os"; "import sys"; "def f():"; "    pass"].
Proof.
  refine (eq_trans
            (add_imports_inserts_after_last_import
               MoreRecorded.more_parse [Recorded.text ["import sys"]]
               (MoreRecorded.merger_on Recorded.unit_f_src) _ _ _ _) _).
  - vm_compute. repeat (constructor; [right; reflexivity|]). constructor.
  - vm_compute. repeat (constructor; [right; reflexivity|]). constructor.
  - vm_compute. reflexivity.
  - vm_compute. reflexivity.
Defined.

(* ------------------------------------------------------------------------- *)
(** * Re-indexing *)

Lemma refresh_index_raised parse w ex w' :
  _refresh_index parse w = (Raised ex, w') ->
  exists e, ex = SyntaxError e
            /\ w' = logged w [reparse_error e].
Proof.
  unfold _refresh_index. unfold bind at 1, get_self.
  destruct (negb (truthy (strip (concat (lines (self w)))))).
  { discriminate. }
  match goal with |- context [parse ?s] => destruct (parse s) as [t|e] end.
  - destruct (_index t) as [[i c] f]. discriminate.
  - intros H. injection H as <- <-. now exists e.
Qed.

Lemma add_class_or_func_splice parse snippet w :
  Forall nl_terminated (lines (self w)) ->
  add_class_or_func parse snippet w
  = (splice OpAddClassOrFunc (lines (self w))
            (Z.of_nat (length (lines (self w))))
            [end_separator (lines (self w)) +:+ ensure_newline snippet] ;;
     _refresh_index parse) w.
Proof.
  intros Hls. unfold add_class_or_func. unfold bind at 1, get_self.
  assert (E : match last (lines (self w)) with
              | None => ("", lines (self w))
              | Some l =>
                  if String.eqb (strip l) "" || endswith l (nl +:+ nl)
                  then ("", lines (self w))
                  else if negb (endswith l nl)
                       then (nl, PyList.set_at (lines (self w))
                                   (Z.of_nat (length (lines (self w))) - 1)
                                   (rstrip_crlf l +:+ nl))
                       else (nl, lines (self w))
              end = (end_separator (lines (self w)), lines (self w))).
  { unfold end_separator.
    destruct (last (lines (self w))) as [l|] eqn:El; [|reflexivity].
    destruct (String.eqb (strip l) "") eqn:Eb; [reflexivity|].
    destruct (endswith l (nl +:+ nl)); [reflexivity|]. simpl.
    rewrite (nonblank_nl_terminated l); [reflexivity| |].
    - exact (proj1 (Forall_forall _ _) Hls l (last_Some_elem_of _ _ El)).
    - apply String.eqb_neq in Eb. now destruct (strip l). }
  now rewrite E.
Qed.

Lemma splice_at_end (ls payload : list string) :
  _splice ls (Z.of_nat (length ls)) payload = ls ++ payload.
Proof.
  unfold _splice, PyList.insert_at.
  replace (Z.max 0 (Z.min (Z.of_nat (length ls)) (Z.of_nat (length ls))))
    with (Z.of_nat (length ls)) by lia.
  rewrite Nat2Z.id, take_ge, drop_ge by lia. now rewrite app_nil_r.
Qed.

(** X10: a snippet that makes the text unparsable is not taken out again.
    When [add_class_or_func] raises, the error is the parser's
    [SyntaxError]; the lines of the merger hold the snippet at their end,
    the tree and the two maps are the ones from before the call, and one
    ERROR record was written. *)
Theorem add_class_or_func_failure_keeps_snippet :
  forall parse snippet w ex w',
    Forall nl_terminated (lines (self w)) ->
    add_class_or_func parse snippet w = (Raised ex, w') ->
    exists e,
      ex = SyntaxError e
      /\ lines (self w')
         = lines (self w)
           ++ [end_separator (lines (self w)) +:+ ensure_newline snippet]
      /\ tree (self w') = tree (self w)
      /\ cls_map (self w') = cls_map (self w)
      /\ fn_map (self w') = fn_map (self w)
      /\ LOG w' = LOG w ++ [reparse_error e].
Proof.
  intros parse snippet w ex w' Hls H.
  rewrite (add_class_or_func_splice _ _ _ Hls) in H.
  unfold bind in H. rewrite splice_spliced in H.
  apply refresh_index_raised in H as (e & -> & ->).
  exists e. split; [reflexivity|]. simpl.
  split; [|now repeat split].
  apply splice_at_end.
Qed.

Lemma add_class_or_func_failure_keeps_snippet_witness :
  let w := MoreRecorded.merger_on Recorded.import_os_src in
  let w' := snd (add_class_or_func MoreRecorded.more_parse
                                   MoreRecorded.bad_def_src w) in
  exists e,
    SyntaxError "invalid syntax (<unknown>, line 3)" = SyntaxError e
    /\ lines (self w')
       = lines (self w)
         ++ [end_separator (lines (self w))
             +:+ ensure_newline MoreRecorded.bad_def_src]
    /\ tree (self w') = tree (self w)
    /\ cls_map (self w') = cls_map (self w)
    /\ fn_map (self w') = fn_map (self w)
    /\ LOG w' = LOG w ++ [reparse_error e].
Proof.
  refine (add_class_or_func_failure_keeps_snippet
            MoreRecorded.more_parse MoreRecorded.bad_def_src
            (MoreRecorded.merger_on Recorded.import_os_src) _ _ _ _).
  - vm_compute. repeat (constructor; [right; reflexivity|]). constructor.
  - vm_compute. reflexivity.
Defined.

(** X11: a merger built on a base whose lines all end with a newline holds
    the base unchanged: its lines are the lines of the base, and its text
    is the base. *)
Theorem Merger_init_keeps_text :
  forall parse base_src w w',
    Forall nl_terminated (splitlines_keepends base_src) ->
    Merger_init parse base_src w = (Returned tt, w') ->
    lines (self w') = splitlines_keepends base_src
    /\ text_of w' = base_src.
Proof.
  intros parse base_src w w' Hls H. unfold Merger_init in H.
  assert (E : match last (splitlines_keepends base_src) with
              | Some l =>
                  if truthy l && negb (endswith l nl)
                  then PyList.set_at (splitlines_keepends base_src)
                         (Z.of_nat (length (splitlines_keepends base_src))
                          - 1)
                         (rstrip_crlf l +:+ nl)
                  else splitlines_keepends base_src
              | None =>
                  if truthy (strip base_src)
                  then [rstrip_crlf base_src +:+ nl] else []
              end = splitlines_keepends base_src).
  { destruct (last (splitlines_keepends base_src)) as [l|] eqn:El.
    - destruct (proj1 (Forall_forall _ _) Hls l (last_Some_elem_of _ _ El))
        as [->|E]; [reflexivity|].
      rewrite E. now rewrite andb_false_r.
    - apply last_None in El.
      pose proof (concat_splitlines_keepends base_src) as Ec.
      rewrite El in Ec. rewrite El, <- Ec. reflexivity. }
  rewrite E in H. unfold bind in H.
  change (set_lines (splitlines_keepends base_src) w)
    with (Returned tt,
          mk_World (mk_Merger (splitlines_keepends base_src)
                              (tree (self w)) (cls_map (self w))
                              (fn_map (self w)))
                   (LOG w) (history w)) in H.
  cbv iota in H.
  assert (Hl : lines (self w') = splitlines_keepends base_src).
  { destruct (refresh_index_returned
                parse
                (mk_World (mk_Merger (splitlines_keepends base_src)
                                     (tree (self w)) (cls_map (self w))
                                     (fn_map (self w)))
                          (LOG w) (history w))
                w' Hls H) as [R|R];
      rewrite R; simpl; [reflexivity|].
    now rewrite concat_splitlines_keepends. }
  split; [exact Hl|]. unfold text_of. rewrite Hl.
  apply concat_splitlines_keepends.
Qed.

Lemma Merger_init_keeps_text_witness :
  let w' := snd (Merger_init Recorded.recorded_parse Recorded.unit_f_src
                             world0) in
  lines (self w') = splitlines_keepends Recorded.unit_f_src
  /\ text_of w' = Recorded.unit_f_src.
Proof.
  refine (Merger_init_keeps_text Recorded.recorded_parse
            Recorded.unit_f_src world0 _ _ _).
  - vm_compute. repeat (constructor; [right; reflexivity|]). constructor.
  - vm_compute. reflexivity.
Defined.

(** ** What the operations keep of the merger *)

Lemma establishes_keeps {A} P (c : M A) : establishes P c -> keeps P c.
Proof. intros H w a w' _. apply H. Qed.

Lemma keeps_ret {A} P (a : A) : keeps P (ret a).
Proof. intros w b w' HP E. injection E as _ <-. exact HP. Qed.

Lemma keeps_raise {A} P e : keeps P (@raise A e).
Proof. intros w b w' _ E. discriminate E. Qed.

Lemma keeps_log P l m : keeps P (log l m).
Proof. intros w b w' HP E. injection E as _ <-. exact HP. Qed.

Lemma keeps_log_only {A} P (c : M A) : log_only c -> keeps P c.
Proof.
  intros H w a w' HP E. destruct (H w) as (b & l & E').
  rewrite E' in E. injection E as _ <-. exact HP.
Qed.

Lemma keeps_bind {A B} P (c : M A) (k : A -> M B) :
  keeps P c -> (forall a, keeps P (k a)) -> keeps P (bind c k).
Proof.
  intros Hc Hk w b w' HP E.
  apply bind_inv_Returned in E as (a & w1 & E1 & E2).
  exact (Hk a w1 b w' (Hc w a w1 HP E1) E2).
Qed.

Lemma keeps_get_self {A} P (k : Merger -> M A) :
  (forall m, keeps P (k m)) -> keeps P (bind get_self k).
Proof. intros Hk w a w' HP E. exact (Hk (self w) w a w' HP E). Qed.

Lemma establishes_get_self {A} P (k : Merger -> M A) :
  (forall m, establishes P (k m)) -> establishes P (bind get_self k).
Proof. intros Hk w a w' E. exact (Hk (self w) w a w' E). Qed.

Lemma establishes_after {A B} P (c : M A) (k : A -> M B) :
  (forall a, establishes P (k a)) -> establishes P (bind c k).
Proof.
  intros Hk w b w' E.
  apply bind_inv_Returned in E as (a & w1 & _ & E2).
  exact (Hk a w1 b w' E2).
Qed.

Lemma establishes_bind {A B} P (c : M A) (k : A -> M B) :
  establishes P c -> (forall a, keeps P (k a)) -> establishes P (bind c k).
Proof.
  intros Hc Hk w b w' E.
  apply bind_inv_Returned in E as (a & w1 & E1 & E2).
  exact (Hk a w1 b w' (Hc w a w1 E1) E2).
Qed.

Lemma keeps_fold_M {A S} P (f : S -> A -> M S) (l : list A) :
  (forall s x, keeps P (f s x)) -> forall s, keeps P (fold_M f l s).
Proof.
  intros Hf. induction l as [|x r IH]; intros s; simpl.
  - apply keeps_ret.
  - apply keeps_bind; [apply Hf|exact IH].
Qed.

Lemma keeps_logging_ValueError {A} P prefix (c : M A) :
  keeps P c -> keeps P (logging_ValueError prefix c).
Proof.
  intros Hc w a w' HP E. unfold logging_ValueError in E.
  destruct (c w) as [[b|[]] w1] eqn:Ec; try discriminate E.
  injection E as <- <-. exact (Hc w b w1 HP Ec).
Qed.

Lemma establishes_refresh_index parse :
  establishes (consistent parse) (_refresh_index parse).
Proof.
  intros w a w'. unfold _refresh_index. unfold bind at 1, get_self.
  destruct (negb (truthy (strip (concat (lines (self w)))))) eqn:Eb.
  { intros E. injection E as _ <-. apply negb_true_iff in Eb.
    split; [left|left]; simpl; auto. }
  match goal with |- context [parse ?s] => set (cs := s) end.
  destruct (parse cs) as [t|e] eqn:Ep.
  - destruct (_index t) as [[i c] f] eqn:Ei.
    intros E. injection E as _ <-.
    split.
    + right. cbn [self lines tree cls_map fn_map].
      rewrite concat_splitlines_keepends.
      split; [exact Ep|]. now rewrite Ei.
    + unfold newline_ended. cbn [self lines tree cls_map fn_map].
      rewrite concat_splitlines_keepends.
      subst cs.
      match goal with
      | |- context [if negb (endswith ?s nl) && truthy (strip ?s) then _
                    else _] =>
          destruct (endswith s nl) eqn:Ee;
          [right; exact Ee|destruct (truthy (strip s)) eqn:Et]
      end.
      * right. simpl. apply endswith_app_r. reflexivity.
      * left. exact Et.
  - discriminate.
Qed.

Lemma establishes_splice_refresh parse op ls pos payload :
  establishes (consistent parse)
              (splice op ls pos payload ;; _refresh_index parse).
Proof. apply establishes_after. intros _. apply establishes_refresh_index. Qed.

Lemma establishes_Merger_init parse base_src :
  establishes (consistent parse) (Merger_init parse base_src).
Proof.
  unfold Merger_init. apply establishes_after. intros _.
  apply establishes_refresh_index.
Qed.

Lemma establishes_add_class_or_func parse snippet :
  establishes (consistent parse) (add_class_or_func parse snippet).
Proof.
  unfold add_class_or_func. apply establishes_get_self. intros m.
  match goal with
  | |- context [let '(p, l) := ?x in _] => destruct x as [prefix ls]
  end.
  apply establishes_splice_refresh.
Qed.

Lemma keeps_add_imports parse imports :
  keeps (consistent parse) (add_imports parse imports).
Proof.
  destruct imports as [|i rest]; [apply keeps_ret|].
  apply establishes_keeps. unfold add_imports.
  apply establishes_get_self. intros m. apply establishes_splice_refresh.
Qed.

Lemma keeps_add_methods parse class_name methods :
  keeps (consistent parse) (add_methods parse class_name methods).
Proof.
  unfold add_methods. apply keeps_get_self. intros m.
  destruct (cls_map m !! class_name) as [cls_node|]; [|apply keeps_log].
  match goal with
  | |- context [let '(l, p) := ?x in _] => destruct x as [ls payload]
  end.
  apply establishes_keeps, establishes_splice_refresh.
Qed.

Lemma keeps_resolve_target P target_name cls :
  keeps P (resolve_target target_name cls).
Proof.
  unfold resolve_target. apply keeps_get_self. intros m.
  destruct cls as [c|].
  - destruct (cls_map m !! c) as [n|]; [|apply keeps_raise].
    destruct (find_method n target_name);
      [apply keeps_ret|apply keeps_raise].
  - destruct (fn_map m !! target_name);
      [apply keeps_ret|apply keeps_raise].
Qed.

Lemma keeps_resolve_target_again P target_name cls :
  keeps P (resolve_target_again target_name cls).
Proof.
  unfold resolve_target_again. apply keeps_get_self. intros m.
  destruct cls as [c|].
  - destruct (cls_map m !! c) as [n|]; [|apply keeps_raise].
    destruct (find_method n target_name);
      [apply keeps_ret|apply keeps_raise].
  - destruct (fn_map m !! target_name);
      [apply keeps_ret|apply keeps_raise].
Qed.

Lemma keeps_parse_new_callable P parse target_name snippet :
  keeps P (parse_new_callable parse target_name snippet).
Proof.
  unfold parse_new_callable.
  destruct (parse (dedent snippet)) as [[|n rest]|e];
    try apply keeps_raise.
  destruct (Ast.is_FunctionDef n); [apply keeps_ret|apply keeps_raise].
Qed.

Lemma keeps_signature_gate P target_name n t :
  keeps P (signature_gate target_name n t).
Proof.
  unfold signature_gate.
  destruct (_signatures_match _ _) as [[|] reason]; simpl;
    [apply keeps_ret|apply keeps_raise].
Qed.

Lemma keeps_merge_decorators parse target_name cls dedented n t :
  keeps (consistent parse)
        (merge_decorators parse target_name cls dedented n t).
Proof.
  unfold merge_decorators. apply keeps_get_self. intros m.
  destruct (negb (PyList.in_range _ _)); [apply keeps_raise|].
  destruct (negb (_ || _)).
  { apply keeps_bind; [apply keeps_log|]. intros _. apply keeps_raise. }
  apply keeps_bind; [apply keeps_log_only, log_only_new_decorators|].
  intros [|d ds]; [apply keeps_ret|].
  apply establishes_keeps, establishes_after. intros _.
  apply establishes_bind; [apply establishes_refresh_index|].
  intros _. apply keeps_resolve_target_again.
Qed.

Lemma keeps_append_body parse target_name cls dedented n t :
  keeps (consistent parse) (append_body parse target_name cls dedented n t).
Proof.
  unfold append_body.
  destruct (negb (truthy (strip (body_to_append dedented n))));
    [apply keeps_ret|].
  apply keeps_get_self. intros m.
  destruct (body_target (lines m) t) as [idx indent].
  destruct (body_separator (lines m) idx) as [prefix ls].
  apply establishes_keeps, establishes_splice_refresh.
Qed.

Lemma keeps_append_callable_body parse target_name snippet cls :
  keeps (consistent parse)
        (append_callable_body parse target_name snippet cls).
Proof.
  unfold append_callable_body.
  apply keeps_bind; [apply keeps_resolve_target|]. intros t.
  apply keeps_bind; [apply keeps_parse_new_callable|]. intros [d n].
  apply keeps_bind; [apply keeps_signature_gate|]. intros _.
  apply keeps_bind; [apply keeps_merge_decorators|]. intros t'.
  apply keeps_append_body.
Qed.

(** X12: the operations of [Merger] return only in a merger whose index is
    that of its text.  After [Merger(base)] and after [add_class_or_func]
    have returned, and after [add_imports], [add_methods] and
    [append_callable_body] have returned in a merger that was so, the text
    is blank with an empty index, or the tree is the parse of the text and
    the two maps are its index; and the text is blank or ends with a
    newline. *)
Theorem merger_operations_keep_index :
  forall parse,
    (forall base_src, establishes (consistent parse)
                                  (Merger_init parse base_src))
    /\ (forall snippet, establishes (consistent parse)
                                    (add_class_or_func parse snippet))
    /\ (forall imports, keeps (consistent parse)
                              (add_imports parse imports))
    /\ (forall class_name methods,
           keeps (consistent parse)
                 (add_methods parse class_name methods))
    /\ (forall target_name snippet cls,
           keeps (consistent parse)
                 (append_callable_body parse target_name snippet cls)).
Proof.
  intros parse. split; [|split; [|split; [|split]]].
  - apply establishes_Merger_init.
  - apply establishes_add_class_or_func.
  - apply keeps_add_imports.
  - apply keeps_add_methods.
  - apply keeps_append_callable_body.
Qed.

Lemma merger_operations_keep_index_witness :
  consistent Recorded.recorded_parse
             (self (snd (add_methods Recorded.recorded_parse "TestFoo"
                           [Recorded.text ["def test_a(self):"; "    pass"]]
                           (Examples.merger_on Recorded.testfoo_src)))).
Proof.
  refine (proj1 (proj2 (proj2 (proj2 (merger_operations_keep_index
                                        Recorded.recorded_parse))))
                "TestFoo" [Recorded.text ["def test_a(self):"; "    pass"]]
                (Examples.merger_on Recorded.testfoo_src) tt _ _ _).
  - split.
    + right. split; [|split]; vm_compute; reflexivity.
    + right. vm_compute. reflexivity.
  - vm_compute. reflexivity.
Defined.

(** ** The orchestrator *)

Lemma keeps_walk_node parse h new_src mode p node :
  keeps (consistent parse) (walk_node parse h new_src mode p node).
Proof.
  unfold walk_node.
  apply keeps_bind; [apply keeps_log_only, log_only_segment|]. intros s.
  destruct (negb (truthy s)); [apply keeps_ret|].
  destruct (Ast.is_import node).
  { destruct (negb _); apply keeps_ret. }
  destruct (Ast.is_ClassDef node).
  { apply keeps_bind;
      [apply keeps_log_only, log_only_methods_in_new_class|].
    intros ms. destruct (String.eqb mode "ADD").
    - apply keeps_get_self. intros m.
      destruct (cls_map m !! Ast.name node); [apply keeps_ret|].
      apply keeps_bind;
        [apply establishes_keeps, establishes_add_class_or_func|].
      intros _. apply keeps_ret.
    - destruct (String.eqb mode "APPEND"); apply keeps_ret. }
  destruct (Ast.is_FunctionDef node); [|apply keeps_ret].
  destruct (String.eqb mode "ADD").
  - apply keeps_get_self. intros m.
    destruct (fn_map m !! Ast.name node); [apply keeps_ret|].
    apply keeps_bind;
      [apply establishes_keeps, establishes_add_class_or_func|].
    intros _. apply keeps_ret.
  - destruct (String.eqb mode "APPEND"); apply keeps_ret.
Qed.

Lemma keeps_walk parse h new_src mode new_tree :
  keeps (consistent parse) (walk parse h new_src mode new_tree).
Proof.
  unfold walk. apply keeps_get_self. intros m.
  apply keeps_fold_M. intros. apply keeps_walk_node.
Qed.

Lemma keeps_add_queued_imports parse p :
  keeps (consistent parse) (add_queued_imports parse p).
Proof.
  unfold add_queued_imports.
  destruct (new_imports_to_add p); [apply keeps_ret|].
  apply keeps_add_imports.
Qed.

Lemma establishes_walk_and_import parse h new_src base_src mode :
  establishes (consistent parse)
              (walk_and_import parse h new_src base_src mode).
Proof.
  unfold walk_and_import.
  apply establishes_bind; [apply establishes_Merger_init|]. intros _.
  destruct (parse new_src) as [new_tree|e]; [|apply keeps_raise].
  apply keeps_bind; [apply keeps_walk|]. intros p.
  apply keeps_bind; [apply keeps_add_queued_imports|]. intros _.
  apply keeps_ret.
Qed.

Lemma keeps_add_pending_methods parse h merged entry :
  keeps (consistent parse) (add_pending_methods parse h merged entry).
Proof.
  unfold add_pending_methods. destruct entry as [cls_name new_methods].
  apply keeps_get_self. intros m.
  destruct (cls_map m !! cls_name) as [cls_node|]; [|apply keeps_ret].
  match goal with
  | |- keeps _ (match ?l with [] => _ | _ => _ end) => destruct l
  end; [apply keeps_ret|].
  apply keeps_bind; [apply keeps_add_methods|]. intros _. apply keeps_ret.
Qed.

Lemma keeps_append_method parse h mapping src_cls merged entry :
  keeps (consistent parse)
        (append_method parse h mapping src_cls merged entry).
Proof.
  unfold append_method. destruct entry as [src_meth new_snip].
  destruct (mapping !! _) as [target_fq|].
  2:{ apply keeps_bind; [apply keeps_log|]. intros _. apply keeps_ret. }
  assert (Hbad : forall m, keeps (consistent parse)
                                 (log WARNING m ;; ret merged)).
  { intros m. apply keeps_bind; [apply keeps_log|]. intros _.
    apply keeps_ret. }
  destruct (split_dot_once target_fq) as [[tgt_cls tgt_meth]|];
    [|apply Hbad].
  destruct (negb (truthy tgt_cls) || negb (truthy tgt_meth)); [apply Hbad|].
  apply keeps_logging_ValueError.
  apply keeps_bind; [apply keeps_append_callable_body|]. intros _.
  apply keeps_ret.
Qed.

Lemma keeps_append_function parse h mapping merged entry :
  keeps (consistent parse) (append_function parse h mapping merged entry).
Proof.
  unfold append_function. destruct entry as [src_func new_snip].
  destruct (mapping !! src_func) as [target_func|].
  2:{ apply keeps_bind; [apply keeps_log|]. intros _. apply keeps_ret. }
  destruct (contains "." target_func).
  { apply keeps_bind; [apply keeps_log|]. intros _. apply keeps_ret. }
  apply keeps_logging_ValueError.
  apply keeps_bind; [apply keeps_append_callable_body|]. intros _.
  apply keeps_ret.
Qed.

(** X13: a text that [merge_tests] returns is the text of a merger whose
    index is that of its text: it is blank, or the parser accepts it and it
    ends with a newline.  This holds in every mode and for every mapping;
    a merge whose result would not parse raises instead. *)
Theorem merge_tests_returns_parsed_text :
  forall parse h new_src base_src mode mapping w text merged w',
    merge_tests parse h new_src base_src mode mapping w
    = (Returned (text, merged), w') ->
    text = text_of w'
    /\ (truthy (strip text) = false
        \/ (parse text = Ast.Parsed (tree (self w'))
            /\ endswith text nl = true)).
Proof.
  intros parse h new_src base_src mode mapping w text merged w' H.
  unfold merge_tests in H.
  apply bind_inv_Returned in H as (p & w1 & Hw & H).
  apply bind_inv_Returned in H as (merged' & w2 & Hm & H).
  unfold result, bind, get_self, ret in H.
  injection H as <- <- <-.
  assert (C1 : consistent parse (self w1))
    by exact (establishes_walk_and_import _ _ _ _ _ _ _ _ Hw).
  assert (C2 : consistent parse (self w2)).
  { revert Hm. apply (fun K => K w1 merged' w2 C1).
    destruct (String.eqb (upper mode) "ADD").
    { apply keeps_fold_M. intros. apply keeps_add_pending_methods. }
    destruct (String.eqb (upper mode) "APPEND").
    { destruct (no_mapping mapping); [apply keeps_raise|].
      apply keeps_bind.
      - unfold append_methods_loop. apply keeps_fold_M.
        intros s [src_cls meth_list]. apply keeps_fold_M.
        intros. apply keeps_append_method.
      - intros m. unfold append_functions_loop. apply keeps_fold_M.
        intros. apply keeps_append_function. }
    destruct (String.eqb (upper mode) "FOLD"); apply keeps_raise. }
  split; [reflexivity|].
  destruct C2 as [[(Hb & _)|(Hp & _)] [Hn|Hn]]; auto.
Qed.

Lemma merge_tests_returns_parsed_text_witness :
  let r := merge_tests Recorded.recorded_parse Recorded.names_hash
                       Recorded.testfoo_src Recorded.testfoo_src "ADD" None
                       world0 in
  fst r = Returned (Recorded.testfoo_once_src,
                    [mk_ExtractedFunction
                       (Some "TestFoo")
                       (PyNode (Ast.FunctionDef "test_a"
                                  (Ast.mk_arguments [] ["self"] None [] None)
                                  [Ast.Stmt "Pass" 3 3] [] 2 3 4))
                       (Some (Recorded.text ["    def test_a(self):";
                                             "        pass"]))
                       None])
  /\ Recorded.recorded_parse Recorded.testfoo_once_src
     = Ast.Parsed Recorded.testfoo_once_ast.
Proof.
  split; [vm_compute; reflexivity|].
  destruct (merge_tests_returns_parsed_text
              Recorded.recorded_parse Recorded.names_hash
              Recorded.testfoo_src Recorded.testfoo_src "ADD" None world0
              Recorded.testfoo_once_src
              [mk_ExtractedFunction
                 (Some "TestFoo")
                 (PyNode (Ast.FunctionDef "test_a"
                            (Ast.mk_arguments [] ["self"] None [] None)
                            [Ast.Stmt "Pass" 3 3] [] 2 3 4))
                 (Some (Recorded.text ["    def test_a(self):";
                                       "        pass"]))
                 None]
              (snd (merge_tests Recorded.recorded_parse Recorded.names_hash
                      Recorded.testfoo_src Recorded.testfoo_src "ADD" None
                      world0)))
    as (_ & [Hb|(Hp & _)]).
  - vm_compute. reflexivity.
  - vm_compute in Hb. discriminate Hb.
  - vm_compute. reflexivity.
Defined.

Lemma upper_char_idempotent c : upper_char (upper_char c) = upper_char c.
Proof. destruct c as [[] [] [] [] [] [] [] []]; reflexivity. Qed.

Lemma upper_idempotent s : upper (upper s) = upper s.
Proof.
  induction s as [|c r IH]; [reflexivity|].
  simpl. now rewrite upper_char_idempotent, IH.
Qed.

Lemma upper_ascii_only s : ascii_only s = true -> ascii_only (upper s) = true.
Proof.
  induction s as [|c r IH]; [reflexivity|].
  cbn [ascii_only upper]. intros H. apply andb_true_iff in H as [Hc Hr].
  rewrite (IH Hr), andb_true_r. clear IH Hr.
  destruct c as [[] [] [] [] [] [] [] []]; try reflexivity;
    discriminate Hc.
Qed.

(** X14: [merge_tests] reads a mode written in ASCII without regard to the
    case of its letters: such a mode and the same mode in upper case (which
    is again written in ASCII) give the same outcome in the same world. *)
Theorem merge_tests_mode_in_any_case :
  forall parse h new_src base_src mode mapping w,
    ascii_only mode = true ->
    ascii_only (upper mode) = true
    /\ merge_tests parse h new_src base_src mode mapping w
       = merge_tests parse h new_src base_src (upper mode) mapping w.
Proof.
  intros parse h new_src base_src mode mapping w Ha.
  split; [now apply upper_ascii_only|].
  unfold merge_tests. now rewrite upper_idempotent.
Qed.

Lemma merge_tests_mode_in_any_case_witness :
  ascii_only "Append" = true
  /\ merge_tests Recorded.recorded_parse Recorded.names_hash
                 Recorded.case_new_src Recorded.case_base_src "Append"
                 (Some MappingExamples.case_mapping) world0
     = merge_tests Recorded.recorded_parse Recorded.names_hash
                   Recorded.case_new_src Recorded.case_base_src "APPEND"
                   (Some MappingExamples.case_mapping) world0.
Proof.
  split; [reflexivity|].
  refine (proj2 (merge_tests_mode_in_any_case
                   Recorded.recorded_parse Recorded.names_hash
                   Recorded.case_new_src Recorded.case_base_src "Append"
                   (Some MappingExamples.case_mapping) world0 _)).
  reflexivity.
Defined.

(** X15: a mode written in ASCII, other than ADD and APPEND, never gives a
    result, and it is refused last: the base is parsed, the new unit is
    parsed and walked and its new imports are inserted before the error of
    the mode is raised, so an error of these steps is the one that is seen.
    The error of the mode is [NotImplementedError] for FOLD and a
    [ValueError] that names the mode in upper case for any other. *)
Theorem other_modes_are_refused_last :
  forall parse h new_src base_src mode mapping w,
    ascii_only mode = true ->
    upper mode <> "ADD" -> upper mode <> "APPEND" ->
    exists ex w',
      merge_tests parse h new_src base_src mode mapping w = (Raised ex, w')
      /\ (walk_and_import parse h new_src base_src (upper mode) w
          = (Raised ex, w')
          \/ (exists p,
                 walk_and_import parse h new_src base_src (upper mode) w
                 = (Returned p, w')
                 /\ ex = mode_error (upper mode))).
Proof.
  intros parse h new_src base_src mode mapping w _ Ha Hp.
  unfold merge_tests.
  apply String.eqb_neq in Ha. apply String.eqb_neq in Hp.
  rewrite Ha, Hp. unfold bind at 1.
  destruct (walk_and_import parse h new_src base_src (upper mode) w)
    as [[p|ex] w1].
  - exists (mode_error (upper mode)), w1. split.
    + unfold mode_error, bind.
      destruct (String.eqb (upper mode) "FOLD"); reflexivity.
    + right. now exists p.
  - exists ex, w1. split; [reflexivity|now left].
Qed.

Lemma other_modes_are_refused_last_witness :
  ascii_only "fold" = true
  /\ upper "fold" <> "ADD" /\ upper "fold" <> "APPEND"
  /\ exists ex w',
      merge_tests Recorded.recorded_parse Recorded.names_hash
                  Recorded.unit_f_src Recorded.func_f_src "fold" None world0
      = (Raised ex, w')
      /\ (walk_and_import Recorded.recorded_parse Recorded.names_hash
                          Recorded.unit_f_src Recorded.func_f_src
                          (upper "fold") world0
          = (Raised ex, w')
          \/ (exists p,
                 walk_and_import Recorded.recorded_parse Recorded.names_hash
                                 Recorded.unit_f_src Recorded.func_f_src
                                 (upper "fold") world0
                 = (Returned p, w')
                 /\ ex = mode_error (upper "fold"))).
Proof.
  assert (Ha : upper "fold" <> "ADD") by (vm_compute; discriminate).
  assert (Hp : upper "fold" <> "APPEND") by (vm_compute; discriminate).
  split; [reflexivity|]. split; [exact Ha|]. split; [exact Hp|].
  exact (other_modes_are_refused_last
           Recorded.recorded_parse Recorded.names_hash
           Recorded.unit_f_src Recorded.func_f_src "fold" None world0
           eq_refl Ha Hp).
Defined.

Lemma Merger_init_raised parse base_src w ex w' :
  Merger_init parse base_src w = (Raised ex, w') ->
  exists e, ex = SyntaxError e /\ LOG w' = LOG w ++ [reparse_error e].
Proof.
  unfold Merger_init. intros H. unfold bind in H.
  match type of H with
  | context [set_lines ?ls w] =>
      change (set_lines ls w)
        with (Returned tt,
              mk_World (mk_Merger ls (tree (self w)) (cls_map (self w))
                                  (fn_map (self w)))
                       (LOG w) (history w)) in H
  end.
  cbv iota in H.
  apply refresh_index_raised in H as (e & -> & ->).
  now exists e.
Qed.

(** X16: the two units fail in different ways.  A base that the parser
    refuses makes [merge_tests] raise the parser's [SyntaxError], after one
    ERROR record, whatever the new unit, the mode and the mapping; a new
    unit that the parser refuses, on a base that it accepts, makes it raise
    [ValueError] with the parser's message after
    [Invalid syntax in new_src: ], in the world that building the merger
    left, whatever the mode and the mapping. *)
Theorem merge_tests_parse_errors :
  forall parse h new_src base_src mode mapping w,
    (forall ex w',
        Merger_init parse base_src w = (Raised ex, w') ->
        merge_tests parse h new_src base_src mode mapping w
        = (Raised ex, w')
        /\ exists e, ex = SyntaxError e
                     /\ LOG w' = LOG w ++ [reparse_error e])
    /\ (forall w' e,
           Merger_init parse base_src w = (Returned tt, w') ->
           parse new_src = Ast.SyntaxErr e ->
           merge_tests parse h new_src base_src mode mapping w
           = (Raised (ValueError ("Invalid syntax in new_src: " +:+ e)),
              w')).
Proof.
  intros parse h new_src base_src mode mapping w. split.
  - intros ex w' H. split; [|exact (Merger_init_raised _ _ _ _ _ H)].
    unfold merge_tests, walk_and_import.
    unfold bind at 1. unfold bind at 1. now rewrite H.
  - intros w' e H Hp. unfold merge_tests, walk_and_import.
    unfold bind at 1. unfold bind at 1. now rewrite H, Hp.
Qed.

Lemma merge_tests_parse_errors_witness :
  merge_tests MoreRecorded.more_parse Recorded.names_hash
              MoreRecorded.bad_def_src Recorded.func_f_src "APPEND" None
              world0
  = (Raised (ValueError ("Invalid syntax in new_src: "
                         +:+ "invalid syntax (<unknown>, line 1)")),
     MoreRecorded.merger_on Recorded.func_f_src).
Proof.
  refine (proj2 (merge_tests_parse_errors
                   MoreRecorded.more_parse Recorded.names_hash
                   MoreRecorded.bad_def_src Recorded.func_f_src
                   "APPEND" None world0) _ _ _ _).
  - vm_compute. reflexivity.
  - vm_compute. reflexivity.
Defined.

Lemma walk_node_already_there parse h new_src p node w :
  base_imps_dump_initial p
  = map Ast.dump_of (filter (fun n => Ast.is_import n) (tree (self w))) ->
  already_there (self w) node ->
  exists l, walk_node parse h new_src "ADD" p node w
            = (Returned p, logged w l).
Proof.
  intros Hp Hn. unfold walk_node.
  destruct (log_only_segment new_src (Ast.NStmt node) w) as (s & l & E).
  rewrite (bind_Returned _ _ _ _ _ E).
  destruct (negb (truthy s)); [now exists l|].
  unfold already_there in Hn.
  destruct (Ast.is_import node).
  { rewrite <- Hp in Hn. rewrite (bool_decide_eq_true_2 _ Hn).
    now exists l. }
  destruct Hn as [Hc Hf]. rewrite Hc.
  destruct (Ast.is_FunctionDef node); [|now exists l].
  change (String.eqb "ADD" "ADD") with true. cbv iota.
  unfold bind at 1, get_self.
  destruct (Hf eq_refl) as [n Hl].
  change (self (logged w l)) with (self w). rewrite Hl.
  now exists l.
Qed.

Lemma walk_fold_already_there parse h new_src new_tree :
  forall p w,
    base_imps_dump_initial p
    = map Ast.dump_of (filter (fun n => Ast.is_import n) (tree (self w))) ->
    Forall (already_there (self w)) new_tree ->
    exists l, fold_M (walk_node parse h new_src "ADD") new_tree p w
              = (Returned p, logged w l).
Proof.
  induction new_tree as [|node rest IH]; intros p w Hp Hall; simpl.
  - exists []. now rewrite logged_nil.
  - apply Forall_cons in Hall as [Hn Hrest].
    destruct (walk_node_already_there parse h new_src p node w Hp Hn)
      as (l & E).
    rewrite (bind_Returned _ _ _ _ _ E).
    destruct (IH p (logged w l) Hp Hrest) as (l' & E').
    exists (l ++ l'). rewrite E'. now rewrite logged_logged.
Qed.

(** X17: in ADD mode, a new unit that brings only imports the base has,
    functions whose names the base has, and statements that are no import,
    class or function, changes nothing: [merge_tests] returns the text of
    the base as the merger holds it, with no merged callable.  In
    particular the top-level statements of the new unit that are not
    definitions (assignments, calls) are never copied into the base. *)
Theorem add_mode_known_names_change_nothing :
  forall parse h new_src base_src mode mapping new_tree w w1,
    upper mode = "ADD" ->
    Merger_init parse base_src w = (Returned tt, w1) ->
    parse new_src = Ast.Parsed new_tree ->
    Forall (already_there (self w1)) new_tree ->
    exists l,
      merge_tests parse h new_src base_src mode mapping w
      = (Returned (text_of w1, []), logged w1 l).
Proof.
  intros parse h new_src base_src mode mapping new_tree w w1
         Hm Hi Hp Hall.
  destruct (walk_fold_already_there
              parse h new_src new_tree
              (mk_Pending
                 (map Ast.dump_of
                      (filter (fun n => Ast.is_import n) (tree (self w1))))
                 [] [] [] [] [])
              w1 eq_refl Hall) as (l & E).
  exists l. unfold merge_tests. rewrite Hm.
  assert (Ew : walk_and_import parse h new_src base_src "ADD" w
               = (Returned
                    (mk_Pending
                       (map Ast.dump_of
                            (filter (fun n => Ast.is_import n)
                                    (tree (self w1))))
                       [] [] [] [] []),
                  logged w1 l)).
  { unfold walk_and_import. rewrite (bind_Returned _ _ _ _ _ Hi).
    rewrite Hp. unfold walk. unfold bind at 1. unfold bind at 1, get_self.
    rewrite E. reflexivity. }
  rewrite (bind_Returned _ _ _ _ _ Ew).
  reflexivity.
Qed.

Lemma add_mode_known_names_change_nothing_witness :
  exists l,
    merge_tests Recorded.recorded_parse Recorded.names_hash
                Recorded.unit_f_src Recorded.unit_f_src "add" None world0
    = (Returned (text_of (Examples.merger_on Recorded.unit_f_src), []),
       logged (Examples.merger_on Recorded.unit_f_src) l).
Proof.
  refine (add_mode_known_names_change_nothing
            Recorded.recorded_parse Recorded.names_hash
            Recorded.unit_f_src Recorded.unit_f_src "add" None
            Recorded.unit_f_ast world0
            (Examples.merger_on Recorded.unit_f_src) _ _ _ _).
  - vm_compute. reflexivity.
  - vm_compute. reflexivity.
  - vm_compute. reflexivity.
  - constructor; [|constructor; [|constructor]].
    + cbv beta iota delta [already_there Ast.is_import].
      vm_compute. apply list_elem_of_here.
    + cbv beta iota delta [already_there Ast.is_import].
      split; [reflexivity|]. intros _. vm_compute. eexists. reflexivity.
Defined.

(* ------------------------------------------------------------------------- *)
(** * [extract_names] *)

Lemma extractor_node_ind (P : Extractor.node -> Prop) :
  (forall name lo hi ch, Forall P ch -> P (Extractor.ClassDef name lo hi ch)) ->
  (forall name lo hi ch,
      Forall P ch -> P (Extractor.FunctionDef name lo hi ch)) ->
  (forall ch, Forall P ch -> P (Extractor.Other ch)) ->
  forall n, P n.
Proof.
  intros HC HF HO. fix IH 1.
  assert (Hall : forall ch, Forall P ch).
  { fix IHch 1. intros [|c ch]; constructor; [apply IH|apply IHch]. }
  intros [name lo hi ch|name lo hi ch|ch].
  - apply HC, Hall.
  - apply HF, Hall.
  - apply HO, Hall.
Qed.

Lemma visit_children line fl ch :
  Forall (fun n => forall st,
              Extractor.visit line fl n st
              = fold_left (Extractor.enter fl) (Extractor.entered line n) st)
         ch ->
  forall st,
    fold_left (fun st c => Extractor.visit line fl c st) ch st
    = fold_left (Extractor.enter fl)
                (flat_map (Extractor.entered line) ch) st.
Proof.
  induction 1 as [|c r Hc _ IH]; intros st; [reflexivity|].
  cbn [fold_left flat_map]. rewrite fold_left_app, <- Hc. apply IH.
Qed.

(** The visitor does to the three variables what entering the entered
    definitions does, in order. *)
Lemma visit_entered line fl n :
  forall st,
    Extractor.visit line fl n st
    = fold_left (Extractor.enter fl) (Extractor.entered line n) st.
Proof.
  induction n as [name lo hi ch IH|name lo hi ch IH|ch IH]
    using extractor_node_ind; intros st; cbn [Extractor.visit Extractor.entered].
  - destruct ((lo <=? line) && (line <=? hi)); [|reflexivity].
    cbn [fold_left Extractor.enter]. now apply visit_children.
  - destruct ((lo <=? line) && (line <=? hi)); [|reflexivity].
    cbn [fold_left Extractor.enter]. now apply visit_children.
  - now apply visit_children.
Qed.

Lemma entered_children line ch e :
  Forall (fun n => e ∈ Extractor.entered line n ->
                   Extractor.descendant n e
                   /\ Extractor.spans line e = true) ch ->
  e ∈ flat_map (Extractor.entered line) ch ->
  exists c, c ∈ ch /\ Extractor.descendant c e
            /\ Extractor.spans line e = true.
Proof.
  intros Hall He. apply list_elem_of_In, in_flat_map in He as (c & Hc & He).
  apply list_elem_of_In in Hc, He.
  destruct (proj1 (Forall_forall _ _) Hall c Hc He) as [Hd Hs].
  now exists c.
Qed.

(** An entered definition is a definition of the tree whose lines include
    the line. *)
Lemma entered_sound line n e :
  e ∈ Extractor.entered line n ->
  Extractor.descendant n e /\ Extractor.spans line e = true.
Proof.
  induction n as [name lo hi ch IH|name lo hi ch IH|ch IH]
    using extractor_node_ind; cbn [Extractor.entered]; intros He.
  - destruct ((lo <=? line) && (line <=? hi)) eqn:Es;
      [|now apply elem_of_nil in He].
    apply elem_of_cons in He as [->|He].
    + split; [constructor|]. unfold Extractor.spans. simpl.
      apply andb_true_iff in Es as [-> ->]. reflexivity.
    + destruct (entered_children line ch e IH He) as (c & Hc & Hd & Hs).
      split; [|exact Hs]. now apply Extractor.descendant_child with c.
  - destruct ((lo <=? line) && (line <=? hi)) eqn:Es;
      [|now apply elem_of_nil in He].
    apply elem_of_cons in He as [->|He].
    + split; [constructor|]. unfold Extractor.spans. simpl.
      apply andb_true_iff in Es as [-> ->]. reflexivity.
    + destruct (entered_children line ch e IH He) as (c & Hc & Hd & Hs).
      split; [|exact Hs]. now apply Extractor.descendant_child with c.
  - destruct (entered_children line ch e IH He) as (c & Hc & Hd & Hs).
    split; [|exact Hs]. now apply Extractor.descendant_child with c.
Qed.

Lemma spans_range line n :
  Extractor.spans line n = true ->
  (Extractor.first_line n <=? line) && (line <=? Extractor.last_line n)
  = true.
Proof.
  unfold Extractor.spans. intros H.
  apply andb_true_iff in H as [H H2].
  apply andb_true_iff in H as [_ H1]. now rewrite H1, H2.
Qed.

(** A definition whose lines include the line is entered when the lines of
    the definitions above it do. *)
Lemma entered_complete line n e :
  Extractor.descendant n e ->
  Extractor.spans line e = true ->
  (forall d, Extractor.descendant n d -> Extractor.descendant d e ->
             Extractor.is_class d || Extractor.is_function d = true ->
             Extractor.spans line d = true) ->
  e ∈ Extractor.entered line n.
Proof.
  induction 1 as [n|n c d Hc Hd IH]; intros Hs Hup.
  - pose proof (spans_range line n Hs) as Hr.
    destruct n as [name lo hi ch|name lo hi ch|ch];
      cbn [Extractor.entered]; simpl in Hr.
    + rewrite Hr. apply list_elem_of_here.
    + rewrite Hr. apply list_elem_of_here.
    + discriminate Hs.
  - assert (He : d ∈ flat_map (Extractor.entered line)
                              (Extractor.children_of n)).
    { apply list_elem_of_In, in_flat_map. exists c.
      split; apply list_elem_of_In; [exact Hc|].
      apply IH; [exact Hs|]. intros x Hx Hxd.
      apply Hup; [|exact Hxd]. now apply Extractor.descendant_child with c. }
    assert (Hn : Extractor.is_class n || Extractor.is_function n = true ->
                 Extractor.spans line n = true).
    { apply Hup; [constructor|].
      now apply Extractor.descendant_child with c. }
    destruct n as [name lo hi ch|name lo hi ch|ch];
      cbn [Extractor.entered]; simpl in He.
    + pose proof (spans_range line _ (Hn eq_refl)) as Hr. simpl in Hr.
      rewrite Hr. now apply list_elem_of_further.
    + pose proof (spans_range line _ (Hn eq_refl)) as Hr. simpl in Hr.
      rewrite Hr. now apply list_elem_of_further.
    + exact He.
Qed.

Lemma last_with_snoc_other p l n x :
  last_with p l n -> p x = false -> last_with p (l ++ [x]) n.
Proof.
  intros (pre & post & -> & Hn & Hpost) Hx.
  exists pre, (post ++ [x]). split; [now rewrite <- app_assoc|].
  split; [exact Hn|]. apply Forall_app. split; [exact Hpost|].
  now constructor.
Qed.

Lemma last_with_snoc p l x : p x = true -> last_with p (l ++ [x]) x.
Proof. intros Hx. exists l, []. split; [reflexivity|]. now split. Qed.

Lemma last_with_elem p l n : last_with p l n -> n ∈ l /\ p n = true.
Proof.
  intros (pre & post & -> & Hn & _). split; [|exact Hn].
  apply elem_of_app. right. apply list_elem_of_here.
Qed.

(** The function that the visitor keeps is the last function entered. *)
Lemma fold_enter_function fl hs st :
  let st' := fold_left (Extractor.enter fl) hs st in
  (Forall (fun x => Extractor.is_function x = false) hs
   /\ Extractor.method_name st' = Extractor.method_name st
   /\ Extractor.function_definition st'
      = Extractor.function_definition st)
  \/ (exists fn,
         last_with Extractor.is_function hs fn
         /\ Extractor.method_name st' = Some (Extractor.name_of fn)
         /\ Extractor.function_definition st'
            = Some (join nl (PyList.slice fl (Extractor.first_line fn - 1)
                                          (Extractor.last_line fn)))).
Proof.
  induction hs as [|x l IH] using rev_ind; cbn zeta.
  - left. now repeat split.
  - rewrite fold_left_app. cbn [fold_left].
    destruct x as [name lo hi ch|name lo hi ch|ch]; cbn [Extractor.enter].
    + cbn zeta in IH. destruct IH as [(Hall & Hm & Hf)|(fn & Hl & Hm & Hf)].
      * left. split; [|now split].
        apply Forall_app. split; [exact Hall|now constructor].
      * right. exists fn. split; [|now split].
        now apply last_with_snoc_other.
    + right. exists (Extractor.FunctionDef name lo hi ch).
      split; [now apply last_with_snoc|]. now split.
    + cbn zeta in IH. destruct IH as [(Hall & Hm & Hf)|(fn & Hl & Hm & Hf)].
      * left. split; [|now split].
        apply Forall_app. split; [exact Hall|now constructor].
      * right. exists fn. split; [|now split].
        now apply last_with_snoc_other.
Qed.

(** The class that the visitor keeps is the last class entered. *)
Lemma fold_enter_class fl hs st :
  let st' := fold_left (Extractor.enter fl) hs st in
  (Forall (fun x => Extractor.is_class x = false) hs
   /\ Extractor.class_name st' = Extractor.class_name st)
  \/ (exists c,
         last_with Extractor.is_class hs c
         /\ Extractor.class_name st' = Some (Extractor.name_of c)).
Proof.
  induction hs as [|x l IH] using rev_ind; cbn zeta.
  - left. now split.
  - rewrite fold_left_app. cbn [fold_left].
    destruct x as [name lo hi ch|name lo hi ch|ch]; cbn [Extractor.enter].
    + right. exists (Extractor.ClassDef name lo hi ch).
      split; [now apply last_with_snoc|]. reflexivity.
    + cbn zeta in IH. destruct IH as [(Hall & Hm)|(c & Hl & Hm)].
      * left. split; [|exact Hm].
        apply Forall_app. split; [exact Hall|now constructor].
      * right. exists c. split; [|exact Hm].
        now apply last_with_snoc_other.
    + cbn zeta in IH. destruct IH as [(Hall & Hm)|(c & Hl & Hm)].
      * left. split; [|exact Hm].
        apply Forall_app. split; [exact Hall|now constructor].
      * right. exists c. split; [|exact Hm].
        now apply last_with_snoc_other.
Qed.

(** The outcome of [extract_names] on a file that parses, by the
    definitions entered. *)
Lemma extract_names_cases parse line file_content fp tree :
  parse file_content = Extractor.Parsed tree ->
  (Forall (fun x => Extractor.is_function x = false)
          (Extractor.entered line tree)
   /\ Extractor.extract_names parse line file_content fp
      = Raised (no_method_at line))
  \/ (exists fn cls,
         last_with Extractor.is_function (Extractor.entered line tree) fn
         /\ Extractor.extract_names parse line file_content fp
            = Returned (mk_ExtractedFunction
                          cls (PyStr (Extractor.name_of fn))
                          (Some (Extractor.lines_of file_content fn)) fp)
         /\ ((Forall (fun x => Extractor.is_class x = false)
                     (Extractor.entered line tree) /\ cls = None)
             \/ (exists c,
                    last_with Extractor.is_class
                              (Extractor.entered line tree) c
                    /\ cls = Some (Extractor.name_of c)))).
Proof.
  intros Hp. unfold Extractor.extract_names. rewrite Hp. cbn zeta.
  rewrite visit_entered.
  pose proof (fold_enter_function (splitlines file_content)
                (Extractor.entered line tree)
                (Extractor.mk_locals None None None)) as Hf.
  pose proof (fold_enter_class (splitlines file_content)
                (Extractor.entered line tree)
                (Extractor.mk_locals None None None)) as Hc.
  cbn zeta in Hf, Hc.
  destruct Hf as [(Hall & Hm & _)|(fn & Hl & Hm & Hd)].
  - left. split; [exact Hall|]. rewrite Hm. reflexivity.
  - right. rewrite Hm, Hd.
    exists fn, (Extractor.class_name
                  (fold_left (Extractor.enter (splitlines file_content))
                             (Extractor.entered line tree)
                             (Extractor.mk_locals None None None))).
    split; [exact Hl|]. split; [reflexivity|].
    destruct Hc as [(Hall & Hn)|(c & Hlc & Hn)].
    + left. now split.
    + right. now exists c.
Qed.

Lemma nodes_of_unfold n :
  Extractor.nodes_of n
  = n :: flat_map Extractor.nodes_of (Extractor.children_of n).
Proof. now destruct n. Qed.

Lemma descendant_nodes n d :
  Extractor.descendant n d <-> d ∈ Extractor.nodes_of n.
Proof.
  split.
  - induction 1 as [n|n c d Hc _ IH]; rewrite nodes_of_unfold.
    + apply list_elem_of_here.
    + apply list_elem_of_further, list_elem_of_In, in_flat_map.
      exists c. split; now apply list_elem_of_In.
  - revert d.
    assert (Hch : forall ch d,
               Forall (fun n => forall d, d ∈ Extractor.nodes_of n ->
                                          Extractor.descendant n d) ch ->
               d ∈ flat_map Extractor.nodes_of ch ->
               exists c, c ∈ ch /\ Extractor.descendant c d).
    { intros ch d Hall Hd.
      apply list_elem_of_In, in_flat_map in Hd as (c & Hc & Hd).
      apply list_elem_of_In in Hc, Hd. exists c. split; [exact Hc|].
      exact (proj1 (Forall_forall _ _) Hall c Hc d Hd). }
    induction n as [name lo hi ch IH|name lo hi ch IH|ch IH]
      using extractor_node_ind; intros d Hd;
      rewrite nodes_of_unfold in Hd;
      (apply elem_of_cons in Hd as [->|Hd]; [constructor|]);
      destruct (Hch _ _ IH Hd) as (c & Hc & Hcd);
      now apply Extractor.descendant_child with c.
Qed.

(** X18: what [extract_names] returns names a function definition of the
    file whose lines include the line: [func_name] is its name, [func_def]
    is the text of its lines (from the line of its [def] to its last line,
    decorators not included) joined by newlines, [file_path] is the path
    given; [class_name] is [None] or the name of a class definition of the
    file whose lines include the line. *)
Theorem extract_names_returns_spanning_function :
  forall parse line file_content fp tree f,
    parse file_content = Extractor.Parsed tree ->
    Extractor.extract_names parse line file_content fp = Returned f ->
    (exists fn,
        fn ∈ Extractor.nodes_of tree
        /\ Extractor.is_function fn = true
        /\ Extractor.first_line fn <= line <= Extractor.last_line fn
        /\ func_name f = PyStr (Extractor.name_of fn)
        /\ func_def f = Some (Extractor.lines_of file_content fn))
    /\ file_path f = fp
    /\ (class_name f = None
        \/ exists c,
            c ∈ Extractor.nodes_of tree
            /\ Extractor.is_class c = true
            /\ Extractor.first_line c <= line <= Extractor.last_line c
            /\ class_name f = Some (Extractor.name_of c)).
Proof.
  intros parse line file_content fp tree f Hp H.
  destruct (extract_names_cases parse line file_content fp tree Hp)
    as [(_ & E)|(fn & cls & Hl & E & Hc)]; rewrite E in H;
    [discriminate H|].
  injection H as <-. cbn [func_name func_def file_path class_name].
  split; [|split; [reflexivity|]].
  - exists fn. apply last_with_elem in Hl as [Hin Hf].
    apply entered_sound in Hin as [Hd Hs]. apply descendant_nodes in Hd.
    apply spans_range, andb_true_iff in Hs as [H1 H2].
    apply Z.leb_le in H1, H2. repeat split; auto.
  - destruct Hc as [(_ & ->)|(c & Hlc & ->)]; [now left|].
    right. exists c. apply last_with_elem in Hlc as [Hin Hc].
    apply entered_sound in Hin as [Hd Hs]. apply descendant_nodes in Hd.
    apply spans_range, andb_true_iff in Hs as [H1 H2].
    apply Z.leb_le in H1, H2. repeat split; auto.
Qed.

Lemma extract_names_returns_spanning_function_witness :
  exists fn,
    fn ∈ Extractor.nodes_of Extractor.scale_tree
    /\ Extractor.is_function fn = true
    /\ Extractor.first_line fn <= 6 <= Extractor.last_line fn
    /\ PyStr "inner" = PyStr (Extractor.name_of fn)
    /\ Some ("        def inner():" +:+ nl +:+ "            return 1")
       = Some (Extractor.lines_of Extractor.scale_src fn).
Proof.
  refine (proj1 (extract_names_returns_spanning_function
                   Extractor.recorded_parse 6 Extractor.scale_src
                   (Some "scale.py") Extractor.scale_tree
                   (mk_ExtractedFunction
                      (Some "A") (PyStr "inner")
                      (Some ("        def inner():" +:+ nl
                             +:+ "            return 1"))
                      (Some "scale.py")) _ _)).
  - vm_compute. reflexivity.
  - vm_compute. reflexivity.
Defined.

(** X19: [extract_names] raises its [ValueError] when no function
    definition of the file has the line among its lines (a line of a class
    body outside its methods, a line at module level); and in a tree where
    the lines of a definition include those of the definitions below it, it
    returns whenever some function definition has the line. *)
Theorem extract_names_raises_without_spanning_function :
  forall parse line file_content fp tree,
    parse file_content = Extractor.Parsed tree ->
    (Forall (fun d => Extractor.is_function d = true ->
                      Extractor.spans line d = false)
            (Extractor.nodes_of tree) ->
     Extractor.extract_names parse line file_content fp
     = Raised (no_method_at line))
    /\ (Extractor.well_nested tree ->
        forall d, d ∈ Extractor.nodes_of tree ->
                  Extractor.is_function d = true ->
                  Extractor.spans line d = true ->
                  exists f, Extractor.extract_names parse line file_content fp
                            = Returned f).
Proof.
  intros parse line file_content fp tree Hp.
  destruct (extract_names_cases parse line file_content fp tree Hp)
    as [(Hall & E)|(fn & cls & Hl & E & _)]; split.
  - intros _. exact E.
  - intros Hw d Hd Hf Hs. exfalso. apply descendant_nodes in Hd.
    assert (Hin : d ∈ Extractor.entered line tree).
    { apply entered_complete; [exact Hd|exact Hs|].
      intros x Hx Hxd Hk. apply descendant_nodes in Hx, Hxd.
      pose proof (proj1 (Forall_forall _ _)
                        (proj1 (Forall_forall _ _) Hw x Hx Hk) d Hxd)
        as Hn.
      destruct Hn as [H1 H2]; [now rewrite Hf, orb_true_r|].
      pose proof (spans_range line d Hs) as Hr.
      apply andb_true_iff in Hr as [R1 R2]. apply Z.leb_le in R1, R2.
      unfold Extractor.spans. rewrite Hk. cbn [andb].
      apply andb_true_iff. split; apply Z.leb_le; lia. }
    pose proof (proj1 (Forall_forall _ _) Hall d Hin) as Hn.
    cbn beta in Hn. congruence.
  - intros Hno. exfalso.
    apply last_with_elem in Hl as [Hin Hf].
    apply entered_sound in Hin as [Hd Hs]. apply descendant_nodes in Hd.
    rewrite (proj1 (Forall_forall _ _) Hno fn Hd Hf) in Hs.
    discriminate Hs.
  - intros _ d _ _ _. eexists. exact E.
Qed.

Lemma extract_names_raises_without_spanning_function_witness :
  Extractor.extract_names Extractor.recorded_parse 3 Extractor.scale_src None
  = Raised (no_method_at 3)
  /\ exists f,
      Extractor.extract_names Extractor.recorded_parse 9 Extractor.scale_src
                              None
      = Returned f.
Proof.
  split.
  - refine (proj1 (extract_names_raises_without_spanning_function
                     Extractor.recorded_parse 3 Extractor.scale_src None
                     Extractor.scale_tree _) _).
    + vm_compute. reflexivity.
    + apply (bool_decide_unpack _). vm_compute. exact I.
  - refine (proj2 (extract_names_raises_without_spanning_function
                     Extractor.recorded_parse 9 Extractor.scale_src None
                     Extractor.scale_tree _) _
                  (Extractor.FunctionDef "f" 8 9
                     [Extractor.Other []; Extractor.Other []]) _ _ _).
    + vm_compute. reflexivity.
    + apply (bool_decide_unpack _). vm_compute. exact I.
    + vm_compute.
      repeat first [apply list_elem_of_here|apply list_elem_of_further].
    + reflexivity.
    + reflexivity.
Defined.

(** X20: of the definitions whose lines include the line, [extract_names]
    keeps the last function and the last class that the visitor enters
    (it enters a definition when its lines include the line, and then the
    nodes below it, in order).  The function and the class are found
    independently of each other: the class is the innermost class around
    the line, also when it is a class inside the function that is
    returned. *)
Theorem extract_names_keeps_last_entered :
  forall parse line file_content fp tree f,
    parse file_content = Extractor.Parsed tree ->
    Extractor.extract_names parse line file_content fp = Returned f ->
    (exists fn,
        last_with Extractor.is_function (Extractor.entered line tree) fn
        /\ func_name f = PyStr (Extractor.name_of fn)
        /\ func_def f = Some (Extractor.lines_of file_content fn))
    /\ ((Forall (fun x => Extractor.is_class x = false)
                (Extractor.entered line tree)
         /\ class_name f = None)
        \/ (exists c,
               last_with Extractor.is_class (Extractor.entered line tree) c
               /\ class_name f = Some (Extractor.name_of c))).
Proof.
  intros parse line file_content fp tree f Hp H.
  destruct (extract_names_cases parse line file_content fp tree Hp)
    as [(_ & E)|(fn & cls & Hl & E & Hc)]; rewrite E in H;
    [discriminate H|].
  injection H as <-. cbn [func_name func_def file_path class_name].
  split; [now exists fn|].
  destruct Hc as [(Hall & ->)|(c & Hlc & ->)]; [now left|].
  right. now exists c.
Qed.

Lemma extract_names_keeps_last_entered_witness :
  Extractor.extract_names Extractor.recorded_parse 4
                          Extractor.local_class_src None
  = Returned (mk_ExtractedFunction
                (Some "B") (PyStr "m")
                (Some ("    def m(self):" +:+ nl +:+ "        class B:"
                       +:+ nl +:+ "            z = 0" +:+ nl
                       +:+ "        return B"))
                None)
  /\ Extractor.entered 4 Extractor.local_class_tree
     = [Extractor.ClassDef "A" 1 5
          (Extractor.children_of
             (Extractor.ClassDef "A" 1 5
                [Extractor.FunctionDef "m" 2 5
                   [Extractor.Other [Extractor.Other []];
                    Extractor.ClassDef "B" 3 4
                      [Extractor.Other
                         [Extractor.Other [Extractor.Other []];
                          Extractor.Other []]];
                    Extractor.Other [Extractor.Other [Extractor.Other []]]]]));
        Extractor.FunctionDef "m" 2 5
          [Extractor.Other [Extractor.Other []];
           Extractor.ClassDef "B" 3 4
             [Extractor.Other
                [Extractor.Other [Extractor.Other []];
                 Extractor.Other []]];
           Extractor.Other [Extractor.Other [Extractor.Other []]]];
        Extractor.ClassDef "B" 3 4
          [Extractor.Other
             [Extractor.Other [Extractor.Other []];
              Extractor.Other []]]].
Proof.
  assert (E : Extractor.extract_names Extractor.recorded_parse 4
                                      Extractor.local_class_src None
              = Returned (mk_ExtractedFunction
                            (Some "B") (PyStr "m")
                            (Some ("    def m(self):" +:+ nl
                                   +:+ "        class B:" +:+ nl
                                   +:+ "            z = 0" +:+ nl
                                   +:+ "        return B"))
                            None))
    by (vm_compute; reflexivity).
  split; [exact E|].
  destruct (extract_names_keeps_last_entered
              Extractor.recorded_parse 4 Extractor.local_class_src None
              Extractor.local_class_tree _ eq_refl E) as [_ _].
  vm_compute. reflexivity.
Defined.

(* ------------------------------------------------------------------------- *)
(** * The source of a node *)

Lemma rstrip_split s :
  exists tail, s = rstrip s +:+ tail /\ all_space tail = true.
Proof.
  unfold rstrip. induction s as [|c r (t & Hr & Ht)].
  - now exists "".
  - cbn [rstrip_chars].
    destruct (rstrip_chars is_space r) as [|d r'] eqn:E.
    + change ("" +:+ t) with t in Hr. subst t.
      destruct (is_space c) eqn:Ec.
      * exists (String c r). split; [reflexivity|].
        cbn [all_space]. now rewrite Ec, Ht.
      * exists r. split; [reflexivity|exact Ht].
    + exists t. split; [|exact Ht].
      rewrite str_app_cons. now rewrite <- Hr.
Qed.

Lemma rstrip_idempotent s : rstrip (rstrip s) = rstrip s.
Proof.
  unfold rstrip. induction s as [|c r IH]; [reflexivity|].
  cbn [rstrip_chars].
  destruct (rstrip_chars is_space r) as [|d r'] eqn:E.
  - destruct (is_space c) eqn:Ec; [reflexivity|].
    cbn [rstrip_chars]. now rewrite Ec.
  - change (rstrip_chars is_space (String c (String d r')))
      with (match rstrip_chars is_space (String d r') with
            | "" => if is_space c then "" else String c ""
            | String x y => String c (String x y)
            end).
    now rewrite IH.
Qed.

Lemma rstrip_keeps_indentation s :
  rstrip s <> "" ->
  get_leading_whitespace (rstrip s) = get_leading_whitespace s.
Proof.
  unfold rstrip, get_leading_whitespace.
  induction s as [|c r IH]; [reflexivity|].
  cbn [rstrip_chars].
  destruct (rstrip_chars is_space r) as [|d r'] eqn:E.
  - destruct (is_space c) eqn:Ec; [intros H; now destruct H|].
    intros _. cbn [take_while]. now rewrite Ec.
  - intros _. cbn [take_while] in *.
    destruct (is_space c); [|reflexivity].
    f_equal. apply IH. discriminate.
Qed.

(** X21: [_get_node_source_segment_v2] always returns, and returns the
    lines of the node (from the line of its first decorator, if it has one,
    to its last line) as they are in the source, less the whitespace at
    their end: the result has no whitespace at its end, and when it is not
    empty it starts with the indentation that the first line has in the
    source, which is not removed.  The merger is not changed; one ERROR
    record is written when the lines are empty, none otherwise. *)
Theorem node_source_segment_keeps_indentation :
  forall src n w,
    exists r l,
      _get_node_source_segment_v2 src n w = (Returned r, logged w l)
      /\ (exists tail, source_segment src n = r +:+ tail
                       /\ all_space tail = true)
      /\ rstrip r = r
      /\ (r <> "" ->
          get_leading_whitespace r
          = get_leading_whitespace (source_segment src n))
      /\ (source_segment src n = "" ->
          exists msg, l = [mk_log ERROR msg])
      /\ (source_segment src n <> "" -> l = []).
Proof.
  intros src n w. unfold _get_node_source_segment_v2.
  destruct (source_segment src n) as [|c s] eqn:E.
  - exists "". eexists. split; [reflexivity|].
    split; [now exists ""|]. split; [reflexivity|].
    split; [intros H; now destruct H|].
    split; [intros _; eexists; reflexivity|]. intros H. now destruct H.
  - cbn [truthy negb]. exists (rstrip (String c s)), [].
    split; [unfold ret; now rewrite logged_nil|].
    split; [apply rstrip_split|]. split; [apply rstrip_idempotent|].
    split; [apply rstrip_keeps_indentation|].
    split; [discriminate|reflexivity].
Qed.

Lemma node_source_segment_keeps_indentation_witness :
  exists r l,
    _get_node_source_segment_v2
      Recorded.case_new_src (Ast.NStmt Examples.case_target) world0
    = (Returned r, logged world0 l)
    /\ (exists tail,
           source_segment Recorded.case_new_src
                          (Ast.NStmt Examples.case_target)
           = r +:+ tail
           /\ all_space tail = true)
    /\ rstrip r = r
    /\ (r <> "" ->
        get_leading_whitespace r
        = get_leading_whitespace
            (source_segment Recorded.case_new_src
                            (Ast.NStmt Examples.case_target)))
    /\ (source_segment Recorded.case_new_src
                       (Ast.NStmt Examples.case_target) = "" ->
        exists msg, l = [mk_log ERROR msg])
    /\ (source_segment Recorded.case_new_src
                       (Ast.NStmt Examples.case_target) <> "" ->
        l = []).
Proof.
  exact (node_source_segment_keeps_indentation
           Recorded.case_new_src (Ast.NStmt Examples.case_target) world0).
Defined.

(** ** A new function in ADD mode *)

Lemma endswith_nl_not_rstripped r : endswith r nl = true -> rstrip r <> r.
Proof.
  unfold rstrip. induction r as [|c r IH]; [discriminate|].
  cbn [endswith rstrip_chars]. intros H.
  apply orb_true_iff in H as [H|H].
  - apply String.eqb_eq in H. injection H as -> ->. discriminate.
  - specialize (IH H).
    destruct (rstrip_chars is_space r) as [|d x] eqn:E.
    + destruct r as [|d r]; [discriminate H|].
      destruct (is_space c); discriminate.
    + intros K. injection K as K. now apply IH.
Qed.

Lemma is_crlf_is_space c : is_crlf c = true -> is_space c = true.
Proof.
  unfold is_crlf. intros H. apply orb_true_iff in H as [H|H];
    apply Ascii.eqb_eq in H; subst c; reflexivity.
Qed.

Lemma rstrip_crlf_rstripped r : rstrip r = r -> rstrip_crlf r = r.
Proof.
  unfold rstrip, rstrip_crlf. induction r as [|c r IH]; [reflexivity|].
  cbn [rstrip_chars].
  destruct (rstrip_chars is_space r) as [|d x] eqn:E.
  - destruct (is_space c) eqn:Ec; [discriminate|].
    intros K. injection K as <-. cbn [rstrip_chars].
    destruct (is_crlf c) eqn:Ek; [|reflexivity].
    apply is_crlf_is_space in Ek. congruence.
  - intros K. injection K as <-. rewrite (IH eq_refl). reflexivity.
Qed.

Lemma rstrip_app_space r t : all_space t = true -> rstrip (r +:+ t) = rstrip r.
Proof.
  intros Ht. induction r as [|c r IH].
  - change ("" +:+ t) with t. now rewrite rstrip_all_space.
  - rewrite str_app_cons. unfold rstrip in *. cbn [rstrip_chars].
    now rewrite IH.
Qed.

Lemma ensure_newline_rstripped s :
  strip s <> "" ->
  ensure_newline (rstrip s) = rstrip s +:+ nl
  /\ ensure_newline (rstrip s +:+ nl) = rstrip s +:+ nl
  /\ truthy (strip (rstrip s +:+ nl)) = true.
Proof.
  intros Hs.
  assert (Hr : strip (rstrip s) = strip s)
    by (unfold strip; now rewrite rstrip_idempotent).
  assert (Ht : truthy (strip s) = true) by (now destruct (strip s)).
  assert (He : endswith (rstrip s) nl = false).
  { destruct (endswith (rstrip s) nl) eqn:E; [|reflexivity].
    apply endswith_nl_not_rstripped in E.
    now rewrite rstrip_idempotent in E. }
  assert (Hn : strip (rstrip s +:+ nl) = strip s).
  { unfold strip. rewrite rstrip_app_space by reflexivity.
    now rewrite rstrip_idempotent. }
  split; [|split].
  - unfold ensure_newline. rewrite Hr, Ht, He. cbn [negb andb].
    now rewrite (rstrip_crlf_rstripped _ (rstrip_idempotent s)).
  - unfold ensure_newline.
    rewrite (endswith_app_r (rstrip s) nl nl eq_refl).
    now rewrite andb_false_r.
  - now rewrite Hn.
Qed.

(** X22: in ADD mode, a function of the new unit whose name the index of
    the merger lacks is copied to the end of the text: the walk appends the
    lines of the function as they are in the new unit (decorators included,
    trailing whitespace removed, one newline added) after the separator,
    keeps the old text, and records the function by its name with that
    text. *)
Theorem add_mode_copies_new_function :
  forall parse h new_src p node w p' w',
    Forall nl_terminated (lines (self w)) ->
    Ast.is_FunctionDef node = true ->
    fn_map (self w) !! Ast.name node = None ->
    strip (source_segment new_src (Ast.NStmt node)) <> "" ->
    walk_node parse h new_src "ADD" p node w = (Returned p', w') ->
    let snippet := rstrip (source_segment new_src (Ast.NStmt node)) +:+ nl in
    text_of w' = text_of w +:+ end_separator (lines (self w)) +:+ snippet
    /\ merged_test_funcs p'
       = set_add h (merged_test_funcs p)
                 (mk_ExtractedFunction None (PyStr (Ast.name node))
                                       (Some snippet) None).
Proof.
  intros parse h new_src p node w p' w' Hls Hf Hn Hs H snippet.
  destruct (ensure_newline_rstripped _ Hs) as (E1 & E2 & E3).
  unfold walk_node in H.
  assert (Eseg : _get_node_source_segment_v2 new_src (Ast.NStmt node) w
                 = (Returned (rstrip (source_segment new_src
                                                     (Ast.NStmt node))), w)).
  { unfold _get_node_source_segment_v2.
    destruct (source_segment new_src (Ast.NStmt node)) as [|c s];
      [now destruct Hs|reflexivity]. }
  rewrite (bind_Returned _ _ _ _ _ Eseg) in H.
  assert (Et : truthy (rstrip (source_segment new_src (Ast.NStmt node)))
               = true).
  { destruct (rstrip (source_segment new_src (Ast.NStmt node))) eqn:E;
      [|reflexivity].
    unfold strip in Hs. rewrite E in Hs. now destruct Hs. }
  rewrite Et, E1 in H. cbn [negb] in H.
  assert (Ei : Ast.is_import node = false) by (now destruct node).
  assert (Ec : Ast.is_ClassDef node = false) by (now destruct node).
  rewrite Ei, Ec, Hf in H.
  change (String.eqb "ADD" "ADD") with true in H. cbv iota in H.
  unfold bind at 1, get_self in H. rewrite Hn in H.
  apply bind_inv_Returned in H as ([] & w2 & Ha & H).
  injection H as <- <-.
  split; [|reflexivity].
  rewrite (add_class_or_func_splice _ _ _ Hls) in Ha.
  assert (Hp : Forall nl_terminated
                 [end_separator (lines (self w))
                  +:+ ensure_newline snippet]).
  { constructor; [|constructor]. apply nl_terminated_app.
    - unfold end_separator. destruct (last _); [|now left].
      destruct (_ || _); [now left|now right].
    - unfold snippet. rewrite E2. right.
      now apply endswith_app_r. }
  rewrite (splice_refresh_text _ _ _ _ _ _ _ Hls Hp Ha).
  rewrite splice_index_length, take_ge, drop_ge by lia.
  unfold text_of, snippet. rewrite concat_cons, E2.
  change (concat []) with "". now rewrite !str_app_nil_r.
Qed.

Lemma add_mode_copies_new_function_witness :
  let w := MoreRecorded.merger_on Recorded.import_os_src in
  let p := mk_Pending [] [] [] [] [] [] in
  let r := walk_node MoreRecorded.more_parse Recorded.names_hash
                     Recorded.func_f_src "ADD" p
                     (Ast.FunctionDef "f"
                        (Ast.mk_arguments [] [] None [] None)
                        [Ast.Stmt "Pass" 2 2] [] 1 2 0) w in
  text_of (snd r)
  = Recorded.text ["import os"; ""; "def f():"; "    pass"].
Proof.
  refine (eq_trans
            (proj1 (add_mode_copies_new_function
                      MoreRecorded.more_parse Recorded.names_hash
                      Recorded.func_f_src
                      (mk_Pending [] [] [] [] [] [])
                      (Ast.FunctionDef "f"
                         (Ast.mk_arguments [] [] None [] None)
                         [Ast.Stmt "Pass" 2 2] [] 1 2 0)
                      (MoreRecorded.merger_on Recorded.import_os_src)
                      (mk_Pending
                         [] [] [] [] []
                         [mk_ExtractedFunction
                            None (PyStr "f")
                            (Some Recorded.func_f_src) None])
                      _ _ _ _ _ _)) _).
  - vm_compute. repeat (constructor; [right; reflexivity|]). constructor.
  - reflexivity.
  - vm_compute. reflexivity.
  - vm_compute. discriminate.
  - vm_compute. reflexivity.
  - vm_compute. reflexivity.
Defined.

(* ------------------------------------------------------------------------- *)
(** * [extract_test_context] *)

Lemma context_visit_children tc tm ch :
  Forall (fun n => forall st,
              TestContext.visit tc tm n st
              = fold_left (handle tc tm) (TestContext.visited n) st) ch ->
  forall st,
    fold_left (fun st c => TestContext.visit tc tm c st) ch st
    = fold_left (handle tc tm) (flat_map TestContext.visited ch) st.
Proof.
  induction 1 as [|c r Hc _ IH]; intros st; [reflexivity|].
  cbn [fold_left flat_map]. rewrite fold_left_app, <- Hc. apply IH.
Qed.

(** The visit of a tree is the visit of its visited nodes, in order. *)
Lemma context_visit_visited tc tm :
  forall n st,
    TestContext.visit tc tm n st
    = fold_left (handle tc tm) (TestContext.visited n) st.
Proof.
  fix IH 1. intros [c|c|name header body|name lineno ds c|c|c|c|ch] st;
    try reflexivity.
  cbn [TestContext.visit TestContext.visited].
  apply context_visit_children.
  revert ch. fix IHch 1. intros [|c ch]; constructor;
    [apply IH|apply IHch].
Qed.

(** The loop over the body of the target class. *)
Lemma class_member_fold tm body :
  forall found acc,
    fold_left (TestContext.class_member tm) body (found, acc)
    = (found || existsb (TestContext.is_def_of tm) body,
       acc ++ List.filter (TestContext.kept_member tm) body).
Proof.
  induction body as [|x r IH]; intros found acc.
  - cbn. now rewrite orb_false_r, app_nil_r.
  - cbn [fold_left existsb List.filter].
    destruct x as [c|c|name header b|name lineno ds c|c|c|c|ch];
      cbn [TestContext.class_member TestContext.is_def_of
           TestContext.kept_member]; rewrite ?IH, ?orb_false_l;
      try reflexivity.
    + destruct (String.eqb name tm); cbn [orb].
      * rewrite IH. now rewrite orb_true_r, <- app_assoc.
      * destruct (negb (TestContext.is_test_method name)); rewrite IH;
          [now rewrite <- app_assoc|reflexivity].
    + now rewrite <- app_assoc.
    + now rewrite <- app_assoc.
Qed.

Lemma kept_member_keeps_target tm body :
  existsb (TestContext.is_def_of tm)
          (List.filter (TestContext.kept_member tm) body)
  = existsb (TestContext.is_def_of tm) body.
Proof.
  induction body as [|x r IH]; [reflexivity|].
  cbn [List.filter existsb].
  destruct (TestContext.kept_member tm x) eqn:Ek.
  - cbn [existsb]. now rewrite IH.
  - rewrite IH.
    destruct x as [c|c|name header b|name lineno ds c|c|c|c|ch];
      try reflexivity.
    cbn in Ek |- *. apply orb_false_iff in Ek as [-> _]. reflexivity.
Qed.

Lemma handle_found tc tm st n :
  TestContext.found_target (handle tc tm st n)
  = TestContext.found_target st || TestContext.is_target tc tm n.
Proof.
  destruct n as [c|c|name header body|name lineno ds c|c|c|c|ch];
    cbn [handle TestContext.visit].
  - destruct tc; cbn; now rewrite orb_false_r.
  - destruct tc; cbn; now rewrite orb_false_r.
  - unfold TestContext.visit_ClassDef.
    destruct tc as [t|]; cbn [TestContext.truthy_opt TestContext.is_target];
      [|cbn; now rewrite orb_false_r].
    destruct (truthy t); cbn [andb]; [|cbn; now rewrite orb_false_r].
    destruct (decide (name = t)) as [->|Hn].
    + rewrite bool_decide_eq_true_2 by reflexivity.
      rewrite String.eqb_refl. cbn [andb].
      cbn [TestContext.set_current_class TestContext.found_target].
      rewrite class_member_fold.
      destruct (TestContext.found_target st
                || existsb (TestContext.is_def_of tm) body); reflexivity.
    + rewrite bool_decide_eq_false_2 by congruence.
      apply String.eqb_neq in Hn. rewrite Hn. cbn. now rewrite orb_false_r.
  - unfold TestContext.visit_FunctionDef.
    destruct tc as [t|]; cbn [TestContext.is_target].
    + rewrite bool_decide_eq_false_2 by discriminate. cbn [andb].
      rewrite orb_false_r.
      destruct (negb (TestContext.truthy_opt (TestContext.current_class st)));
        [|reflexivity].
      destruct (TestContext.is_fixture ds); [reflexivity|].
      destruct (negb (TestContext.is_test_method name)); reflexivity.
    + rewrite bool_decide_eq_true_2 by reflexivity. cbn [andb].
      destruct (String.eqb name tm); [cbn; now rewrite orb_true_r|].
      rewrite orb_false_r.
      destruct (negb (TestContext.truthy_opt (TestContext.current_class st)));
        [|reflexivity].
      destruct (TestContext.is_fixture ds); [reflexivity|].
      destruct (negb (TestContext.is_test_method name)); reflexivity.
  - unfold TestContext.visit_statement.
    destruct tc, (negb _); cbn; now rewrite orb_false_r.
  - unfold TestContext.visit_statement.
    destruct tc, (negb _); cbn; now rewrite orb_false_r.
  - unfold TestContext.visit_statement.
    destruct tc, (negb _); cbn; now rewrite orb_false_r.
  - destruct tc; cbn; now rewrite orb_false_r.
Qed.

Lemma fold_handle_found tc tm l :
  forall st,
    TestContext.found_target (fold_left (handle tc tm) l st)
    = TestContext.found_target st || existsb (TestContext.is_target tc tm) l.
Proof.
  induction l as [|n r IH]; intros st; cbn [fold_left existsb].
  - now rewrite orb_false_r.
  - now rewrite IH, handle_found, orb_assoc.
Qed.

(** One method of the visitor appends nothing, or its node as [trim] gives
    it, and then the node is one that can be kept. *)
Lemma handle_required tc tm st n :
  TestContext.required_nodes (handle tc tm st n)
  = TestContext.required_nodes st
  \/ (TestContext.required_nodes (handle tc tm st n)
      = TestContext.required_nodes st ++ [trim tm n]
      /\ keepable tc tm n = true).
Proof.
  destruct n as [c|c|name header body|name lineno ds c|c|c|c|ch];
    cbn [handle TestContext.visit].
  - right. now split.
  - right. now split.
  - unfold TestContext.visit_ClassDef.
    destruct tc as [t|]; cbn [TestContext.truthy_opt];
      [|left; reflexivity].
    destruct (truthy t); cbn [andb]; [|left; reflexivity].
    destruct (decide (name = t)) as [->|Hn].
    + rewrite bool_decide_eq_true_2 by reflexivity.
      cbn [TestContext.set_current_class TestContext.found_target].
      rewrite class_member_fold.
      destruct (TestContext.found_target st
                || existsb (TestContext.is_def_of tm) body);
        [|left; reflexivity].
      right. split; [reflexivity|].
      unfold keepable. cbn. now rewrite String.eqb_refl.
    + rewrite bool_decide_eq_false_2 by congruence. left. reflexivity.
  - unfold TestContext.visit_FunctionDef.
    destruct tc as [t|].
    + rewrite bool_decide_eq_false_2 by discriminate. cbn [andb].
      left.
      destruct (negb (TestContext.truthy_opt (TestContext.current_class st)));
        [|reflexivity].
      destruct (TestContext.is_fixture ds); [reflexivity|].
      destruct (negb (TestContext.is_test_method name)); reflexivity.
    + rewrite bool_decide_eq_true_2 by reflexivity. cbn [andb].
      destruct (String.eqb name tm) eqn:En.
      * right. split; [reflexivity|]. unfold keepable. cbn. exact En.
      * left.
        destruct (negb (TestContext.truthy_opt
                          (TestContext.current_class st)));
          [|reflexivity].
        destruct (TestContext.is_fixture ds); [reflexivity|].
        destruct (negb (TestContext.is_test_method name)); reflexivity.
  - unfold TestContext.visit_statement.
    destruct (negb _); [right; now split|left; reflexivity].
  - unfold TestContext.visit_statement.
    destruct (negb _); [right; now split|left; reflexivity].
  - unfold TestContext.visit_statement.
    destruct (negb _); [right; now split|left; reflexivity].
  - left. reflexivity.
Qed.

Lemma fold_handle_required tc tm l :
  forall st,
    exists kept,
      TestContext.required_nodes (fold_left (handle tc tm) l st)
      = TestContext.required_nodes st ++ map (trim tm) kept
      /\ sublist kept l
      /\ Forall (fun n => keepable tc tm n = true) kept.
Proof.
  induction l as [|n r IH]; intros st; cbn [fold_left].
  - exists []. split; [now rewrite app_nil_r|]. split; constructor.
  - destruct (IH (handle tc tm st n)) as (kept & E & Hs & Hk).
    destruct (handle_required tc tm st n) as [H|[H Hn]].
    + exists kept. rewrite E, H. split; [reflexivity|].
      split; [now apply sublist_cons|exact Hk].
    + exists (n :: kept). rewrite E, H, <- app_assoc.
      split; [reflexivity|].
      split; [now apply sublist_skip|now constructor].
Qed.

Lemma assign_values {V} (Q : V -> Prop) k v (d : list (string * V)) :
  Q v -> Forall Q (map snd d) -> Forall Q (map snd (PyDict.assign k v d)).
Proof.
  intros Hv. induction d as [|[k' v'] r IH]; intros Hd; cbn.
  - now constructor.
  - apply Forall_cons in Hd as [H1 H2].
    destruct (String.eqb k k'); cbn; constructor; auto.
Qed.

(** One method of the visitor collects nothing, or its node, and then the
    node is a fixture or a function that is no test. *)
Lemma handle_collects tc tm st n (Q : TestContext.node -> Prop) :
  (collectable n = true -> Q n) ->
  Forall Q (map snd (TestContext.fixture_nodes st)) ->
  Forall Q (map snd (TestContext.helper_functions st)) ->
  Forall Q (map snd (TestContext.fixture_nodes (handle tc tm st n)))
  /\ Forall Q (map snd (TestContext.helper_functions (handle tc tm st n))).
Proof.
  intros Hn Hf Hh.
  destruct n as [c|c|name header body|name lineno ds c|c|c|c|ch];
    cbn [handle TestContext.visit]; try (now split).
  - unfold TestContext.visit_ClassDef.
    destruct (_ && _); [|now split].
    cbn [TestContext.set_current_class TestContext.found_target].
    rewrite class_member_fold.
    destruct (_ || _); now split.
  - unfold TestContext.visit_FunctionDef.
    destruct (_ && _); [now split|].
    destruct (negb _); [|now split].
    cbn [collectable] in Hn.
    destruct (TestContext.is_fixture ds).
    + split; [|exact Hh]. cbn. apply assign_values; [now apply Hn|exact Hf].
    + destruct (negb (TestContext.is_test_method name)); [|now split].
      split; [exact Hf|]. cbn. apply assign_values; [now apply Hn|exact Hh].
  - unfold TestContext.visit_statement. destruct (negb _); now split.
  - unfold TestContext.visit_statement. destruct (negb _); now split.
  - unfold TestContext.visit_statement. destruct (negb _); now split.
Qed.

Lemma fold_handle_collects tc tm (Q : TestContext.node -> Prop) l :
  (forall n, n ∈ l -> collectable n = true -> Q n) ->
  forall st,
    Forall Q (map snd (TestContext.fixture_nodes st)) ->
    Forall Q (map snd (TestContext.helper_functions st)) ->
    Forall Q (map snd (TestContext.fixture_nodes
                         (fold_left (handle tc tm) l st)))
    /\ Forall Q (map snd (TestContext.helper_functions
                            (fold_left (handle tc tm) l st))).
Proof.
  induction l as [|n r IH]; intros Hl st Hf Hh; cbn [fold_left].
  - now split.
  - destruct (handle_collects tc tm st n Q) as [Hf' Hh']; auto.
    { apply Hl. apply list_elem_of_here. }
    apply IH; auto. intros x Hx. apply Hl. now apply list_elem_of_further.
Qed.

(** When the target is found, a node that holds it has been kept. *)
Lemma handle_holds_target tc tm st n :
  (TestContext.found_target st = true ->
   existsb (holds_target tc tm) (TestContext.required_nodes st) = true) ->
  TestContext.found_target (handle tc tm st n) = true ->
  existsb (holds_target tc tm)
          (TestContext.required_nodes (handle tc tm st n)) = true.
Proof.
  intros Hst Hf. rewrite handle_found in Hf.
  destruct (handle_required tc tm st n) as [E|[E Hk]]; rewrite E.
  - destruct (TestContext.found_target st) eqn:Es; [now apply Hst|].
    cbn [orb] in Hf. exfalso.
    (* the node is the target, so it was appended *)
    destruct n as [c|c|name header body|name lineno ds c|c|c|c|ch];
      destruct tc as [t|]; cbn in Hf; try discriminate Hf.
    + cbn [handle TestContext.visit] in E.
      unfold TestContext.visit_ClassDef in E.
      apply andb_true_iff in Hf as [Hf Hb].
      apply andb_true_iff in Hf as [Ht Hn]. apply String.eqb_eq in Hn.
      subst t. cbn [TestContext.truthy_opt] in E.
      rewrite Ht, bool_decide_eq_true_2 in E by reflexivity.
      cbn [andb TestContext.set_current_class TestContext.found_target] in E.
      rewrite class_member_fold, Hb, orb_true_r in E. cbn in E.
      apply (f_equal (@length _)) in E. rewrite length_app in E.
      cbn in E. lia.
    + cbn [handle TestContext.visit] in E.
      unfold TestContext.visit_FunctionDef in E.
      rewrite bool_decide_eq_true_2, Hf in E by reflexivity. cbn in E.
      apply (f_equal (@length _)) in E. rewrite length_app in E.
      cbn in E. lia.
  - rewrite existsb_app. apply orb_true_iff.
    destruct (TestContext.found_target st) eqn:Es; [left; now apply Hst|].
    right. cbn [orb] in Hf. cbn [existsb]. rewrite orb_false_r.
    destruct n as [c|c|name header body|name lineno ds c|c|c|c|ch];
      destruct tc as [t|]; cbn in Hf; try discriminate Hf.
    + apply andb_true_iff in Hf as [Hf Hb].
      apply andb_true_iff in Hf as [_ Hn].
      cbn [trim holds_target]. rewrite Hn, kept_member_keeps_target, Hb.
      reflexivity.
    + cbn [trim holds_target]. exact Hf.
Qed.

Lemma fold_handle_holds_target tc tm l :
  forall st,
    (TestContext.found_target st = true ->
     existsb (holds_target tc tm) (TestContext.required_nodes st) = true) ->
    TestContext.found_target (fold_left (handle tc tm) l st) = true ->
    existsb (holds_target tc tm)
            (TestContext.required_nodes (fold_left (handle tc tm) l st))
    = true.
Proof.
  induction l as [|n r IH]; intros st Hst; cbn [fold_left]; [exact Hst|].
  apply IH. now apply handle_holds_target.
Qed.

(** ** The sort by line *)

Lemma insert_by_lineno_Forall (Q : TestContext.node -> Prop) x l :
  Q x -> Forall Q l -> Forall Q (TestContext.insert_by_lineno x l).
Proof.
  intros Hx. induction 1 as [|y r Hy Hr IH]; cbn.
  - now repeat constructor.
  - destruct (_ <=? _); repeat constructor; auto.
Qed.

Lemma sort_by_lineno_Forall (Q : TestContext.node -> Prop) l :
  Forall Q l -> Forall Q (TestContext.sort_by_lineno l).
Proof.
  induction 1 as [|x r Hx _ IH]; [constructor|].
  cbn. now apply insert_by_lineno_Forall.
Qed.

Lemma insert_by_lineno_ascending x l :
  ascending (map TestContext.lineno_of l) ->
  ascending (map TestContext.lineno_of (TestContext.insert_by_lineno x l)).
Proof.
  induction l as [|y r IH]; intros Ha; cbn [TestContext.insert_by_lineno].
  - cbn. split; constructor.
  - destruct Ha as [Hy Hr].
    destruct (TestContext.lineno_of x <=? TestContext.lineno_of y) eqn:E.
    + apply Z.leb_le in E. cbn [map ascending].
      split; [|now split]. constructor; [exact E|].
      eapply Forall_impl; [exact Hy|]. intros z Hz. cbn in Hz. lia.
    + apply Z.leb_gt in E. cbn [map ascending]. split; [|now apply IH].
      apply Forall_map, (insert_by_lineno_Forall
                           (fun n => TestContext.lineno_of y
                                     <= TestContext.lineno_of n)).
      * lia.
      * exact (proj1 (Forall_map _ _ _) Hy).
Qed.

Lemma sort_by_lineno_ascending l :
  ascending (map TestContext.lineno_of (TestContext.sort_by_lineno l)).
Proof.
  induction l as [|x r IH]; [exact I|].
  cbn [TestContext.sort_by_lineno fold_right].
  now apply insert_by_lineno_ascending.
Qed.

(** The body of the new module, by what the visit found. *)
Lemma new_tree_body_cases parse source tc tm tree :
  parse source = TestContext.Parsed tree ->
  (existsb (TestContext.is_target tc tm) (TestContext.visited tree) = false
   /\ TestContext.new_tree_body parse source tc tm
      = Raised (TestContext.not_found tc tm))
  \/ (existsb (TestContext.is_target tc tm) (TestContext.visited tree) = true
      /\ exists kept functions,
          TestContext.new_tree_body parse source tc tm
          = Returned (TestContext.pytest_import
                      :: (map (trim tm) kept ++ functions))
          /\ sublist kept (TestContext.visited tree)
          /\ Forall (fun n => keepable tc tm n = true) kept
          /\ Forall (fun f => f ∈ TestContext.visited tree
                              /\ collectable f = true) functions
          /\ ascending (map TestContext.lineno_of functions)
          /\ existsb (holds_target tc tm) (map (trim tm) kept) = true).
Proof.
  intros Hp. unfold TestContext.new_tree_body. rewrite Hp.
  rewrite context_visit_visited.
  pose proof (fold_handle_found tc tm (TestContext.visited tree)
                                TestContext.init) as Hf.
  cbn [TestContext.init TestContext.found_target orb] in Hf.
  fold TestContext.init in Hf.
  destruct (existsb (TestContext.is_target tc tm) (TestContext.visited tree))
    eqn:Ee; rewrite Hf; cbn [negb].
  - right. split; [reflexivity|].
    destruct (fold_handle_required tc tm (TestContext.visited tree)
                                   TestContext.init)
      as (kept & Er & Hs & Hk).
    cbn [TestContext.init TestContext.required_nodes app] in Er.
    fold TestContext.init in Er.
    destruct (fold_handle_collects
                tc tm
                (fun f => f ∈ TestContext.visited tree
                          /\ collectable f = true)
                (TestContext.visited tree)
                (fun n Hn Hc => conj Hn Hc) TestContext.init)
      as [Hfx Hhl]; [constructor|constructor|].
    exists kept. eexists. split; [rewrite Er; reflexivity|].
    split; [exact Hs|]. split; [exact Hk|].
    split; [apply sort_by_lineno_Forall, Forall_app; now split|].
    split; [apply sort_by_lineno_ascending|].
    rewrite <- Er. apply fold_handle_holds_target; [discriminate|exact Hf].
  - left. now split.
Qed.

(** X23: [extract_test_context] finds its target among the nodes that the
    visitor reaches without entering a class or a function: with no class
    asked for, a function of the name asked for; with a class asked for, a
    class of that name with a method of the name asked for.  It raises the
    [ValueError] of a target not found otherwise (so a method is not found
    when no class is given, and nothing is found for an empty class
    name); and when the target is found, it returns the new module
    unparsed, and the new module holds the target. *)
Theorem extract_test_context_finds_target :
  forall parse unparse source tc tm tree,
    parse source = TestContext.Parsed tree ->
    (existsb (TestContext.is_target tc tm) (TestContext.visited tree)
     = false ->
     TestContext.extract_test_context parse unparse source tc tm
     = Raised (TestContext.not_found tc tm))
    /\ (existsb (TestContext.is_target tc tm) (TestContext.visited tree)
        = true ->
        exists body,
          TestContext.new_tree_body parse source tc tm = Returned body
          /\ TestContext.extract_test_context parse unparse source tc tm
             = Returned (unparse body)
          /\ existsb (holds_target tc tm) body = true).
Proof.
  intros parse unparse source tc tm tree Hp.
  unfold TestContext.extract_test_context.
  destruct (new_tree_body_cases parse source tc tm tree Hp)
    as [(Ee & E)|(Ee & kept & fs & E & _ & _ & _ & _ & Hh)];
    rewrite E, Ee; split; try discriminate.
  - reflexivity.
  - intros _. eexists. split; [reflexivity|]. split; [reflexivity|].
    cbn [existsb]. rewrite existsb_app, Hh. now rewrite orb_true_r.
Qed.

Lemma extract_test_context_finds_target_witness :
  TestContext.extract_test_context
    TestContext.recorded_parse (fun _ => "") TestContext.suite_src
    None "test_a"
  = Raised (ValueError "Target function 'test_a' not found in the file")
  /\ exists body,
      TestContext.new_tree_body TestContext.recorded_parse
                                TestContext.suite_src (Some "TestBox")
                                "test_a"
      = Returned body
      /\ existsb (holds_target (Some "TestBox") "test_a") body = true.
Proof.
  split.
  - refine (proj1 (extract_test_context_finds_target
                     TestContext.recorded_parse (fun _ => "")
                     TestContext.suite_src None "test_a"
                     TestContext.suite_tree _) _).
    + vm_compute. reflexivity.
    + vm_compute. reflexivity.
  - destruct (proj2 (extract_test_context_finds_target
                       TestContext.recorded_parse (fun _ => "")
                       TestContext.suite_src (Some "TestBox") "test_a"
                       TestContext.suite_tree eq_refl))
      as (body & E & _ & Hh).
    + vm_compute. reflexivity.
    + exists body. now split.
Defined.

(** One method of the visitor, outside a class: what it keeps, and what it
    collects. *)
Lemma handle_exact tc tm st n :
  TestContext.current_class st = None ->
  TestContext.current_class (handle tc tm st n) = None
  /\ TestContext.required_nodes (handle tc tm st n)
     = TestContext.required_nodes st
       ++ kept_one tc tm (TestContext.found_target st
                          || TestContext.is_target tc tm n) n
  /\ TestContext.fixture_nodes (handle tc tm st n)
     = (if is_collected_fixture tc tm n
        then PyDict.assign (function_name n) n (TestContext.fixture_nodes st)
        else TestContext.fixture_nodes st)
  /\ TestContext.helper_functions (handle tc tm st n)
     = (if is_collected_helper tc tm n
        then PyDict.assign (function_name n) n
                           (TestContext.helper_functions st)
        else TestContext.helper_functions st).
Proof.
  intros Hc.
  destruct n as [c|c|name header body|name lineno ds c|c|c|c|ch];
    cbn [handle TestContext.visit].
  - unfold kept_one, is_collected_fixture, is_collected_helper.
    cbn. rewrite andb_false_r. now repeat split.
  - unfold kept_one, is_collected_fixture, is_collected_helper.
    cbn. rewrite andb_false_r. now repeat split.
  - unfold TestContext.visit_ClassDef, kept_one, is_collected_fixture,
      is_collected_helper, is_target_function.
    cbn [TestContext.is_plain_statement TestContext.is_def_of
         TestContext.is_fixture_node is_target_class orb].
    rewrite !andb_false_r. cbn [orb].
    destruct (TestContext.truthy_opt tc && bool_decide (Some name = tc))
      eqn:Et; cbn [andb].
    + cbn [TestContext.set_current_class TestContext.found_target].
      rewrite class_member_fold. cbn [app].
      assert (Ei : TestContext.is_target tc tm
                     (TestContext.ClassDef name header body)
                   = existsb (TestContext.is_def_of tm) body).
      { apply andb_true_iff in Et as [Ht Hn].
        apply bool_decide_eq_true_1 in Hn. subst tc.
        cbn in Ht |- *. now rewrite Ht, String.eqb_refl. }
      rewrite Ei.
      destruct (TestContext.found_target st
                || existsb (TestContext.is_def_of tm) body);
        cbn; rewrite ?app_nil_r; now repeat split.
    + cbn. rewrite app_nil_r. now repeat split.
  - unfold TestContext.visit_FunctionDef, kept_one, is_collected_fixture,
      is_collected_helper, is_target_function.
    cbn [TestContext.is_plain_statement TestContext.is_def_of
         TestContext.is_fixture_node is_target_class orb andb
         function_name].
    rewrite orb_false_r.
    destruct (bool_decide (tc = None) && String.eqb name tm) eqn:Et;
      cbn [negb andb].
    + now repeat split.
    + rewrite Hc. cbn [TestContext.truthy_opt negb].
      rewrite app_nil_r.
      destruct (TestContext.is_fixture ds); cbn [negb andb];
        [now repeat split|].
      destruct (TestContext.is_test_method name); cbn [negb];
        now repeat split.
  - unfold TestContext.visit_statement, kept_one, is_collected_fixture,
      is_collected_helper.
    rewrite Hc. cbn. rewrite andb_false_r. now repeat split.
  - unfold TestContext.visit_statement, kept_one, is_collected_fixture,
      is_collected_helper.
    rewrite Hc. cbn. rewrite andb_false_r. now repeat split.
  - unfold TestContext.visit_statement, kept_one, is_collected_fixture,
      is_collected_helper.
    rewrite Hc. cbn. rewrite andb_false_r. now repeat split.
  - unfold kept_one, is_collected_fixture, is_collected_helper,
      is_target_function.
    cbn. rewrite !andb_false_r. cbn. rewrite app_nil_r. now repeat split.
Qed.

Lemma fold_handle_exact tc tm l :
  forall st,
    TestContext.current_class st = None ->
    TestContext.required_nodes (fold_left (handle tc tm) l st)
    = TestContext.required_nodes st
      ++ kept_nodes tc tm (TestContext.found_target st) l
    /\ TestContext.fixture_nodes (fold_left (handle tc tm) l st)
       = fold_left (fun d f => PyDict.assign (function_name f) f d)
                   (List.filter (is_collected_fixture tc tm) l)
                   (TestContext.fixture_nodes st)
    /\ TestContext.helper_functions (fold_left (handle tc tm) l st)
       = fold_left (fun d f => PyDict.assign (function_name f) f d)
                   (List.filter (is_collected_helper tc tm) l)
                   (TestContext.helper_functions st).
Proof.
  induction l as [|n r IH]; intros st Hc; cbn [fold_left kept_nodes].
  - rewrite app_nil_r. now repeat split.
  - destruct (handle_exact tc tm st n Hc) as (Hc' & Er & Ef & Eh).
    destruct (IH _ Hc') as (Er' & Ef' & Eh').
    rewrite Er', Ef', Eh', Er, Ef, Eh, handle_found, <- app_assoc.
    cbn [List.filter].
    split; [reflexivity|].
    split.
    + now destruct (is_collected_fixture tc tm n).
    + now destruct (is_collected_helper tc tm n).
Qed.

Lemma insert_by_lineno_Permutation x l :
  TestContext.insert_by_lineno x l ≡ₚ x :: l.
Proof.
  induction l as [|y r IH]; cbn; [reflexivity|].
  destruct (TestContext.lineno_of x <=? TestContext.lineno_of y);
    [reflexivity|].
  rewrite IH. apply Permutation_swap.
Qed.

Lemma sort_by_lineno_Permutation l : TestContext.sort_by_lineno l ≡ₚ l.
Proof.
  induction l as [|x r IH]; cbn; [reflexivity|].
  now rewrite insert_by_lineno_Permutation, IH.
Qed.

(** Functions of different names are all held, in their order. *)
Lemma by_name_distinct fs :
  NoDup (map function_name fs) -> by_name fs = fs.
Proof.
  unfold by_name.
  assert (H : forall (d : list (string * TestContext.node)),
             NoDup (map fst d ++ map function_name fs) ->
             map snd (fold_left
                        (fun d f => PyDict.assign (function_name f) f d)
                        fs d)
             = map snd d ++ fs).
  { induction fs as [|f r IH]; intros d Hd; cbn [fold_left].
    - now rewrite app_nil_r.
    - assert (Ea : PyDict.assign (function_name f) f d
                   = d ++ [(function_name f, f)]).
      { cbn [map] in Hd. apply NoDup_app in Hd as (_ & Hd & _).
        assert (Hf : function_name f ∉ map fst d).
        { intros Hin. apply (Hd _ Hin). apply list_elem_of_here. }
        clear -Hf. induction d as [|[k v] d IH]; [reflexivity|].
        cbn in Hf |- *. apply not_elem_of_cons in Hf as [Hk Hf].
        apply String.eqb_neq in Hk. rewrite Hk. now rewrite IH. }
      rewrite Ea, IH.
      + rewrite map_app. cbn. now rewrite <- app_assoc.
      + rewrite map_app. cbn [map fst]. rewrite <- app_assoc. exact Hd. }
  intros Hn. now rewrite (H [] Hn).
Qed.

(** X24: the body of the new module is the import of [mark] and [fixture]
    from [pytest]; then, in the order of the source, what is kept of the
    nodes that the visitor reached: every import, assignment and
    expression statement, the target function (when no class is asked
    for), and each class of the name asked for from the one that holds the
    target method on, cut down to the members that are kept; then the
    functions that are collected, that is the fixtures and the functions
    that are no tests, the target function left out, by name (of several
    of one name the last), in the order of their lines.  A fixture or
    helper that the source defines before the target comes after it. *)
Theorem new_module_body_layout :
  forall parse source tc tm tree body,
    parse source = TestContext.Parsed tree ->
    TestContext.new_tree_body parse source tc tm = Returned body ->
    exists functions,
      body = TestContext.pytest_import
             :: (kept_nodes tc tm false (TestContext.visited tree)
                 ++ functions)
      /\ functions
         = TestContext.sort_by_lineno
             (collected_functions tc tm (TestContext.visited tree))
      /\ functions ≡ₚ collected_functions tc tm (TestContext.visited tree)
      /\ ascending (map TestContext.lineno_of functions).
Proof.
  intros parse source tc tm tree body Hp H.
  unfold TestContext.new_tree_body in H. rewrite Hp in H.
  rewrite context_visit_visited in H.
  destruct (negb _); [discriminate H|].
  injection H as <-.
  destruct (fold_handle_exact tc tm (TestContext.visited tree)
                              TestContext.init eq_refl) as (Er & Ef & Eh).
  rewrite Er, Ef, Eh.
  eexists. split; [reflexivity|]. split; [reflexivity|].
  split; [apply sort_by_lineno_Permutation|apply sort_by_lineno_ascending].
Qed.

Lemma new_module_body_layout_witness :
  TestContext.new_tree_body TestContext.recorded_parse
                            TestContext.suite_src (Some "TestBox") "test_a"
  = Returned
      [TestContext.pytest_import;
       TestContext.Import "import pytest";
       TestContext.Assign "LIMIT = 3";
       TestContext.ClassDef "TestBox" "class TestBox:"
         [TestContext.Assign "size = 1";
          TestContext.FunctionDef "setup_method" 10 []
            "def setup_method(self): /     pass";
          TestContext.FunctionDef "test_a" 12 []
            "def test_a(self, box): /     assert helper(box) == []"];
       TestContext.FunctionDef "box" 4 [TestContext.CallAttribute "fixture"]
         "@pytest.fixture() / def box(): /     return []";
       TestContext.FunctionDef "helper" 6 [] "def helper(x): /     return x";
       TestContext.FunctionDef "late" 19 [] "def late(): /     pass"].
Proof.
  assert (E : TestContext.recorded_parse TestContext.suite_src
              = TestContext.Parsed TestContext.suite_tree)
    by (vm_compute; reflexivity).
  destruct (TestContext.new_tree_body
              TestContext.recorded_parse TestContext.suite_src
              (Some "TestBox") "test_a") as [body|e] eqn:Hb.
  - destruct (new_module_body_layout
                TestContext.recorded_parse TestContext.suite_src
                (Some "TestBox") "test_a" TestContext.suite_tree body E Hb)
      as (functions & Eb & Ef & _).
    rewrite Eb, Ef. vm_compute. reflexivity.
  - vm_compute in Hb. discriminate Hb.
Defined.

Lemma filter_kept_members_allowed tm body :
  Forall (member_allowed tm)
         (List.filter (TestContext.kept_member tm) body).
Proof.
  induction body as [|x r IH]; [constructor|].
  cbn [List.filter].
  destruct (TestContext.kept_member tm x) eqn:Ek; [|exact IH].
  constructor; [|exact IH].
  destruct x as [c|c|name header b|name lineno ds c|c|c|c|ch];
    try discriminate Ek; try exact I.
  cbn in Ek |- *. intros Ht. rewrite Ht in Ek. cbn in Ek.
  rewrite orb_false_r in Ek. now apply String.eqb_eq.
Qed.

(** X25: the new module holds no test but the target: a function of the
    new module whose name starts with [test_] is the target (when no class
    is asked for) or a fixture; a class of the new module has the name
    asked for, and its members are assignments and methods, of which only
    the target has a name that starts with [test_]. *)
Theorem new_module_has_no_other_test :
  forall parse source tc tm tree body,
    parse source = TestContext.Parsed tree ->
    TestContext.new_tree_body parse source tc tm = Returned body ->
    Forall (node_allowed tc tm) body.
Proof.
  intros parse source tc tm tree body Hp H.
  destruct (new_tree_body_cases parse source tc tm tree Hp)
    as [(_ & E)|(_ & kept & fs & E & _ & Hk & Hc & _ & _)];
    rewrite E in H; [discriminate H|].
  injection H as <-. constructor; [exact I|].
  apply Forall_app. split.
  - apply Forall_map. eapply Forall_impl; [exact Hk|].
    intros n Hn. cbn beta in Hn. unfold keepable in Hn.
    destruct n as [c|c|name header b|name lineno ds c|c|c|c|ch];
      try exact I; cbn in Hn.
    + destruct tc as [t|]; [|discriminate Hn].
      apply String.eqb_eq in Hn. subst t.
      cbn [trim node_allowed]. split; [reflexivity|].
      apply filter_kept_members_allowed.
    + destruct tc as [t|]; [discriminate Hn|].
      apply String.eqb_eq in Hn. cbn [trim node_allowed].
      intros _. right. now split.
    + destruct tc; discriminate Hn.
  - eapply Forall_impl; [exact Hc|].
    intros f [_ Hf]. cbn beta.
    destruct f as [c|c|name header b|name lineno ds c|c|c|c|ch];
      try discriminate Hf.
    cbn in Hf |- *. intros Ht. rewrite Ht in Hf. cbn in Hf.
    rewrite orb_false_r in Hf. now left.
Qed.

Lemma new_module_has_no_other_test_witness :
  Forall (node_allowed None "test_free")
         [TestContext.pytest_import;
          TestContext.Import "import pytest";
          TestContext.Assign "LIMIT = 3";
          TestContext.FunctionDef "test_free" 16 []
            "def test_free(): /     pass";
          TestContext.FunctionDef "box" 4
            [TestContext.CallAttribute "fixture"]
            "@pytest.fixture() / def box(): /     return []";
          TestContext.FunctionDef "helper" 6 []
            "def helper(x): /     return x";
          TestContext.FunctionDef "late" 19 [] "def late(): /     pass"].
Proof.
  refine (new_module_has_no_other_test
            TestContext.recorded_parse TestContext.suite_src
            None "test_free" TestContext.suite_tree _ _ _).
  - vm_compute. reflexivity.
  - vm_compute. reflexivity.
Defined.

(* ------------------------------------------------------------------------- *)
(** * The body of the target after an append *)

Lemma endswith_nl_tail c r :
  endswith (String c r) nl = true -> r <> "" -> endswith r nl = true.
Proof.
  cbn [endswith]. intros H Hr. apply orb_true_iff in H as [H|H]; [|exact H].
  apply String.eqb_eq in H. injection H as _ H. congruence.
Qed.

Lemma splitlines_keepends_nonempty s : s <> "" -> splitlines_keepends s <> [].
Proof.
  destruct s as [|c r]; [congruence|]. intros _. cbn [splitlines_keepends].
  destruct (Ascii.eqb c CR).
  - destruct r as [|d r']; [discriminate|].
    destruct (Ascii.eqb d LF); discriminate.
  - destruct (is_linebreak c); [discriminate|].
    destruct (splitlines_keepends r); discriminate.
Qed.

Lemma splitlines_keepends_app_le n :
  forall a b,
    (String.length a <= n)%nat -> endswith a nl = true ->
    splitlines_keepends (a +:+ b)
    = splitlines_keepends a ++ splitlines_keepends b.
Proof.
  induction n as [|n IH]; intros [|c r] b Hlen He; try discriminate He;
    cbn [String.length] in Hlen; try lia.
  assert (Hrec : r <> "" ->
                 splitlines_keepends (r +:+ b)
                 = splitlines_keepends r ++ splitlines_keepends b).
  { intros Hr. apply IH; [lia|now apply endswith_nl_tail with c]. }
  rewrite str_app_cons. cbn [splitlines_keepends].
  destruct (Ascii.eqb c CR) eqn:Ec.
  - destruct r as [|d r'].
    + apply Ascii.eqb_eq in Ec. subst c. discriminate He.
    + rewrite str_app_cons.
      destruct (Ascii.eqb d LF) eqn:Ed.
      * destruct r' as [|e r''].
        -- reflexivity.
        -- cbn [app]. f_equal. apply IH; [cbn in Hlen |- *; lia|].
           apply endswith_nl_tail with d; [|discriminate].
           apply endswith_nl_tail with c; [exact He|discriminate].
      * cbn [app]. f_equal. rewrite <- str_app_cons. apply Hrec. discriminate.
  - destruct (is_linebreak c) eqn:El.
    + destruct r as [|d r']; [reflexivity|].
      cbn [app]. f_equal. apply Hrec. discriminate.
    + destruct r as [|d r'].
      * exfalso. cbn [endswith] in He.
        apply orb_true_iff in He as [He|He]; [|discriminate He].
        apply String.eqb_eq in He. injection He as ->. discriminate El.
      * rewrite Hrec by discriminate.
        pose proof (splitlines_keepends_nonempty (String d r')) as Hne.
        destruct (splitlines_keepends (String d r')) as [|l ls];
          [now destruct Hne|reflexivity].
Qed.

(** A text that ends with a newline is split apart from what follows it. *)
Lemma splitlines_keepends_app a b :
  nl_terminated a ->
  splitlines_keepends (a +:+ b)
  = splitlines_keepends a ++ splitlines_keepends b.
Proof.
  intros [->|He]; [reflexivity|].
  now apply (splitlines_keepends_app_le (String.length a)).
Qed.

Lemma splitlines_keepends_lines ls s :
  Forall is_line ls ->
  splitlines_keepends (concat ls +:+ s) = ls ++ splitlines_keepends s.
Proof.
  induction 1 as [|l r [Hl He] _ IH]; [reflexivity|].
  rewrite concat_cons, str_app_assoc.
  rewrite splitlines_keepends_app by (now right).
  now rewrite Hl, IH.
Qed.

Lemma lines_nl_terminated ls : Forall is_line ls -> Forall nl_terminated ls.
Proof.
  intros H. eapply Forall_impl; [exact H|]. intros l [_ He]. now right.
Qed.

Lemma body_separator_nl_terminated ls k :
  Forall nl_terminated ls -> body_separator ls k = (separator ls k, ls).
Proof.
  intros Hls. unfold body_separator, separator.
  destruct (PyList.in_range ls (k - 1)) eqn:Ei; [|reflexivity].
  destruct (negb (truthy (strip (PyList.at_ ls (k - 1))))) eqn:Eb;
    [reflexivity|].
  apply negb_false_iff in Eb.
  now rewrite (nonblank_nl_terminated _ (nl_terminated_at ls (k - 1) Hls Ei)
                                      Eb).
Qed.

(** A re-index that returns has found the text blank, and then the index is
    empty, or has split the text into its lines again. *)
Lemma refresh_index_lines parse w w' :
  Forall nl_terminated (lines (self w)) ->
  _refresh_index parse w = (Returned tt, w') ->
  (cls_map (self w') = ∅ /\ fn_map (self w') = ∅)
  \/ lines (self w') = splitlines_keepends (concat (lines (self w))).
Proof.
  intros Hls. unfold _refresh_index. unfold bind at 1, get_self.
  destruct (negb (truthy (strip (concat (lines (self w)))))) eqn:Eb.
  { intros E. injection E as <-. now left. }
  rewrite (refresh_keeps_lines _ Hls).
  assert (Ec : (if negb (endswith (concat (lines (self w))) nl)
                   && truthy (strip (concat (lines (self w))))
                then concat (lines (self w)) +:+ nl
                else concat (lines (self w)))
               = concat (lines (self w))).
  { destruct (nl_terminated_concat _ Hls) as [E0|E1].
    - rewrite E0 in Eb. discriminate Eb.
    - now rewrite E1. }
  rewrite Ec.
  destruct (parse (concat (lines (self w)))) as [t|msg].
  - destruct (_index t) as [[i c] f]. intros E. injection E as <-.
    now right.
  - discriminate.
Qed.

Lemma resolve_target_needs_index target_name cls w t w' :
  resolve_target target_name cls w = (Returned t, w') ->
  ~ (cls_map (self w) = ∅ /\ fn_map (self w) = ∅).
Proof.
  unfold resolve_target. unfold bind, get_self. intros H [Ec Ef].
  destruct cls as [c|].
  - rewrite Ec, lookup_empty in H. discriminate H.
  - rewrite Ef, lookup_empty in H. discriminate H.
Qed.

(** The steps of a call of [append_callable_body] that returns. *)
Lemma append_callable_body_steps parse target_name snippet cls w w' :
  append_callable_body parse target_name snippet cls w = (Returned tt, w') ->
  exists t n t1 w1,
    resolve_target target_name cls w = (Returned t, w) /\
    parse_new_callable parse target_name snippet w
    = (Returned (dedent snippet, n), w) /\
    merge_decorators parse target_name cls (dedent snippet) n t w
    = (Returned t1, w1) /\
    append_body parse target_name cls (dedent snippet) n t1 w1
    = (Returned tt, w').
Proof.
  intros H. unfold append_callable_body in H.
  apply bind_inv_Returned in H as (t & wa & Hr & H).
  pose proof (resolve_target_keeps_world _ _ _ _ _ Hr). subst wa.
  apply bind_inv_Returned in H as ([d n] & wb & Hp & H).
  destruct (parse_new_callable_returned _ _ _ _ _ _ _ Hp) as (-> & -> & Hf).
  apply bind_inv_Returned in H as ([] & wc & Hg & H).
  pose proof (signature_gate_returned _ _ _ _ _ Hg). subst wc.
  apply bind_inv_Returned in H as (t1 & w1 & Hd & H).
  exists t, n, t1, w1. auto.
Qed.

(** The lines after an append that leaves the target in the index: the
    lines before, with the lines of the appended text at the place of the
    insertion. *)
Lemma append_body_lines parse target_name cls dedented n t w w' t' :
  strip (body_to_append dedented n) <> "" ->
  Forall is_line (lines (self w)) ->
  append_body parse target_name cls dedented n t w = (Returned tt, w') ->
  resolve_target target_name cls w' = (Returned t', w') ->
  let l1 := lines (self w) in
  let k := fst (body_target l1 t) in
  let indent := snd (body_target l1 t) in
  let appended :=
    separator l1 k +:+ _reindent (body_to_append dedented n) indent in
  lines (self w')
  = take (splice_index l1 k) l1 ++ splitlines_keepends appended
    ++ drop (splice_index l1 k) l1.
Proof.
  intros Hb Hls Ha Hres. cbv zeta. unfold append_body in Ha.
  destruct (strip (body_to_append dedented n)) as [|c r] eqn:Es;
    [congruence|].
  change (negb (truthy (String c r))) with false in Ha. cbv iota in Ha.
  unfold bind at 1, get_self in Ha. cbv beta in Ha.
  destruct (body_target (lines (self w)) t) as [k indent] eqn:Et.
  pose proof (lines_nl_terminated _ Hls) as Hnl.
  rewrite (body_separator_nl_terminated _ k Hnl) in Ha.
  unfold bind at 1 in Ha. rewrite splice_spliced in Ha.
  cbn [fst snd].
  set (l1 := lines (self w)) in *.
  set (e := separator l1 k
            +:+ _reindent (body_to_append dedented n) indent) in *.
  assert (He : nl_terminated e).
  { apply nl_terminated_app; [|apply nl_terminated_reindent].
    unfold separator.
    destruct (PyList.in_range l1 (k - 1)); [|now right].
    destruct (negb _); [now left|now right]. }
  assert (Hsp : lines (self (spliced w (OpBody target_name cls) l1 k [e]))
                = take (splice_index l1 k) l1
                  ++ e :: drop (splice_index l1 k) l1) by reflexivity.
  assert (Hn : Forall nl_terminated
                 (lines (self (spliced w (OpBody target_name cls)
                                       l1 k [e])))).
  { rewrite Hsp. apply Forall_app. split; [now apply Forall_take|].
    apply Forall_cons. split; [exact He|now apply Forall_drop]. }
  destruct (refresh_index_lines parse _ _ Hn Ha) as [Hempty|E].
  - now destruct (resolve_target_needs_index _ _ _ _ _ Hres).
  - rewrite E, Hsp, concat_app, concat_cons.
    rewrite (splitlines_keepends_lines _ _ (Forall_take _ _ _ Hls)).
    rewrite (splitlines_keepends_app e _ He).
    pose proof (splitlines_keepends_lines
                  (drop (splice_index l1 k) l1) ""
                  (Forall_drop _ _ _ Hls)) as Hd.
    rewrite str_app_nil_r in Hd. cbn in Hd. rewrite app_nil_r in Hd.
    now rewrite Hd.
Qed.

Lemma body_text_span ls t f e :
  body_span t = Some (f, e) ->
  body_text ls t = concat (PyList.slice ls (f - 1) e).
Proof.
  unfold body_span, body_text.
  destruct (Ast.body t) as [|first_stmt r]; [discriminate|].
  destruct (last (first_stmt :: r)) as [last_stmt|]; [|discriminate].
  intros E. now injection E as <- <-.
Qed.

Lemma body_target_span ls t f e :
  body_span t = Some (f, e) -> fst (body_target ls t) = e.
Proof.
  unfold body_span. intros E.
  destruct (Ast.body t) as [|first_stmt r] eqn:Eb; [discriminate|].
  destruct (last (first_stmt :: r)) as [last_stmt|] eqn:El; [|discriminate].
  injection E as _ <-. apply body_target_after_last. now rewrite Eb.
Qed.

(** The lines from [f] to [k] of a buffer, after an insertion behind line
    [k], with the inserted lines. *)
Lemma slice_after_insert (l1 P : list string) f k :
  1 <= f <= k -> k <= Z.of_nat (length l1) ->
  PyList.slice (take (Z.to_nat k) l1 ++ P ++ drop (Z.to_nat k) l1)
               (f - 1) (k + Z.of_nat (length P))
  = PyList.slice l1 (f - 1) k ++ P.
Proof.
  intros Hf Hk. unfold PyList.slice, PyList.clamp.
  rewrite !length_app, length_take, length_drop.
  destruct (f - 1 <? 0) eqn:E1; [apply Z.ltb_lt in E1; lia|].
  destruct (k <? 0) eqn:E2; [apply Z.ltb_lt in E2; lia|].
  destruct (k + Z.of_nat (length P) <? 0) eqn:E3;
    [apply Z.ltb_lt in E3; lia|].
  set (fn := Z.to_nat (f - 1)). set (kn := Z.to_nat k).
  assert (Hfn : (fn <= kn)%nat) by (subst fn kn; lia).
  assert (Hkn : (kn <= length l1)%nat) by (subst kn; lia).
  replace (Z.to_nat (Z.min (f - 1)
                           (Z.of_nat (kn `min` length l1
                                      + (length P + (length l1 - kn))))))
    with fn by (subst fn kn; lia).
  replace (Z.to_nat (Z.min (k + Z.of_nat (length P))
                           (Z.of_nat (kn `min` length l1
                                      + (length P + (length l1 - kn))))))
    with (kn + length P)%nat by (subst kn; lia).
  replace (Z.to_nat (Z.min (f - 1) (Z.of_nat (length l1)))) with fn
    by (subst fn; lia).
  replace (Z.to_nat (Z.min k (Z.of_nat (length l1)))) with kn
    by (subst kn; lia).
  rewrite drop_app_le by (rewrite length_take; lia).
  rewrite app_assoc.
  rewrite take_app_length'
    by (rewrite length_app, length_drop, length_take; lia).
  f_equal. rewrite take_drop_commute. f_equal. f_equal. lia.
Qed.

(** C2, as the code has it by design: for every call of
    [append_callable_body] that returns, with [w1] the world after the
    decorators and [t1] the target in it: when the statements of the new
    callable are blank nothing is appended; otherwise, on a buffer of
    lines that holds the body of the target, and when the target after the
    merge has a body that starts on the same line and ends on the last
    line of the appended text, the text of the body after the merge is the
    text of the body before, followed by the separator (an empty line, or
    nothing when the line before is blank) and the statements of the new
    callable (from the line of the first to the end line of the last,
    without the signature), dedented and put at the indentation that
    [body_target] reads for the body of the target. *)
Theorem append_callable_body_appends_after_body :
  forall parse target_name snippet cls w w',
    append_callable_body parse target_name snippet cls w
    = (Returned tt, w') ->
    exists t n t1 w1,
      resolve_target target_name cls w = (Returned t, w) /\
      parse_new_callable parse target_name snippet w
      = (Returned (dedent snippet, n), w) /\
      merge_decorators parse target_name cls (dedent snippet) n t w
      = (Returned t1, w1) /\
      let statements := body_to_append (dedent snippet) n in
      let l1 := lines (self w1) in
      let indent := snd (body_target l1 t1) in
      (strip statements = "" -> w' = w1) /\
      (strip statements <> "" ->
       Forall is_line l1 ->
       forall first_line last_line t',
         body_span t1 = Some (first_line, last_line) ->
         1 <= first_line <= last_line ->
         last_line <= Z.of_nat (length l1) ->
         let appended :=
           separator l1 last_line +:+ _reindent statements indent in
         resolve_target target_name cls w' = (Returned t', w') ->
         body_span t'
         = Some (first_line,
                 last_line
                 + Z.of_nat (length (splitlines_keepends appended))) ->
         body_text (lines (self w')) t' = body_text l1 t1 +:+ appended).
Proof.
  intros parse target_name snippet cls w w' H.
  destruct (append_callable_body_steps _ _ _ _ _ _ H)
    as (t & n & t1 & w1 & Hr & Hp & Hd & Ha).
  exists t, n, t1, w1. repeat (split; [assumption|]).
  cbv zeta. split.
  - intros Hb. unfold append_body in Ha. rewrite Hb in Ha.
    injection Ha as <-. reflexivity.
  - intros Hb Hls f e t' Hspan Hfe He Hres Hspan'.
    pose proof (append_body_lines parse target_name cls (dedent snippet)
                  n t1 w1 w' t' Hb Hls Ha Hres) as Hl.
    cbv zeta in Hl.
    rewrite (body_target_span _ _ _ _ Hspan) in Hl.
    assert (Ek : splice_index (lines (self w1)) e = Z.to_nat e)
      by (unfold splice_index; lia).
    rewrite Ek in Hl.
    rewrite (body_text_span _ _ _ _ Hspan'), (body_text_span _ _ _ _ Hspan).
    rewrite Hl, slice_after_insert by assumption.
    now rewrite concat_app, concat_splitlines_keepends.
Qed.

Lemma append_callable_body_appends_after_body_witness :
  body_text (lines (self BodyExample.helper_after)) BodyExample.helper_merged
  = body_text (lines (self BodyExample.helper_before))
              BodyExample.helper_target
    +:+ (nl +:+ _reindent ("    return x + 1" +:+ nl) "    ").
Proof.
  destruct (append_callable_body_appends_after_body
              Recorded.recorded_parse "helper" Recorded.helper_new_src None
              BodyExample.helper_before BodyExample.helper_after)
    as (t & n & t1 & w1 & Hr & Hp & Hd & _ & Hmain).
  { vm_compute. reflexivity. }
  assert (Et : resolve_target "helper" None BodyExample.helper_before
               = (Returned BodyExample.helper_target,
                  BodyExample.helper_before))
    by (vm_compute; reflexivity).
  assert (t = BodyExample.helper_target) by congruence. subst t.
  assert (En : parse_new_callable Recorded.recorded_parse "helper"
                 Recorded.helper_new_src BodyExample.helper_before
               = (Returned (dedent Recorded.helper_new_src,
                            BodyExample.helper_new),
                  BodyExample.helper_before))
    by (vm_compute; reflexivity).
  assert (n = BodyExample.helper_new) by congruence. subst n.
  assert (Ed : merge_decorators Recorded.recorded_parse "helper" None
                 (dedent Recorded.helper_new_src) BodyExample.helper_new
                 BodyExample.helper_target BodyExample.helper_before
               = (Returned BodyExample.helper_target,
                  BodyExample.helper_before))
    by (vm_compute; reflexivity).
  assert (t1 = BodyExample.helper_target) by congruence.
  assert (w1 = BodyExample.helper_before) by congruence.
  subst t1 w1.
  refine (eq_trans (Hmain _ _ 2 2 BodyExample.helper_merged _ _ _ _ _) _).
  - vm_compute. intros E. discriminate E.
  - vm_compute. repeat (constructor; [split; reflexivity|]). constructor.
  - reflexivity.
  - lia.
  - vm_compute. discriminate.
  - vm_compute. reflexivity.
  - vm_compute. reflexivity.
  - vm_compute. reflexivity.
Defined.

(** C2 as stated fails.  In scenario 3 of the specification the body of
    [helper] after the merge is its body before, an empty line, and then
    the statement of the new callable: what follows the old body is not the
    re-indented statement alone. *)
Lemma appended_body_is_not_the_reindented_statements :
  append_callable_body Recorded.recorded_parse "helper"
                       Recorded.helper_new_src None
                       BodyExample.helper_before
  = (Returned tt, BodyExample.helper_after)
  /\ fn_map (self BodyExample.helper_before) !! "helper"
     = Some BodyExample.helper_target
  /\ fn_map (self BodyExample.helper_after) !! "helper"
     = Some BodyExample.helper_merged
  /\ body_text (lines (self BodyExample.helper_after))
               BodyExample.helper_merged
     = body_text (lines (self BodyExample.helper_before))
                 BodyExample.helper_target
       +:+ nl +:+ _reindent ("    return x + 1" +:+ nl) "    "
  /\ ~ body_extended_by (lines (self BodyExample.helper_before))
                        (lines (self BodyExample.helper_after))
                        BodyExample.helper_target BodyExample.helper_merged
                        ("    return x + 1" +:+ nl) "    ".
Proof.
  split; [vm_compute; reflexivity|].
  split; [vm_compute; reflexivity|].
  split; [vm_compute; reflexivity|].
  split; [vm_compute; reflexivity|].
  unfold body_extended_by. vm_compute. intros H. discriminate H.
Qed.

(** A method whose body is on the line of its [def]: the call returns, the
    statement of the new callable is put at the indentation of that line,
    below the method, and the body of the method after the merge is its
    body before, with nothing appended to it. *)
Lemma body_on_the_def_line_is_not_extended :
  append_callable_body Recorded.recorded_parse "m"
                       Recorded.oneline_new_src (Some "T")
                       BodyExample.oneline_before
  = (Returned tt, BodyExample.oneline_after)
  /\ cls_map (self BodyExample.oneline_after) !! "T"
     = Some BodyExample.oneline_class_after
  /\ find_method BodyExample.oneline_class_after "m"
     = Some BodyExample.oneline_method
  /\ body_text (lines (self BodyExample.oneline_after))
               BodyExample.oneline_method
     = body_text (lines (self BodyExample.oneline_before))
                 BodyExample.oneline_method.
Proof.
  split; [vm_compute; reflexivity|].
  split; [vm_compute; reflexivity|].
  split; [vm_compute; reflexivity|].
  vm_compute. reflexivity.
Qed.

(** ** The walk of [merge_tests], statement by statement *)

Lemma history_after_bind {A B} (c : M A) (k : A -> M B) w :
  (forall a, emits_list (fun _ => True) (k a)) ->
  exists rest, history (snd (bind c k w)) = history (snd (c w)) ++ rest.
Proof.
  intros Hk. unfold bind. destruct (c w) as [[a|e] w1]; simpl.
  - destruct (Hk a w1) as (hs & E & _). eauto.
  - exists []. now rewrite app_nil_r.
Qed.

Lemma emits_list_any {A} P (c : M A) :
  emits_list P c -> emits_list (fun _ => True) c.
Proof. now apply emits_list_mono. Qed.

Lemma fold_M_app {A S} (f : S -> A -> M S) l1 l2 :
  forall s w s1 w1,
    fold_M f l1 s w = (Returned s1, w1) ->
    fold_M f (l1 ++ l2) s w = fold_M f l2 s1 w1.
Proof.
  induction l1 as [|x r IH]; intros s w s1 w1 H; simpl in *.
  - unfold ret in H. now injection H as <- <-.
  - unfold bind in *. destruct (f s x w) as [[s'|e] w']; [|discriminate].
    now apply IH.
Qed.

(** [add_class_or_func] splices once, at the end of the lines. *)
Lemma add_class_or_func_history parse snippet w :
  exists prefix,
    history (snd (add_class_or_func parse snippet w))
    = history w
      ++ [mk_event OpAddClassOrFunc (Z.of_nat (length (lines (self w))))
                   [prefix +:+ ensure_newline snippet]].
Proof.
  unfold add_class_or_func. unfold bind at 1, get_self.
  destruct (last (lines (self w))) as [l|].
  - destruct (String.eqb (strip l) "" || endswith l (nl +:+ nl)).
    + exists "". apply history_splice_refresh.
    + destruct (negb (endswith l nl)).
      * exists nl. rewrite history_splice_refresh.
        unfold PyList.set_at. now rewrite length_insert.
      * exists nl. apply history_splice_refresh.
  - exists "". apply history_splice_refresh.
Qed.

Lemma history_then_ret {A B} (c : M A) (b : B) w :
  history (snd ((c ;; ret b) w)) = history (snd (c w)).
Proof. unfold bind. now destruct (c w) as [[a|e] w']. Qed.

(** One statement of the walk: in ADD mode a class or function that the
    merger lacks is appended; nothing else is spliced. *)
Lemma walk_node_step parse h new_src mode p node w :
  exists hs,
    history (snd (walk_node parse h new_src mode p node w)) = history w ++ hs
    /\ walk_step mode new_src (self w) node hs.
Proof.
  unfold walk_node, walk_step, lacked_by.
  destruct (segment_returns new_src (Ast.NStmt node) w) as (l & E).
  unfold bind at 1. rewrite E.
  destruct (truthy (segment_text new_src (Ast.NStmt node))) eqn:Et;
    cbn [negb].
  2:{ exists []. rewrite app_nil_r, andb_false_r. now split. }
  rewrite andb_true_l.
  destruct (Ast.is_import node) eqn:Ei.
  { assert (Ast.is_ClassDef node = false /\ Ast.is_FunctionDef node = false)
      as [-> ->] by (destruct node; try discriminate; now split).
    rewrite andb_false_r.
    exists []. rewrite app_nil_r. split; [|reflexivity].
    now destruct (negb _). }
  destruct (Ast.is_ClassDef node) eqn:Ec.
  { assert (Ast.is_FunctionDef node = false) as ->
      by (destruct node; try discriminate; reflexivity).
    rewrite orb_false_r, andb_true_l.
    destruct (log_only_methods_in_new_class new_src node (logged w l))
      as (ms & l2 & E2).
    unfold bind at 1. rewrite E2.
    destruct (String.eqb mode "ADD") eqn:Em; rewrite ?andb_true_l,
                                              ?andb_false_l.
    - unfold bind at 1, get_self. cbn [self logged].
      destruct (cls_map (self w) !! Ast.name node) eqn:El.
      + rewrite bool_decide_eq_false_2 by congruence.
        exists []. now rewrite app_nil_r.
      + rewrite bool_decide_eq_true_2 by reflexivity.
        rewrite history_then_ret.
        destruct (add_class_or_func_history parse
                    (ensure_newline (segment_text new_src (Ast.NStmt node)))
                    (logged (logged w l) l2)) as (prefix & Eh).
        eexists. split; [exact Eh|].
        eexists. split; [reflexivity|]. split; [|reflexivity].
        split; [now left|]. split; [reflexivity|]. now exists prefix.
    - exists []. rewrite app_nil_r. split; [|reflexivity].
      now destruct (String.eqb mode "APPEND"). }
  rewrite andb_false_l, orb_false_l.
  destruct (Ast.is_FunctionDef node) eqn:Ef.
  { rewrite andb_true_l.
    destruct (String.eqb mode "ADD") eqn:Em; rewrite ?andb_true_l,
                                              ?andb_false_l.
    - unfold bind at 1, get_self. cbn [self logged].
      destruct (fn_map (self w) !! Ast.name node) eqn:El.
      + rewrite bool_decide_eq_false_2 by congruence.
        exists []. now rewrite app_nil_r.
      + rewrite bool_decide_eq_true_2 by reflexivity.
        rewrite history_then_ret.
        destruct (add_class_or_func_history parse
                    (ensure_newline (segment_text new_src (Ast.NStmt node)))
                    (logged w l)) as (prefix & Eh).
        eexists. split; [exact Eh|].
        eexists. split; [reflexivity|]. split; [|reflexivity].
        split; [now right|]. split; [reflexivity|]. now exists prefix.
    - exists []. rewrite app_nil_r. split; [|reflexivity].
      now destruct (String.eqb mode "APPEND"). }
  rewrite andb_false_l, andb_false_r.
  exists []. now rewrite app_nil_r.
Qed.

Lemma add_queued_imports_step parse p w :
  exists hs,
    history (snd (add_queued_imports parse p w)) = history w ++ hs
    /\ imports_step (new_imports_to_add p) hs.
Proof.
  rewrite add_queued_imports_cases. unfold imports_step.
  destruct (new_imports_to_add p) as [|i r].
  - exists []. now rewrite app_nil_r.
  - destruct (silent_refresh_index parse
                (spliced w OpAddImports (lines (self w))
                         (_last_import_line (tree (self w))) (i :: r)))
      as (hs & E & ->).
    eexists. split; [rewrite E; simpl; now rewrite app_nil_r|].
    eexists. split; [reflexivity|]. now split.
Qed.

(** After [walk_and_import] has returned, the splices of the mode. *)
Lemma merge_tests_after_imports parse h new_src base_src mode mapping w p w1 :
  walk_and_import parse h new_src base_src (upper mode) w
  = (Returned p, w1) ->
  exists h_late,
    history (snd (merge_tests parse h new_src base_src mode mapping w))
    = history w1 ++ h_late
    /\ late_events (upper mode) h_late.
Proof.
  intros H. unfold merge_tests. unfold bind at 1. rewrite H.
  apply (emits_list_then_silent _ _ _
           (emits_late parse h (upper mode) mapping p)
           (fun merged =>
              silent_bind _ _ silent_result
                          (fun text => silent_ret (text, merged)))).
Qed.

Lemma merge_tests_after_walk_and_import
      parse h new_src base_src mode mapping w :
  exists rest,
    history (snd (merge_tests parse h new_src base_src mode mapping w))
    = history (snd (walk_and_import parse h new_src base_src (upper mode) w))
      ++ rest.
Proof.
  unfold merge_tests. apply history_after_bind. intros p.
  apply (emits_list_any (late_events (upper mode))).
  apply (emits_list_then_silent _ _ _
           (emits_late parse h (upper mode) mapping p)
           (fun merged =>
              silent_bind _ _ silent_result
                          (fun text => silent_ret (text, merged)))).
Qed.

(** C8, as the code has it.  The splices of one call of [merge_tests] come
    in this order: first those of the walk over the statements of the new
    unit, in the order of the source; then the queued imports, in one
    splice; then, in ADD mode, the methods added to classes that exist; in
    APPEND mode, the appends to methods, and after all of them the appends
    to functions.  And these splices are made: when the walk has reached a
    statement of the new unit, then in ADD mode a class or function that
    the merger lacks at that point is appended next, whole, at the end of
    the file, and nothing is spliced for any other statement or in another
    mode; when the walk has returned, the imports that it has queued are
    inserted next, all in one splice (none when nothing is queued), and
    the splices of the mode follow. *)
Theorem merge_order_of_splices :
  forall parse h new_src base_src mode mapping new_tree w,
    parse new_src = Ast.Parsed new_tree ->
    let final := snd (merge_tests parse h new_src base_src mode mapping w) in
    (exists hs,
        history final = history w ++ hs /\
        merge_order (upper mode) new_src new_tree hs)
    /\ (forall before node after p w1,
           new_tree = before ++ node :: after ->
           (Merger_init parse base_src ;;
            walk parse h new_src (upper mode) before) w
           = (Returned p, w1) ->
           exists step rest,
             history final = history w1 ++ step ++ rest /\
             walk_step (upper mode) new_src (self w1) node step)
    /\ (forall p w1,
           (Merger_init parse base_src ;;
            walk parse h new_src (upper mode) new_tree) w
           = (Returned p, w1) ->
           exists step h_late,
             history final = history w1 ++ step ++ h_late /\
             imports_step (new_imports_to_add p) step /\
             late_events (upper mode) h_late).
Proof.
  intros parse h new_src base_src mode mapping new_tree w Hp final.
  split; [now apply merge_splices_in_order|]. split.
  - intros before node after p w1 -> H.
    unfold bind in H.
    destruct (Merger_init parse base_src w) as [[[]|e] w0] eqn:Ei;
      [|discriminate].
    unfold walk in H. unfold bind at 1, get_self in H.
    destruct (merge_tests_after_walk_and_import
                parse h new_src base_src mode mapping w) as (r1 & E1).
    fold final in E1.
    assert (E2 : exists r2,
               history (snd (walk_and_import parse h new_src base_src
                                             (upper mode) w))
               = history (snd (walk parse h new_src (upper mode)
                                    (before ++ node :: after) w0)) ++ r2).
    { unfold walk_and_import. unfold bind at 1. rewrite Ei, Hp.
      apply history_after_bind. intros q.
      apply (emits_list_any _ _
               (emits_list_then_ret _ _ q
                  (emits_add_queued_imports parse q))). }
    destruct E2 as (r2 & E2).
    assert (E3 : exists r3,
               history (snd (walk parse h new_src (upper mode)
                                  (before ++ node :: after) w0))
               = history (snd (walk_node parse h new_src (upper mode)
                                         p node w1)) ++ r3).
    { unfold walk. unfold bind at 1, get_self.
      rewrite (fold_M_app _ _ _ _ _ _ _ H). simpl fold_M.
      apply history_after_bind. intros q.
      apply (emits_list_any _ _
               (emits_walk_fold parse h new_src (upper mode) after q)). }
    destruct E3 as (r3 & E3).
    destruct (walk_node_step parse h new_src (upper mode) p node w1)
      as (step & E4 & Hstep).
    exists step, (r3 ++ r2 ++ r1). split; [|exact Hstep].
    rewrite E1, E2, E3, E4. now rewrite <- !app_assoc.
  - intros p w1 H. unfold bind in H.
    destruct (Merger_init parse base_src w) as [[[]|e] w0] eqn:Ei;
      [|discriminate].
    destruct (add_queued_imports_step parse p w1) as (step & E1 & Hstep).
    assert (E2 : walk_and_import parse h new_src base_src (upper mode) w
                 = (add_queued_imports parse p ;; ret p) w1).
    { unfold walk_and_import. unfold bind at 1. rewrite Ei, Hp.
      unfold bind at 1. now rewrite H. }
    unfold bind in E2.
    destruct (add_queued_imports parse p w1) as [[[]|e] w2] eqn:Ea;
      simpl in E1.
    + destruct (merge_tests_after_imports _ _ _ _ _ mapping _ _ _ E2)
        as (h_late & E3 & Hlate).
      exists step, h_late. fold final in E3. rewrite E3, E1.
      now rewrite <- app_assoc.
    + exists step, []. split; [|split; [exact Hstep|apply late_events_nil]].
      subst final. unfold merge_tests. unfold bind at 1. rewrite E2.
      simpl. now rewrite app_nil_r.
Qed.

Lemma merge_order_of_splices_witness :
  let final :=
    snd (merge_tests Recorded.recorded_parse Recorded.names_hash
                     Recorded.unit_f_src "" "add" None world0) in
  let reached :=
    snd ((Merger_init Recorded.recorded_parse "" ;;
          walk Recorded.recorded_parse Recorded.names_hash
               Recorded.unit_f_src "ADD" (take 1 Recorded.unit_f_ast))
           world0) in
  let walked :=
    (Merger_init Recorded.recorded_parse "" ;;
     walk Recorded.recorded_parse Recorded.names_hash
          Recorded.unit_f_src "ADD" Recorded.unit_f_ast) world0 in
  (exists hs,
      history final = history world0 ++ hs /\
      merge_order "ADD" Recorded.unit_f_src Recorded.unit_f_ast hs)
  /\ (exists step rest,
         history final = history reached ++ step ++ rest /\
         walk_step "ADD" Recorded.unit_f_src (self reached)
                   (Ast.FunctionDef "f" (Ast.mk_arguments [] [] None [] None)
                                    [Ast.Stmt "Pass" 3 3] [] 2 3 0)
                   step)
  /\ (exists step h_late,
         history final = history (snd walked) ++ step ++ h_late /\
         imports_step [Recorded.import_os_src] step /\
         late_events "ADD" h_late).
Proof.
  intros final reached walked.
  destruct (merge_order_of_splices
              Recorded.recorded_parse Recorded.names_hash
              Recorded.unit_f_src "" "add" None Recorded.unit_f_ast world0)
    as (H1 & H2 & H3).
  { vm_compute. reflexivity. }
  split; [exact H1|]. split.
  - let r := eval vm_compute in
         ((Merger_init Recorded.recorded_parse "" ;;
           walk Recorded.recorded_parse Recorded.names_hash
                Recorded.unit_f_src "ADD" (take 1 Recorded.unit_f_ast))
            world0) in
    match r with
    | (Returned ?p, ?w1) =>
        destruct (H2 [Ast.Import "Import(names=[alias(name='os')])" 1 1]
                     (Ast.FunctionDef "f"
                        (Ast.mk_arguments [] [] None [] None)
                        [Ast.Stmt "Pass" 3 3] [] 2 3 0)
                     [] p w1) as (step & rest & E & Hs);
        [reflexivity|vm_compute; reflexivity|]
    end.
    exists step, rest. split; [exact E|exact Hs].
  - let r := eval vm_compute in walked in
    match r with
    | (Returned ?p, ?w1) =>
        destruct (H3 p w1) as (step & h_late & E & Hs & Hl);
        [vm_compute; reflexivity|]
    end.
    exists step, h_late. split; [exact E|]. split; [exact Hs|exact Hl].
Defined.
